(** * crypto-utils: EVM permit, Permit2 and SVM delegate helpers

    A shallow embedding of the TypeScript sources
    - [evm-permit/constants.ts], [evm-permit/allowance.ts],
      [evm-permit/sign-permit.ts],
    - [evm-permit2/constants.ts], [evm-permit2/allowance.ts],
      [evm-permit2/sign-permit.ts],
    - [svm-delegate/sign-tx.ts],
    together with the JavaScript built-ins they call ([slice], [replace],
    [padStart], [parseInt], [BigInt], [Number], [String.fromCharCode],
    [atob], [btoa]).

    An async function is a computation over the state of the EIP-1193
    provider it talks to, which either resolves or rejects; the requests it
    sends are recorded. [Date.now()] is an argument of the functions that
    read the clock.

    Layout: the definitions come first (JavaScript values, the provider
    monad, one module per source file, the vocabulary of the statements),
    the lemmas and the theorems follow. *)

From Stdlib Require Import ZArith NArith List String Ascii Bool Lia.
From Stdlib Require Strings.Byte DecimalPos.
Import ListNotations.
Local Open Scope Z_scope.

(* ===================================================================== *)
(** * JavaScript values *)
(* ===================================================================== *)

Module JS.

(** ** Strings

    A JavaScript string is a sequence of UTF-16 code units. *)

Definition code_unit := N.
Definition jsstring := list code_unit.

(** A source literal. *)
Definition lit (s : string) : jsstring :=
  List.map N_of_ascii (list_ascii_of_string s).

(** ** Numbers

    The doubles that occur in these sources are [NaN], the two infinities and
    integer values (negative zero is identified with zero: it is only ever
    compared, added to, or used as an index). Times, nonces, chain ids and
    the offsets a caller passes ([deadlineMinutes], [expirationDays],
    [bufferSeconds], ...) are taken to be such numbers; arithmetic rounds as
    doubles do, so it is exact below [2^53]. *)

Inductive number : Type :=
| NaN
| NegInf
| PosInf
| Fin (z : Z).

(** [round_mantissa a], for [0 <= a]: the multiple of [2^e] nearest to [a],
    ties to the even mantissa, where [e] leaves 53 significant bits. *)
Definition round_mantissa (a : Z) : Z :=
  let e := Z.log2 a - 52 in
  if e <=? 0 then a
  else
    let q := a / 2 ^ e in
    let r := a mod 2 ^ e in
    let half := 2 ^ (e - 1) in
    let q' := if (half <? r) || ((r =? half) && Z.odd q) then q + 1 else q in
    q' * 2 ^ e.

(** The Number value for a mathematical integer (round to nearest, ties to
    even; overflow to infinity from [2^1024]). *)
Definition round_double (z : Z) : number :=
  let m := round_mantissa (Z.abs z) in
  if 2 ^ 1024 <=? m then (if z <? 0 then NegInf else PosInf)
  else Fin (Z.sgn z * m).

Definition nadd (a b : number) : number :=
  match a, b with
  | NaN, _ | _, NaN => NaN
  | PosInf, NegInf | NegInf, PosInf => NaN
  | PosInf, _ | _, PosInf => PosInf
  | NegInf, _ | _, NegInf => NegInf
  | Fin x, Fin y => round_double (x + y)
  end.

Definition nsign (a : number) : Z :=
  match a with
  | NaN => 0
  | NegInf => -1
  | PosInf => 1
  | Fin z => Z.sgn z
  end.

Definition nmul (a b : number) : number :=
  match a, b with
  | NaN, _ | _, NaN => NaN
  | Fin x, Fin y => round_double (x * y)
  | _, _ =>
      match nsign a * nsign b with
      | 0 => NaN
      | Zpos _ => PosInf
      | Zneg _ => NegInf
      end
  end.

(** [a < b] on numbers; any comparison with [NaN] is false. *)
Definition nlt (a b : number) : bool :=
  match a, b with
  | NaN, _ | _, NaN => false
  | _, NegInf => false
  | NegInf, _ => true
  | PosInf, _ => false
  | Fin _, PosInf => true
  | Fin x, Fin y => x <? y
  end.

(** ** [String.prototype.slice]

    [rel_index len n]: ToIntegerOrInfinity, then the relative index clamped
    into [0 .. len]. *)
Definition rel_index (len : nat) (n : number) : nat :=
  match n with
  | NaN => 0%nat
  | NegInf => 0%nat
  | PosInf => len
  | Fin z =>
      if z <? 0 then Z.to_nat (Z.max (Z.of_nat len + z) 0)
      else Z.to_nat (Z.min z (Z.of_nat len))
  end.

(** [s.slice(start, end)] *)
Definition slice (s : jsstring) (start stop : number) : jsstring :=
  let len := List.length s in
  let from := rel_index len start in
  let to := rel_index len stop in
  firstn (to - from) (skipn from s).

(** [s.slice(start)] *)
Definition slice_from (s : jsstring) (start : number) : jsstring :=
  skipn (rel_index (List.length s) start) s.

(** ** [String.prototype.replace] with a string pattern: the first occurrence
    only. *)
Fixpoint starts_with (pat s : jsstring) : bool :=
  match pat, s with
  | [], _ => true
  | p :: pat', c :: s' => (p =? c)%N && starts_with pat' s'
  | _ :: _, [] => false
  end.

Fixpoint replace (s pat by_ : jsstring) : jsstring :=
  if starts_with pat s then by_ ++ skipn (List.length pat) s
  else
    match s with
    | [] => []
    | c :: s' => c :: replace s' pat by_
    end.

(** ** [String.prototype.padStart] with a one-unit filler. *)
Definition padStart (s : jsstring) (target : nat) (fill : code_unit) : jsstring :=
  repeat fill (target - List.length s) ++ s.

(** ** Digits, white space *)

(** The value of a code unit as a digit in radix 36. *)
Definition digit_value (c : code_unit) : option Z :=
  if (48 <=? c)%N && (c <=? 57)%N then Some (Z.of_N c - 48)
  else if (97 <=? c)%N && (c <=? 122)%N then Some (Z.of_N c - 87)
  else if (65 <=? c)%N && (c <=? 90)%N then Some (Z.of_N c - 55)
  else None.

Definition radix_digit (radix : Z) (c : code_unit) : option Z :=
  match digit_value c with
  | Some d => if d <? radix then Some d else None
  | None => None
  end.

(** WhiteSpace and LineTerminator code units (StrWhiteSpaceChar). *)
Definition is_whitespace (c : code_unit) : bool :=
  existsb (N.eqb c)
    [9; 10; 11; 12; 13; 32; 160; 5760; 8232; 8233; 8239; 8287; 12288; 65279]%N
  || ((8192 <=? c)%N && (c <=? 8202)%N).

Fixpoint drop_while (p : code_unit -> bool) (s : jsstring) : jsstring :=
  match s with
  | c :: s' => if p c then drop_while p s' else s
  | [] => []
  end.

Definition trim (s : jsstring) : jsstring :=
  rev (drop_while is_whitespace (rev (drop_while is_whitespace s))).

(** ** [parseInt(s, radix)] for an explicit radix in [2 .. 36]

    [parse_prefix] reads the longest prefix of digits; [None] when there is
    no digit at all. *)
Fixpoint parse_prefix (radix : Z) (s : jsstring) (acc : option Z) : option Z :=
  match s with
  | c :: s' =>
      match radix_digit radix c with
      | Some d =>
          parse_prefix radix s'
            (Some (radix * match acc with Some a => a | None => 0 end + d))
      | None => acc
      end
  | [] => acc
  end.

Definition parseInt (s : jsstring) (radix : Z) : number :=
  let s1 := drop_while is_whitespace s in
  let '(negative, s2) :=
    match s1 with
    | c :: r =>
        if (c =? 45)%N then (true, r)            (* - *)
        else if (c =? 43)%N then (false, r)      (* + *)
        else (false, s1)
    | [] => (false, s1)
    end in
  let s3 :=
    if radix =? 16 then
      match s2 with
      | c :: x :: r =>
          if (c =? 48)%N && ((x =? 120)%N || (x =? 88)%N) then r   (* 0x 0X *)
          else s2
      | _ => s2
      end
    else s2 in
  match parse_prefix radix s3 None with
  | None => NaN
  | Some m => round_double (if negative then - m else m)
  end.

(** ** [BigInt(s)] on a string (StringToBigInt); [None] is the SyntaxError.

    [parse_all] wants a non-empty string made of digits only. *)
Definition parse_all (radix : Z) (s : jsstring) : option Z :=
  match s with
  | [] => None
  | _ =>
      fold_left
        (fun acc c =>
           match acc, radix_digit radix c with
           | Some a, Some d => Some (radix * a + d)
           | _, _ => None
           end)
        s (Some 0)
  end.

Definition nondecimal_radix (x : code_unit) : option Z :=
  if (x =? 120)%N || (x =? 88)%N then Some 16        (* 0x 0X *)
  else if (x =? 111)%N || (x =? 79)%N then Some 8    (* 0o 0O *)
  else if (x =? 98)%N || (x =? 66)%N then Some 2     (* 0b 0B *)
  else None.

Definition BigInt (s : jsstring) : option Z :=
  let t := trim s in
  match t with
  | [] => Some 0
  | c :: r =>
      if (c =? 45)%N then option_map Z.opp (parse_all 10 r)
      else if (c =? 43)%N then parse_all 10 r
      else
        match r with
        | x :: digits =>
            match (if (c =? 48)%N then nondecimal_radix x else None) with
            | Some radix => parse_all radix digits
            | None => parse_all 10 t
            end
        | [] => parse_all 10 t
        end
  end.

(** [Number(b)] for a BigInt. *)
Definition Number (b : Z) : number := round_double b.

(** [b.toString()] for a BigInt: decimal, with a minus sign. *)
Fixpoint uint_units (d : Decimal.uint) : jsstring :=
  match d with
  | Decimal.Nil => []
  | Decimal.D0 d' => 48%N :: uint_units d'
  | Decimal.D1 d' => 49%N :: uint_units d'
  | Decimal.D2 d' => 50%N :: uint_units d'
  | Decimal.D3 d' => 51%N :: uint_units d'
  | Decimal.D4 d' => 52%N :: uint_units d'
  | Decimal.D5 d' => 53%N :: uint_units d'
  | Decimal.D6 d' => 54%N :: uint_units d'
  | Decimal.D7 d' => 55%N :: uint_units d'
  | Decimal.D8 d' => 56%N :: uint_units d'
  | Decimal.D9 d' => 57%N :: uint_units d'
  end.

Definition BigInt_toString (b : Z) : jsstring :=
  match b with
  | Z0 => [48%N]
  | Zpos p => uint_units (Pos.to_uint p)
  | Zneg p => 45%N :: uint_units (Pos.to_uint p)
  end.

(** ** [String.fromCharCode(n)]: ToUint16. *)
Definition fromCharCode (n : number) : code_unit :=
  match n with
  | Fin z => Z.to_N (z mod 65536)
  | _ => 0%N
  end.

End JS.
Import JS.

(* ===================================================================== *)
(** * Exceptions, JSON values, the EIP-1193 provider *)
(* ===================================================================== *)

(** What a function of these sources can throw, or a returned promise reject
    with. *)
Inductive exn : Type :=
| Error (message : jsstring)                  (* [throw new Error(message)] *)
| SyntaxError                                 (* [BigInt] on a malformed literal *)
| InvalidCharacterError                       (* [atob] / [btoa] *)
| ProviderRpcError (code : Z) (message : jsstring).
                                              (* [provider.request] rejected *)

(** Object literals keep their keys in insertion order. *)
#[local] Unset Elimination Schemes.
Inductive json : Type :=
| JString (s : jsstring)
| JNumber (n : number)
| JArray (items : list json)
| JObject (fields : list (string * json)).
#[local] Set Elimination Schemes.

Definition field_of (fields : list (string * json)) (key : string)
  : option json :=
  match find (fun kv => String.eqb (fst kv) key) fields with
  | Some kv => Some (snd kv)
  | None => None
  end.

(** [o.key] *)
Definition jget (o : json) (key : string) : option json :=
  match o with
  | JObject fields => field_of fields key
  | _ => None
  end.

(** [o.k1.k2...] *)
Fixpoint jpath (o : json) (keys : list string) : option json :=
  match keys with
  | [] => Some o
  | k :: keys' =>
      match jget o k with
      | Some o' => jpath o' keys'
      | None => None
      end
  end.

Module Provider.

(** The requests these sources send through [provider.request]. An
    [eth_call] always carries the block tag ['latest']. *)
Inductive Request : Type :=
| eth_accounts
| eth_requestAccounts
| eth_chainId
| eth_call (to data : jsstring)
| eth_signTypedData_v4 (signer typedData : jsstring).

(** The type each response is cast to ([as string[]], [as string]). *)
Definition response (r : Request) : Type :=
  match r with
  | eth_accounts | eth_requestAccounts => list jsstring
  | _ => jsstring
  end.

(** [EIP1193Provider]: an external object with a state of its own. *)
Record EIP1193Provider (World : Type) : Type := {
  request : forall r : Request, World -> (exn + response r) * World
}.
Arguments request {World} _ _ _.

(** The state an async function runs in: the provider's state and the
    requests sent so far. *)
Record St (World : Type) : Type := mkSt {
  world : World;
  trace : list Request
}.
Arguments mkSt {World} _ _.
Arguments world {World} _.
Arguments trace {World} _.

(** An async function: it resolves ([inr]) or rejects ([inl]). *)
Definition M (World A : Type) : Type := St World -> (exn + A) * St World.

Section Monad.
Context {World : Type}.

Definition ret {A} (a : A) : M World A := fun s => (inr a, s).

Definition throw {A} (e : exn) : M World A := fun s => (inl e, s).

Definition bind {A B} (m : M World A) (k : A -> M World B) : M World B :=
  fun s =>
    match m s with
    | (inl e, s') => (inl e, s')
    | (inr a, s') => k a s'
    end.

(** [try { m } catch { h }]: what [m] did to the provider stays done. *)
Definition try_catch {A} (m : M World A) (h : exn -> M World A) : M World A :=
  fun s =>
    match m s with
    | (inl e, s') => h e s'
    | (inr a, s') => (inr a, s')
    end.

(** A synchronous computation that may throw. *)
Definition lift {A} (r : exn + A) : M World A := fun s => (r, s).

(** [await provider.request({method, params})] *)
Definition provider_request (provider : EIP1193Provider World) (r : Request)
  : M World (response r) :=
  fun s =>
    let (o, w') := request provider r (world s) in
    (o, mkSt w' (trace s ++ [r])).
End Monad.

Module Notations.
Notation "x <- m ;; k" := (bind m (fun x => k))
  (at level 61, m at next level, right associativity).
End Notations.

End Provider.
Import Provider Provider.Notations.

(** [BigInt(s)] where the SyntaxError is thrown. *)
Definition BigInt_or_throw (s : jsstring) : exn + Z :=
  match BigInt s with
  | Some b => inr b
  | None => inl SyntaxError
  end.

(** [a === b] on strings. *)
Fixpoint str_eqb (a b : jsstring) : bool :=
  match a, b with
  | [], [] => true
  | x :: a', y :: b' => (x =? y)%N && str_eqb a' b'
  | _, _ => false
  end.

(* ===================================================================== *)
(** * evm-permit/constants.ts (src/evm-permit/constants.ts) *)
(* ===================================================================== *)

Module EvmPermitConstants.

Definition NONCES_SELECTOR : jsstring := lit "0x7ecebe00".
Definition NAME_SELECTOR : jsstring := lit "0x06fdde03".
Definition ALLOWANCE_SELECTOR : jsstring := lit "0xdd62ed3e".
Definition EIP712_DOMAIN_SELECTOR : jsstring := lit "0x84b0196e".
Definition DEFAULT_PERMIT_VERSION : jsstring := lit "1".

(** [{ name: n, type: t }] *)
Definition typed_field (n t : string) : json :=
  JObject [("name", JString (lit n)); ("type", JString (lit t))]%string.

Definition ERC20_PERMIT_TYPES : list (string * json) :=
  [("Permit",
    JArray [typed_field "owner" "address";
            typed_field "spender" "address";
            typed_field "value" "uint256";
            typed_field "nonce" "uint256";
            typed_field "deadline" "uint256"])]%string.

End EvmPermitConstants.

(* ===================================================================== *)
(** * evm-permit/allowance.ts (src/evm-permit/allowance.ts) *)
(* ===================================================================== *)

Module EvmPermitAllowance.
Import EvmPermitConstants.

(** [hexToString] (line 314): the loop [for (i = 0; i < hex.length; i += 2)] reads
    [hex.slice(i, i + 2)], that is two code units at a time and a single one
    at an odd end. *)
Fixpoint hexToString (hex : jsstring) : jsstring :=
  match hex with
  | [] => []
  | [a] => [fromCharCode (parseInt [a] 16)]
  | a :: b :: rest => fromCharCode (parseInt [a; b] 16) :: hexToString rest
  end.

Record Eip712DomainInfo : Type := {
  name : jsstring;
  version : jsstring;
  chainId : number;
  verifyingContract : jsstring
}.

Record ERC20AllowanceInfo : Type := {
  allowance : jsstring;
  isSufficient : bool
}.

(** [decodeEip712Domain] (line 273) *)
Definition decodeEip712Domain (result tokenAddress : jsstring)
  : exn + Eip712DomainInfo :=
  let hex := slice_from result (Fin 2) in
  let chainIdHex := slice hex (Fin 192) (Fin 256) in
  match BigInt_or_throw (lit "0x" ++ chainIdHex) with
  | inl e => inl e
  | inr chainIdBig =>
      let chainId := Number chainIdBig in
      let nameOffsetHex := slice hex (Fin 64) (Fin 128) in
      let nameOffset := nmul (parseInt nameOffsetHex 16) (Fin 2) in
      let nameLengthHex := slice hex nameOffset (nadd nameOffset (Fin 64)) in
      let nameLength := parseInt nameLengthHex 16 in
      let nameHex :=
        slice hex (nadd nameOffset (Fin 64))
          (nadd (nadd nameOffset (Fin 64)) (nmul nameLength (Fin 2))) in
      let name := hexToString nameHex in
      let versionOffsetHex := slice hex (Fin 128) (Fin 192) in
      let versionOffset := nmul (parseInt versionOffsetHex 16) (Fin 2) in
      let versionLengthHex :=
        slice hex versionOffset (nadd versionOffset (Fin 64)) in
      let versionLength := parseInt versionLengthHex 16 in
      let versionHex :=
        slice hex (nadd versionOffset (Fin 64))
          (nadd (nadd versionOffset (Fin 64)) (nmul versionLength (Fin 2))) in
      let version := hexToString versionHex in
      inr {| name := name;
             version := version;
             chainId := chainId;
             verifyingContract := tokenAddress |}
  end.

Section WithProvider.
Context {World : Type}.

(** [VERSION_SELECTOR] is imported from [./constants], which does not
    define it; [toLowerCase] is the platform's. *)
Variable VERSION_SELECTOR : jsstring.
Variable toLowerCase : jsstring -> jsstring.

(** [getTokenName] (line 69); its decoding loop is [hexToString] written
    inline. *)
Definition getTokenName (provider : EIP1193Provider World)
    (tokenAddress : jsstring) : M World jsstring :=
  result <- provider_request provider (eth_call tokenAddress NAME_SELECTOR) ;;
  let hex := slice_from result (Fin 2) in
  let length := parseInt (slice hex (Fin 64) (Fin 128)) 16 in
  let nameHex :=
    slice hex (Fin 128) (nadd (Fin 128) (nmul length (Fin 2))) in
  ret (hexToString nameHex).

(** [getERC20Allowance] (line 114) *)
Definition getERC20Allowance (provider : EIP1193Provider World)
    (tokenAddress ownerAddress spenderAddress : jsstring) : M World jsstring :=
  let paddedOwner :=
    padStart (toLowerCase (slice_from ownerAddress (Fin 2))) 64 48%N in
  let paddedSpender :=
    padStart (toLowerCase (slice_from spenderAddress (Fin 2))) 64 48%N in
  let callData := ALLOWANCE_SELECTOR ++ paddedOwner ++ paddedSpender in
  result <- provider_request provider (eth_call tokenAddress callData) ;;
  b <- lift (BigInt_or_throw result) ;;
  ret (BigInt_toString b).

(** [checkERC20Allowance] (line 157) *)
Definition checkERC20Allowance (provider : EIP1193Provider World)
    (tokenAddress ownerAddress spenderAddress requiredAmount : jsstring)
  : M World ERC20AllowanceInfo :=
  allowance <-
    getERC20Allowance provider tokenAddress ownerAddress spenderAddress ;;
  a <- lift (BigInt_or_throw allowance) ;;
  r <- lift (BigInt_or_throw requiredAmount) ;;
  ret {| allowance := allowance; isSufficient := r <=? a |}.

(** [getTokenVersion] (line 176) *)
Definition getTokenVersion (provider : EIP1193Provider World)
    (tokenAddress : jsstring) : M World jsstring :=
  try_catch
    (result <-
       provider_request provider (eth_call tokenAddress VERSION_SELECTOR) ;;
     let hex := slice_from result (Fin 2) in
     let length := parseInt (slice hex (Fin 64) (Fin 128)) 16 in
     let versionHex :=
       slice hex (Fin 128) (nadd (Fin 128) (nmul length (Fin 2))) in
     ret (hexToString versionHex))
    (fun _ => ret DEFAULT_PERMIT_VERSION).

(** [getEip712Domain] (line 234) *)
Definition getEip712Domain (provider : EIP1193Provider World)
    (tokenAddress : jsstring) : M World Eip712DomainInfo :=
  try_catch
    (result <-
       provider_request provider
         (eth_call tokenAddress EIP712_DOMAIN_SELECTOR) ;;
     lift (decodeEip712Domain result tokenAddress))
    (fun _ =>
       name <- getTokenName provider tokenAddress ;;
       version <- getTokenVersion provider tokenAddress ;;
       chainIdHex <- provider_request provider eth_chainId ;;
       ret {| name := name;
              version := version;
              chainId := parseInt chainIdHex 16;
              verifyingContract := tokenAddress |}).

(** [getERC20Nonce] (line 31) *)
Definition getERC20Nonce (provider : EIP1193Provider World)
    (tokenAddress ownerAddress : jsstring) : M World number :=
  let paddedAddress :=
    padStart (toLowerCase (slice_from ownerAddress (Fin 2))) 64 48%N in
  let callData := NONCES_SELECTOR ++ paddedAddress in
  result <- provider_request provider (eth_call tokenAddress callData) ;;
  ret (parseInt result 16).
End WithProvider.

End EvmPermitAllowance.

(* ===================================================================== *)
(** * evm-permit/sign-permit.ts (src/evm-permit/sign-permit.ts, lines 1-168) *)
(* ===================================================================== *)

Module EvmPermitSign.
Import EvmPermitConstants EvmPermitAllowance.

Record Signature : Type := {
  sig_v : number;
  sig_r : jsstring;
  sig_s : jsstring
}.

(** [parseSignature] (line 137) *)
Definition parseSignature (signature : jsstring) : Signature :=
  let sig := slice_from signature (Fin 2) in
  let r := lit "0x" ++ slice sig (Fin 0) (Fin 64) in
  let s := lit "0x" ++ slice sig (Fin 64) (Fin 128) in
  let v := parseInt (slice sig (Fin 128) (Fin 130)) 16 in
  let v := if nlt v (Fin 27) then nadd v (Fin 27) else v in
  {| sig_v := v; sig_r := r; sig_s := s |}.

(** [isPermitValid] (line 165); [now_ms] is what [Date.now()] returns. *)
Definition isPermitValid (now_ms : Z) (deadline : number)
    (bufferSeconds : option number) : bool :=
  let bufferSeconds :=
    match bufferSeconds with Some b => b | None => Fin 30 end in
  let now := Fin (now_ms / 1000) in
  nlt (nadd now bufferSeconds) deadline.

Record ERC20PermitSignature : Type := {
  value : jsstring;
  deadline : number;
  v : number;
  r : jsstring;
  s : jsstring
}.

Record SignERC20PermitResult : Type := {
  permitSignature : ERC20PermitSignature;
  signerAddress : jsstring
}.

Section WithProvider.
Context {World : Type}.
Variable VERSION_SELECTOR : jsstring.
Variable JSON_stringify : json -> jsstring.

Record SignERC20PermitParams : Type := {
  p_provider : EIP1193Provider World;
  p_chainId : number;
  p_tokenAddress : jsstring;
  p_tokenName : jsstring;
  p_spenderAddress : jsstring;
  p_value : jsstring;
  p_nonce : number;
  p_deadlineMinutes : option number;
  p_signerAddress : option jsstring
}.

(** The typed data [signERC20Permit] assembles (lines 77-107). *)
Definition permitTypedData (domainInfo : Eip712DomainInfo)
    (chainId : number) (tokenAddress signerAddress spenderAddress
    value : jsstring) (nonce deadline : number) : json :=
  let domain :=
    JObject [("name", JString (name domainInfo));
             ("version", JString (version domainInfo));
             ("chainId", JNumber chainId);
             ("verifyingContract", JString tokenAddress)]%string in
  let message :=
    JObject [("owner", JString signerAddress);
             ("spender", JString spenderAddress);
             ("value", JString value);
             ("nonce", JNumber nonce);
             ("deadline", JNumber deadline)]%string in
  JObject [("types",
            JObject (("EIP712Domain",
                      JArray [typed_field "name" "string";
                              typed_field "version" "string";
                              typed_field "chainId" "uint256";
                              typed_field "verifyingContract" "address"])
                     :: ERC20_PERMIT_TYPES));
           ("primaryType", JString (lit "Permit"));
           ("domain", domain);
           ("message", message)]%string.

(** [signERC20Permit] (line 37); [now_ms] is what its one [Date.now()]
    returns. *)
Definition signERC20Permit (now_ms : Z) (params : SignERC20PermitParams)
  : M World SignERC20PermitResult :=
  let provider := p_provider params in
  let chainId := p_chainId params in
  let tokenAddress := p_tokenAddress params in
  let spenderAddress := p_spenderAddress params in
  let value := p_value params in
  let nonce := p_nonce params in
  let deadlineMinutes :=
    match p_deadlineMinutes params with Some m => m | None => Fin 60 end in
  let expectedSignerAddress := p_signerAddress params in
  let now := Fin (now_ms / 1000) in
  let deadline := nadd now (nmul deadlineMinutes (Fin 60)) in
  accounts <- provider_request provider eth_accounts ;;
  accounts <-
    (match accounts with
     | [] => provider_request provider eth_requestAccounts
     | _ :: _ => ret accounts
     end) ;;
  match accounts with
  | [] => throw (Error (lit "No connected accounts"))
  | account0 :: _ =>
      let signerAddress :=
        match expectedSignerAddress with
        | Some (c :: a) => c :: a
        | Some [] | None => account0
        end in
      domainInfo <-
        getEip712Domain VERSION_SELECTOR provider tokenAddress ;;
      let typedData :=
        permitTypedData domainInfo chainId tokenAddress signerAddress
          spenderAddress value nonce deadline in
      signature <-
        provider_request provider
          (eth_signTypedData_v4 signerAddress (JSON_stringify typedData)) ;;
      let sig := parseSignature signature in
      ret {| permitSignature :=
               {| value := value;
                  deadline := deadline;
                  v := sig_v sig;
                  r := sig_r sig;
                  s := sig_s sig |};
             signerAddress := signerAddress |}
  end.
End WithProvider.

End EvmPermitSign.

(* ===================================================================== *)
(** * evm-permit2: constants (src/evm-permit2/types.ts, second part),
      allowance (src/evm-permit/sign-permit.ts, lines 169-298),
      sign-permit (src/evm-permit2/sign-permit.ts) *)
(* ===================================================================== *)

Module Permit2.
Import EvmPermitConstants.

Definition PERMIT2_DOMAIN_NAME : jsstring := lit "Permit2".
Definition PERMIT2_ALLOWANCE_SELECTOR : jsstring := lit "0x927da105".
Definition PERMIT2_ADDRESS : jsstring :=
  lit "0x000000000022D473030F116dDEE9F6B43aC78BA3".

Definition PERMIT_SINGLE_TYPES : list (string * json) :=
  [("PermitSingle",
    JArray [typed_field "details" "PermitDetails";
            typed_field "spender" "address";
            typed_field "sigDeadline" "uint256"]);
   ("PermitDetails",
    JArray [typed_field "token" "address";
            typed_field "amount" "uint160";
            typed_field "expiration" "uint48";
            typed_field "nonce" "uint48"])]%string.

Record Permit2Allowance : Type := {
  amount : Z;               (* bigint *)
  expiration : number;
  nonce : number
}.

(** [decodeAllowanceResult] (line 251) *)
Definition decodeAllowanceResult (result : jsstring) : exn + Permit2Allowance :=
  let hex := replace result (lit "0x") [] in
  let amountHex := slice hex (Fin 0) (Fin 64) in
  match BigInt_or_throw (lit "0x" ++ amountHex) with
  | inl e => inl e
  | inr amount =>
      let expirationHex := slice hex (Fin 64) (Fin 128) in
      match BigInt_or_throw (lit "0x" ++ expirationHex) with
      | inl e => inl e
      | inr expirationBig =>
          let expiration := Number expirationBig in
          let nonceHex := slice hex (Fin 128) (Fin 192) in
          match BigInt_or_throw (lit "0x" ++ nonceHex) with
          | inl e => inl e
          | inr nonceBig =>
              inr {| amount := amount;
                     expiration := expiration;
                     nonce := Number nonceBig |}
          end
      end
  end.

(** [isAllowanceSufficient] (line 280); [now_ms] is what [Date.now()]
    returns. *)
Definition isAllowanceSufficient (now_ms : Z) (allowance : Permit2Allowance)
    (requiredAmount : Z) (bufferSeconds : option number) : bool :=
  let bufferSeconds :=
    match bufferSeconds with Some b => b | None => Fin 1800 end in
  let now := Fin (now_ms / 1000) in
  if amount allowance <? requiredAmount then false
  else if nlt (expiration allowance) (nadd now bufferSeconds) then false
  else true.

(** [isSignatureValid] (line 123) *)
Definition isSignatureValid (now_ms : Z) (sigDeadline : number)
    (bufferSeconds : option number) : bool :=
  let bufferSeconds :=
    match bufferSeconds with Some b => b | None => Fin 30 end in
  let now := Fin (now_ms / 1000) in
  nlt (nadd now bufferSeconds) sigDeadline.

Record PermitDetails : Type := {
  d_token : jsstring;
  d_amount : jsstring;
  d_expiration : number;
  d_nonce : number
}.

Record PermitSingle : Type := {
  details : PermitDetails;
  spender : jsstring;
  sigDeadline : number
}.

Record SignPermit2Result : Type := {
  permitSingle : PermitSingle;
  signature : jsstring;
  signerAddress : jsstring
}.

Section WithProvider.
Context {World : Type}.
Variable toLowerCase : jsstring -> jsstring.
Variable JSON_stringify : json -> jsstring.

(** [encodeAllowanceCall] (line 232) *)
Definition encodeAllowanceCall (owner token spender : jsstring) : jsstring :=
  let paddedOwner :=
    padStart (replace (toLowerCase owner) (lit "0x") []) 64 48%N in
  let paddedToken :=
    padStart (replace (toLowerCase token) (lit "0x") []) 64 48%N in
  let paddedSpender :=
    padStart (replace (toLowerCase spender) (lit "0x") []) 64 48%N in
  PERMIT2_ALLOWANCE_SELECTOR ++ paddedOwner ++ paddedToken ++ paddedSpender.

(** [checkPermit2Allowance] (line 199) *)
Definition checkPermit2Allowance (provider : EIP1193Provider World)
    (permit2Address ownerAddress tokenAddress spenderAddress : jsstring)
  : M World Permit2Allowance :=
  let callData :=
    encodeAllowanceCall ownerAddress tokenAddress spenderAddress in
  result <- provider_request provider (eth_call permit2Address callData) ;;
  lift (decodeAllowanceResult result).

Record SignPermit2Params : Type := {
  p_provider : EIP1193Provider World;
  p_chainId : number;
  p_permit2Address : jsstring;
  p_tokenAddress : jsstring;
  p_spenderAddress : jsstring;
  p_allowanceAmount : jsstring;
  p_expirationDays : option number;
  p_sigDeadlineMinutes : option number;
  p_nonce : number;
  p_signerAddress : option jsstring
}.

(** The typed data [signPermit2] assembles (lines 59-102). *)
Definition permit2TypedData (permitSingle : PermitSingle)
    (chainId : number) (permit2Address : jsstring) : json :=
  let domain :=
    JObject [("name", JString PERMIT2_DOMAIN_NAME);
             ("chainId", JNumber chainId);
             ("verifyingContract", JString permit2Address)]%string in
  let message :=
    JObject [("details",
              JObject [("token", JString (d_token (details permitSingle)));
                       ("amount", JString (d_amount (details permitSingle)));
                       ("expiration",
                        JNumber (d_expiration (details permitSingle)));
                       ("nonce", JNumber (d_nonce (details permitSingle)))]);
             ("spender", JString (spender permitSingle));
             ("sigDeadline", JNumber (sigDeadline permitSingle))]%string in
  JObject [("types",
            JObject (("EIP712Domain",
                      JArray [typed_field "name" "string";
                              typed_field "chainId" "uint256";
                              typed_field "verifyingContract" "address"])
                     :: PERMIT_SINGLE_TYPES));
           ("primaryType", JString (lit "PermitSingle"));
           ("domain", domain);
           ("message", message)]%string.

(** [signPermit2] (line 33); [now_ms] is what its one [Date.now()]
    returns. *)
Definition signPermit2 (now_ms : Z) (params : SignPermit2Params)
  : M World SignPermit2Result :=
  let provider := p_provider params in
  let expirationDays :=
    match p_expirationDays params with Some d => d | None => Fin 30 end in
  let sigDeadlineMinutes :=
    match p_sigDeadlineMinutes params with
    | Some m => m
    | None => Fin 5
    end in
  match p_signerAddress params with
  | None | Some [] => throw (Error (lit "signerAddress is required"))
  | Some signerAddress =>
      let now := Fin (now_ms / 1000) in
      let expiration :=
        nadd now
          (nmul (nmul (nmul expirationDays (Fin 24)) (Fin 60)) (Fin 60)) in
      let sigDeadline := nadd now (nmul sigDeadlineMinutes (Fin 60)) in
      let permitSingle :=
        {| details := {| d_token := p_tokenAddress params;
                         d_amount := p_allowanceAmount params;
                         d_expiration := expiration;
                         d_nonce := p_nonce params |};
           spender := p_spenderAddress params;
           sigDeadline := sigDeadline |} in
      let typedData :=
        permit2TypedData permitSingle (p_chainId params)
          (p_permit2Address params) in
      signature <-
        provider_request provider
          (eth_signTypedData_v4 signerAddress (JSON_stringify typedData)) ;;
      ret {| permitSingle := permitSingle;
             signature := signature;
             signerAddress := signerAddress |}
  end.
End WithProvider.

End Permit2.

(* ===================================================================== *)
(** * svm-delegate/sign-tx.ts (src/unnamed/part_002) *)
(* ===================================================================== *)

Module SvmDelegate.

(** ** [btoa] and [atob] (the platform's base64 of binary strings) *)

(** The base64 character of a sextet. *)
Definition b64_char (v : N) : code_unit :=
  (if v <? 26 then v + 65
   else if v <? 52 then v + 71
   else if v <? 62 then v - 4
   else if v =? 62 then 43
   else 47)%N.

(** The sextet of a base64 character. *)
Definition b64_value (c : code_unit) : option N :=
  (if (65 <=? c) && (c <=? 90) then Some (c - 65)
   else if (97 <=? c) && (c <=? 122) then Some (c - 71)
   else if (48 <=? c) && (c <=? 57) then Some (c + 4)
   else if c =? 43 then Some 62
   else if c =? 47 then Some 63
   else None)%N.

Fixpoint b64_encode (s : list N) : jsstring :=
  (match s with
   | [] => []
   | [a] => [b64_char (a / 4); b64_char (a mod 4 * 16); 61; 61]
   | [a; b] =>
       [b64_char (a / 4); b64_char (a mod 4 * 16 + b / 16);
        b64_char (b mod 16 * 4); 61]
   | a :: b :: c :: rest =>
       b64_char (a / 4) :: b64_char (a mod 4 * 16 + b / 16)
       :: b64_char (b mod 16 * 4 + c / 64) :: b64_char (c mod 64)
       :: b64_encode rest
   end)%N.

(** [btoa(s)]: throws on a code unit above 255. *)
Definition btoa (s : jsstring) : exn + jsstring :=
  if forallb (fun c => c <=? 255)%N s then inr (b64_encode s)
  else inl InvalidCharacterError.

Definition is_ascii_whitespace (c : code_unit) : bool :=
  existsb (N.eqb c) [9; 10; 12; 13; 32]%N.

(** Drop one or two trailing [=] when the length is a multiple of four. *)
Definition strip_padding (data : jsstring) : jsstring :=
  if (List.length data mod 4 =? 0)%nat then
    match rev data with
    | c1 :: r1 =>
        if (c1 =? 61)%N then
          match r1 with
          | c2 :: r2 => if (c2 =? 61)%N then rev r2 else rev r1
          | [] => rev r1
          end
        else data
    | [] => data
    end
  else data.

Fixpoint sextets (data : jsstring) : option (list N) :=
  match data with
  | [] => Some []
  | c :: data' =>
      match b64_value c, sextets data' with
      | Some v, Some vs => Some (v :: vs)
      | _, _ => None
      end
  end.

(** Four sextets give three bytes; a rest of two or three sextets gives one
    or two bytes, the spare bits being dropped. *)
Fixpoint b64_decode (vs : list N) : list N :=
  (match vs with
   | a :: b :: c :: d :: rest =>
       (a * 4 + b / 16) :: (b mod 16 * 16 + c / 4) :: (c mod 4 * 64 + d)
       :: b64_decode rest
   | [a; b; c] => [a * 4 + b / 16; b mod 16 * 16 + c / 4]
   | [a; b] => [a * 4 + b / 16]
   | _ => []
   end)%N.

(** [atob(data)]: forgiving-base64 decode. *)
Definition atob (data : jsstring) : exn + jsstring :=
  let data := filter (fun c => negb (is_ascii_whitespace c)) data in
  let data := strip_padding data in
  if (List.length data mod 4 =? 1)%nat then inl InvalidCharacterError
  else
    match sextets data with
    | None => inl InvalidCharacterError
    | Some vs => inr (b64_decode vs)
    end.

(** ** [Uint8Array] as a list of bytes *)

(** [bytes[i] = n]: the store keeps [n] modulo 256. *)
Definition to_uint8 (n : N) : Byte.byte :=
  match Byte.of_N (n mod 256) with
  | Some b => b
  | None => Byte.x00
  end.

(** [base64ToUint8Array] (line 225) *)
Definition base64ToUint8Array (base64 : jsstring) : exn + list Byte.byte :=
  match atob base64 with
  | inl e => inl e
  | inr binary => inr (List.map to_uint8 binary)   (* charCodeAt, per index *)
  end.

(** [uint8ArrayToBase64] (line 237) *)
Definition uint8ArrayToBase64 (bytes : list Byte.byte) : exn + jsstring :=
  let binary :=
    List.map (fun b => fromCharCode (Fin (Z.of_N (Byte.to_N b)))) bytes in
  btoa binary.

(** [isBlockhashValid] (line 252) *)
Definition isBlockhashValid (now_ms : Z) (expiresAt : number)
    (bufferMs : option number) : bool :=
  let bufferMs := match bufferMs with Some b => b | None => Fin 10000 end in
  nlt (nadd (Fin now_ms) bufferMs) expiresAt.

(** ** Wallet discovery *)

(** The wallet globals that are looked at, in the source's order:
    [win.phantom?.solana], [win.solflare], [win.okxwallet?.solana],
    [win.coinbaseSolana], [win.backpack?.solana]. *)
Inductive SupportedWallet : Type :=
| phantom
| solflare
| okxwallet
| coinbaseSolana
| backpack.

Definition wallet_eqb (a b : SupportedWallet) : bool :=
  match a, b with
  | phantom, phantom | solflare, solflare | okxwallet, okxwallet
  | coinbaseSolana, coinbaseSolana | backpack, backpack => true
  | _, _ => false
  end.

(** The browser window as these functions see it. [installed]: the global
    holds an object; [isConnected] and [publicKey] read the provider's
    properties ([publicKey] gives what [toString()] returns, [None] for
    [null]), and a read may throw; [connect] is the handshake, its result
    being the response's [publicKey.toString()], [None] when the response
    carries none. *)
Record Window (World : Type) : Type := {
  installed : World -> SupportedWallet -> bool;
  isConnected : World -> SupportedWallet -> exn + bool;
  publicKey : World -> SupportedWallet -> exn + option jsstring;
  connect : SupportedWallet -> World -> (exn + option jsstring) * World
}.
Arguments installed {World} _ _ _.
Arguments isConnected {World} _ _ _.
Arguments publicKey {World} _ _ _.
Arguments connect {World} _ _ _.

Section WithWindow.
Context {World : Type}.
Variable win : Window World.

(** [provider.isConnected && provider.publicKey?.toString() ===
    expectedAddress] inside [try], a throw being skipped. *)
Definition connected_as (w : World) (provider : SupportedWallet)
    (expectedAddress : jsstring) : bool :=
  match isConnected win w provider with
  | inr true =>
      match publicKey win w provider with
      | inr (Some key) => str_eqb key expectedAddress
      | inr None => false
      | inl _ => false
      end
  | inr false => false
  | inl _ => false
  end.

Fixpoint find_loop (w : World) (providers : list SupportedWallet)
    (expectedAddress : jsstring) : option SupportedWallet :=
  match providers with
  | [] => None
  | provider :: rest =>
      if negb (installed win w provider) then
        find_loop w rest expectedAddress
      else if connected_as w provider expectedAddress then Some provider
      else find_loop w rest expectedAddress
  end.

(** [findConnectedProvider] (line 130) *)
Definition findConnectedProvider (w : World) (expectedAddress : jsstring)
  : option SupportedWallet :=
  find_loop w [phantom; solflare; okxwallet; coinbaseSolana; backpack]
    expectedAddress.

Definition not_found (expectedAddress : jsstring) : exn :=
  Error (lit "Could not find wallet with address: " ++ expectedAddress
         ++ lit ". " ++ lit "Please connect the correct wallet.").

(** [connectSolanaWallet] (line 176) *)
Definition connectSolanaWallet (expectedAddress : jsstring) (w : World)
  : (exn + SupportedWallet) * World :=
  match findConnectedProvider w expectedAddress with
  | Some connected => (inr connected, w)
  | None =>
      (* Phantom *)
      let '(found, w1) :=
        if installed win w phantom then
          match connect win phantom w with
          | (inr (Some key), w') => (str_eqb key expectedAddress, w')
          | (inr None, w') => (false, w')
          | (inl _, w') => (false, w')
          end
        else (false, w) in
      if found then (inr phantom, w1)
      else
        (* Solflare *)
        let '(found, w2) :=
          if installed win w1 solflare then
            match connect win solflare w1 with
            | (inr _, w') =>
                match publicKey win w' solflare with
                | inr (Some key) => (str_eqb key expectedAddress, w')
                | inr None => (false, w')
                | inl _ => (false, w')
                end
            | (inl _, w') => (false, w')
            end
          else (false, w1) in
        if found then (inr solflare, w2)
        else (inl (not_found expectedAddress), w2)
  end.
End WithWindow.

(** ** Signing *)

Record SignedTxResult : Type := {
  signedTx : jsstring;
  txSignerAddress : jsstring        (* [signerAddress] *)
}.

(** The [SolanaProvider] handed to the signing functions: [isConnected],
    [publicKey] (what [toString()] returns, [None] for [null]) and
    [signTransaction], over transactions of some type [Tx]. *)
Record SolanaProvider (World Tx : Type) : Type := {
  sp_isConnected : World -> bool;
  sp_publicKey : World -> option jsstring;
  signTransaction : Tx -> World -> (exn + Tx) * World
}.
Arguments sp_isConnected {World Tx} _ _.
Arguments sp_publicKey {World Tx} _ _.
Arguments signTransaction {World Tx} _ _ _.

Definition not_connected : exn := Error (lit "Wallet not connected").

Definition address_mismatch (expectedSigner signerAddress : jsstring) : exn :=
  Error (lit "Wallet address mismatch. Expected: " ++ expectedSigner
         ++ lit ", Got: " ++ signerAddress).

Definition needs_transaction_object : exn :=
  Error (lit "signDelegateTx requires @solana/web3.js Transaction object. "
         ++ lit "Use signDelegateTxWithTransaction() instead, or convert base64 to Transaction manually.").

Section Signing.
Context {World Tx : Type}.
Variable toLowerCase : jsstring -> jsstring.

(** [transaction.serialize()]; it may throw. *)
Variable serialize : Tx -> exn + list Byte.byte.

(** [signDelegateTx] (line 32); it sends nothing to the provider. *)
Definition signDelegateTx (provider : SolanaProvider World Tx)
    (unsignedTxBase64 : jsstring) (expectedSigner : option jsstring)
    (w : World) : exn + SignedTxResult :=
  match sp_isConnected provider w, sp_publicKey provider w with
  | true, Some signerAddress =>
      let mismatch :=
        match expectedSigner with
        | Some (c :: e) =>
            negb (str_eqb (toLowerCase signerAddress) (toLowerCase (c :: e)))
        | Some [] | None => false
        end in
      if mismatch then
        inl (address_mismatch
               (match expectedSigner with Some e => e | None => [] end)
               signerAddress)
      else
        match base64ToUint8Array unsignedTxBase64 with
        | inl e => inl e
        | inr txBytes => inl needs_transaction_object
        end
  | _, _ => inl not_connected
  end.

(** [signDelegateTxWithTransaction] (line 89) *)
Definition signDelegateTxWithTransaction (provider : SolanaProvider World Tx)
    (transaction : Tx) (w : World) : (exn + SignedTxResult) * World :=
  match sp_isConnected provider w, sp_publicKey provider w with
  | true, Some signerAddress =>
      match signTransaction provider transaction w with
      | (inl e, w') => (inl e, w')
      | (inr signed, w') =>
          match serialize signed with
          | inl e => (inl e, w')
          | inr signedTxBytes =>
              match uint8ArrayToBase64 signedTxBytes with
              | inl e => (inl e, w')
              | inr signedTxBase64 =>
                  (inr {| signedTx := signedTxBase64;
                          txSignerAddress := signerAddress |}, w')
              end
          end
      end
  | _, _ => (inl not_connected, w)
  end.
End Signing.

End SvmDelegate.

(* ===================================================================== *)
(** * Hex words and test doubles, used to state and to exercise the theorems *)
(* ===================================================================== *)

Module Hex.

(** A hex digit, of either case. *)
Definition is_hex (c : code_unit) : bool :=
  match radix_digit 16 c with
  | Some _ => true
  | None => false
  end.

Definition digit16 (c : code_unit) : Z :=
  match radix_digit 16 c with
  | Some d => d
  | None => 0
  end.

(** The unsigned integer a string of hex digits denotes, big end first. *)
Definition hex_acc (a : Z) (s : jsstring) : Z :=
  fold_left (fun a c => 16 * a + digit16 c) s a.

Definition hex_value (s : jsstring) : Z := hex_acc 0 s.

(** [n] hex digits, all of them hex: an ABI word has 64. *)
Definition hex_string (n : nat) (s : jsstring) : Prop :=
  List.length s = n /\ forallb is_hex s = true.

Definition hex_digit (d : Z) : code_unit :=
  if d <? 10 then Z.to_N (d + 48) else Z.to_N (d + 87).

(** [z] written with [n] lower-case hex digits. *)
Fixpoint to_hex (n : nat) (z : Z) : jsstring :=
  match n with
  | O => []
  | S n' => to_hex n' (z / 16) ++ [hex_digit (z mod 16)]
  end.

(** A 32-byte ABI word. *)
Definition word_hex (z : Z) : jsstring := to_hex 64 z.

(** A byte string in hex, two digits a byte. *)
Definition bytes_hex (bs : list Z) : jsstring :=
  flat_map (to_hex 2) bs.

End Hex.
Import Hex.

Module Mock.
Import Provider.

(** A scripted provider: its state counts the requests it has served. *)
Record Script : Type := {
  on_accounts : exn + list jsstring;
  on_requestAccounts : exn + list jsstring;
  on_chainId : exn + jsstring;
  on_call : jsstring -> jsstring -> exn + jsstring;
  on_sign : jsstring -> jsstring -> exn + jsstring
}.

Definition answer (sc : Script) (r : Request) : exn + response r :=
  match r as r0 return exn + response r0 with
  | eth_accounts => on_accounts sc
  | eth_requestAccounts => on_requestAccounts sc
  | eth_chainId => on_chainId sc
  | eth_call to data => on_call sc to data
  | eth_signTypedData_v4 signer typedData => on_sign sc signer typedData
  end.

Definition provider (sc : Script) : EIP1193Provider nat :=
  {| request := fun r w => (answer sc r, S w) |}.

Definition start : St nat := mkSt 0%nat [].

Definition rejected : exn :=
  ProviderRpcError 3 (lit "execution reverted").

Definition VERSION_SELECTOR : jsstring := lit "0x54fd4d50".

(** A stand-in for [JSON.stringify]: it shows the two fields of interest. *)
Definition stringify (td : json) : jsstring :=
  match jpath td ["domain"; "version"]%string,
        jpath td ["message"; "deadline"]%string with
  | Some (JString ver), Some (JNumber (Fin z)) =>
      lit "version=" ++ ver ++ lit ";deadline=" ++ BigInt_toString z
  | _, _ => lit "{}"
  end.

Definition token : jsstring :=
  lit "0xa0b86991c6218b36c1d19d4a2e9eb0ce3606eb48".
Definition owner : jsstring :=
  lit "0xaaaaaaaaaaaaaaaaaaaaaaaaaaaaaaaaaaaaaaaa".
Definition spender : jsstring :=
  lit "0xbbbbbbbbbbbbbbbbbbbbbbbbbbbbbbbbbbbbbbbb".

(** ["USD Coin"] as [name()] returns it: offset 0x20, length 8, data. *)
Definition usd_coin_abi : jsstring :=
  lit "0x" ++ word_hex 32 ++ word_hex 8
  ++ lit "55534420436f696e000000000000000000000000000000000000000000000000".

(** The same return data cut after four of the eight declared bytes. *)
Definition usd_coin_cut : jsstring :=
  lit "0x" ++ word_hex 32 ++ word_hex 8 ++ lit "55534420".

(** An [eip712Domain()] return: fields 0x0f, name ["USD Coin"], version
    ["2"], chain id 1, the token, no salt, no extensions. *)
Definition domain_abi : jsstring :=
  lit "0x"
  ++ lit "0f00000000000000000000000000000000000000000000000000000000000000"
  ++ word_hex 224 ++ word_hex 288 ++ word_hex 1
  ++ lit "000000000000000000000000a0b86991c6218b36c1d19d4a2e9eb0ce3606eb48"
  ++ word_hex 0 ++ word_hex 352
  ++ word_hex 8
  ++ lit "55534420436f696e000000000000000000000000000000000000000000000000"
  ++ word_hex 1
  ++ lit "3200000000000000000000000000000000000000000000000000000000000000"
  ++ word_hex 0.

(** The same, cut inside the name: four of its eight declared bytes. *)
Definition domain_cut : jsstring :=
  lit "0x"
  ++ lit "0f00000000000000000000000000000000000000000000000000000000000000"
  ++ word_hex 224 ++ word_hex 288 ++ word_hex 1
  ++ lit "000000000000000000000000a0b86991c6218b36c1d19d4a2e9eb0ce3606eb48"
  ++ word_hex 0 ++ word_hex 352
  ++ word_hex 8
  ++ lit "55534420".

(** A 65-byte signature with the given last byte. *)
Definition signature_with (last : Z) : jsstring :=
  lit "0x" ++ to_hex 64 17 ++ to_hex 64 34 ++ to_hex 2 last.

(** ASCII lower-casing, standing in for [toLowerCase]. *)
Definition lower (s : jsstring) : jsstring :=
  List.map (fun c => if (65 <=? c)%N && (c <=? 90)%N then (c + 32)%N else c) s.

(** A token contract behind the provider: what [eip712Domain()], [name()],
    [version()] and [allowance()] answer, and what the wallet signs. *)
Definition script (eip712 name version allowance : exn + jsstring)
    (signed : exn + jsstring) : Script :=
  {| on_accounts := inr [owner];
     on_requestAccounts := inr [owner];
     on_chainId := inr (lit "0x1");
     on_call := fun _ data =>
       if str_eqb data EvmPermitConstants.EIP712_DOMAIN_SELECTOR then eip712
       else if str_eqb data EvmPermitConstants.NAME_SELECTOR then name
       else if str_eqb data VERSION_SELECTOR then version
       else allowance;
     on_sign := fun _ _ => signed |}.

(** A token without [eip712Domain()] and without [version()]. *)
Definition plain_token : Script :=
  script (inl rejected) (inr usd_coin_abi) (inl rejected)
    (inr (lit "0x" ++ word_hex 5000000)) (inr (signature_with 1)).

(** A token with [eip712Domain()]. *)
Definition eip5267_token : Script :=
  script (inr domain_abi) (inr usd_coin_abi) (inl rejected)
    (inr (lit "0x" ++ word_hex 999)) (inr (signature_with 0)).

(** A token whose [name()] return data is cut short. *)
Definition cut_token : Script :=
  script (inl rejected) (inr usd_coin_cut) (inl rejected)
    (inr (lit "0x" ++ word_hex 0)) (inr (signature_with 1)).

(** A window with Phantom alone, not connected yet; its state counts the
    handshakes. *)
Definition wallet_address : jsstring :=
  lit "7xKXtg2CW87d97TXJSDpbD5jBkheTqA83TZRuJosgAsU".

Definition phantom_only : SvmDelegate.Window nat :=
  {| SvmDelegate.installed := fun _ p => SvmDelegate.wallet_eqb p SvmDelegate.phantom;
     SvmDelegate.isConnected := fun w _ => inr (0 <? w)%nat;
     SvmDelegate.publicKey := fun w _ =>
       inr (if (0 <? w)%nat then Some wallet_address else None);
     SvmDelegate.connect := fun _ w => (inr (Some wallet_address), S w) |}.

(** The parameters of the doc comments' examples. *)
Definition permit_params (sc : Script) (tokenName : jsstring)
  : EvmPermitSign.SignERC20PermitParams :=
  {| EvmPermitSign.p_provider := provider sc;
     EvmPermitSign.p_chainId := Fin 43113;
     EvmPermitSign.p_tokenAddress := token;
     EvmPermitSign.p_tokenName := tokenName;
     EvmPermitSign.p_spenderAddress := spender;
     EvmPermitSign.p_value := lit "1000000";
     EvmPermitSign.p_nonce := Fin 0;
     EvmPermitSign.p_deadlineMinutes := None;
     EvmPermitSign.p_signerAddress := None |}.

Definition permit2_params (sc : Script) : Permit2.SignPermit2Params :=
  {| Permit2.p_provider := provider sc;
     Permit2.p_chainId := Fin 43113;
     Permit2.p_permit2Address := Permit2.PERMIT2_ADDRESS;
     Permit2.p_tokenAddress := token;
     Permit2.p_spenderAddress := spender;
     Permit2.p_allowanceAmount :=
       lit "0xffffffffffffffffffffffffffffffffffffffff";
     Permit2.p_expirationDays := None;
     Permit2.p_sigDeadlineMinutes := Some (Fin 10);
     Permit2.p_nonce := Fin 0;
     Permit2.p_signerAddress := Some owner |}.

Definition declined : exn :=
  ProviderRpcError 4001 (lit "User rejected the request.").

(** A wallet that lists no account, also when asked to connect. *)
Definition no_accounts : Script :=
  {| on_accounts := inr [];
     on_requestAccounts := inr [];
     on_chainId := inr (lit "0x1");
     on_call := fun _ _ => inl rejected;
     on_sign := fun _ _ => inl declined |}.

(** A wallet that lists its account once asked to connect, in front of the
    token without [eip712Domain()]; its user declines to sign. *)
Definition asks_first : Script :=
  {| on_accounts := inr [];
     on_requestAccounts := inr [owner];
     on_chainId := inr (lit "0x1");
     on_call := on_call plain_token;
     on_sign := fun _ _ => inl declined |}.

(** Permit2 with an allowance of 1000000 until 1700000000, nonce 3. *)
Definition permit2_contract : Script :=
  script (inl rejected) (inl rejected) (inl rejected)
    (inr (lit "0x" ++ word_hex 1000000 ++ word_hex 1700000000 ++ word_hex 3))
    (inl declined).

(** An address with no contract: every call returns empty data. *)
Definition no_contract : Script :=
  script (inr (lit "0x")) (inr (lit "0x")) (inr (lit "0x")) (inr (lit "0x"))
    (inl declined).

(** Phantom alone as in [phantom_only], the [connect()] of the wallets that
    are not there answering differently. *)
Definition phantom_only_others : SvmDelegate.Window nat :=
  {| SvmDelegate.installed := SvmDelegate.installed phantom_only;
     SvmDelegate.isConnected := SvmDelegate.isConnected phantom_only;
     SvmDelegate.publicKey := SvmDelegate.publicKey phantom_only;
     SvmDelegate.connect := fun p w =>
       match p with
       | SvmDelegate.phantom | SvmDelegate.solflare =>
           (inr (Some wallet_address), S w)
       | _ => (inl declined, (w + 100)%nat)
       end |}.

(** A window whose only wallet is Backpack, not connected. *)
Definition backpack_only : SvmDelegate.Window nat :=
  {| SvmDelegate.installed := fun _ p =>
       SvmDelegate.wallet_eqb p SvmDelegate.backpack;
     SvmDelegate.isConnected := fun _ _ => inr false;
     SvmDelegate.publicKey := fun _ _ => inr None;
     SvmDelegate.connect := fun _ w => (inr (Some wallet_address), S w) |}.

(** A connected wallet over transactions given as their bytes: signing puts
    one byte in front, and the wallet switches to another account. *)
Definition solana_wallet : SvmDelegate.SolanaProvider nat (list Byte.byte) :=
  {| SvmDelegate.sp_isConnected := fun _ => true;
     SvmDelegate.sp_publicKey := fun w =>
       Some (if (0 <? w)%nat then lit "another account" else wallet_address);
     SvmDelegate.signTransaction := fun tx w => (inr (Byte.x01 :: tx), S w) |}.

Definition serialize (tx : list Byte.byte) : exn + list Byte.byte := inr tx.

End Mock.

(* ===================================================================== *)
(** * Vocabulary of the statements *)
(* ===================================================================== *)

Module Vocabulary.
Import EvmPermitConstants EvmPermitAllowance EvmPermitSign SvmDelegate.

(** A number that is at least [b]. *)
Definition at_least (b : Z) (n : number) : Prop :=
  match n with
  | PosInf => True
  | Fin y => b <= y
  | _ => False
  end.

Definition or_default (d : Z) (o : option Z) : Z :=
  match o with Some z => z | None => d end.

(** The recovery byte in legacy form. *)
Definition legacy_v (b : Z) : Z := if b <? 27 then b + 27 else b.

(** What [getTokenName] and [getTokenVersion] make of a return value. *)
Definition abi_string (result : jsstring) : jsstring :=
  let hex := slice_from result (Fin 2) in
  let length := parseInt (slice hex (Fin 64) (Fin 128)) 16 in
  hexToString (slice hex (Fin 128) (nadd (Fin 128) (nmul length (Fin 2)))).

(** The signer [signERC20Permit] settles on. *)
Definition signer_of (expected : option jsstring) (account0 : jsstring)
  : jsstring :=
  match expected with
  | Some (c :: a) => c :: a
  | Some [] | None => account0
  end.

(** One step of reading decimal digits. *)
Definition dec_step (acc : option Z) (c : code_unit) : option Z :=
  match acc, radix_digit 10 c with
  | Some a, Some d => Some (10 * a + d)
  | _, _ => None
  end.

Definition is_dec (c : code_unit) : bool := (48 <=? c)%N && (c <=? 57)%N.

(** The sextets of a binary string, and the padding that follows them. *)
Fixpoint sextets_of (s : list N) : list N :=
  (match s with
   | [] => []
   | [a] => [a / 4; a mod 4 * 16]
   | [a; b] => [a / 4; a mod 4 * 16 + b / 16; b mod 16 * 4]
   | a :: b :: c :: rest =>
       a / 4 :: (a mod 4 * 16 + b / 16) :: (b mod 16 * 4 + c / 64) :: c mod 64
       :: sextets_of rest
   end)%N.

Fixpoint padding_of (s : list N) : jsstring :=
  match s with
  | [] => []
  | [_] => [61; 61]%N
  | [_; _] => [61]%N
  | _ :: _ :: _ :: rest => padding_of rest
  end.

Definition is_byte (n : N) : Prop := (n < 256)%N.

(** Induction on a list, three elements at a time. *)
Section ThreeAtATime.
Context {A : Type} (P : list A -> Prop).
Hypothesis P0 : P [].
Hypothesis P1 : forall a, P [a].
Hypothesis P2 : forall a b, P [a; b].
Hypothesis P3 : forall a b c rest, P rest -> P (a :: b :: c :: rest).

Fixpoint list_ind3 (l : list A) : P l :=
  match l with
  | [] => P0
  | [a] => P1 a
  | [a; b] => P2 a b
  | a :: b :: c :: rest => P3 a b c rest (list_ind3 rest)
  end.
End ThreeAtATime.

(** Induction on a list, two elements at a time. *)
Section TwoAtATime.
Context {A : Type} (P : list A -> Prop).
Hypothesis P0 : P [].
Hypothesis P1 : forall a, P [a].
Hypothesis P2 : forall a b rest, P rest -> P (a :: b :: rest).

Fixpoint list_ind2 (l : list A) : P l :=
  match l with
  | [] => P0
  | [a] => P1 a
  | a :: b :: rest => P2 a b rest (list_ind2 rest)
  end.
End TwoAtATime.

Section WithProvider.
Context {World : Type}.
Variable provider : EIP1193Provider World.
Variable VERSION_SELECTOR : jsstring.
Variable toLowerCase : jsstring -> jsstring.

(** The field-by-field path of [getEip712Domain]: the body of its [catch]. *)
Definition fallback (token : jsstring) : M World Eip712DomainInfo :=
  name <- getTokenName provider token ;;
  version <- getTokenVersion VERSION_SELECTOR provider token ;;
  chainIdHex <- provider_request provider eth_chainId ;;
  ret {| name := name;
         version := version;
         chainId := parseInt chainIdHex 16;
         verifyingContract := token |}.

(** The call data of [getERC20Allowance]. *)
Definition allowance_call (owner spender : jsstring) : jsstring :=
  ALLOWANCE_SELECTOR
  ++ padStart (toLowerCase (slice_from owner (Fin 2))) 64 48%N
  ++ padStart (toLowerCase (slice_from spender (Fin 2))) 64 48%N.
End WithProvider.

Section WithWindow.
Context {World : Type}.
Variable win : Window World.

(** The three ways [connectSolanaWallet] returns a provider, each with the
    address the provider reported and the code compared. *)
Inductive returned_by (expected : jsstring) (w : World)
  : SupportedWallet -> World -> Prop :=
| already_connected p :
    findConnectedProvider win w expected = Some p ->
    installed win w p = true ->
    isConnected win w p = inr true ->
    publicKey win w p = inr (Some expected) ->
    returned_by expected w p w
| phantom_connect w' :
    findConnectedProvider win w expected = None ->
    installed win w phantom = true ->
    connect win phantom w = (inr (Some expected), w') ->
    returned_by expected w phantom w'
| solflare_connect w1 response w' :
    findConnectedProvider win w expected = None ->
    installed win w1 solflare = true ->
    connect win solflare w1 = (inr response, w') ->
    publicKey win w' solflare = inr (Some expected) ->
    returned_by expected w solflare w'.

(** A wallet [findConnectedProvider] accepts: its global is there, it is
    connected and its public key reads as the expected address. *)
Definition qualifies (w : World) (expected : jsstring) (p : SupportedWallet)
  : Prop :=
  installed win w p = true
  /\ isConnected win w p = inr true
  /\ publicKey win w p = inr (Some expected).
End WithWindow.

(** The order in which the wallet globals are looked at. *)
Definition wallet_order : list SupportedWallet :=
  [phantom; solflare; okxwallet; coinbaseSolana; backpack].

(** ** ABI encodings, as a contract returns them *)

(** Hex digits filled with zeros up to a whole number of 32-byte words. *)
Definition pad_words (h : jsstring) : jsstring :=
  h ++ repeat 48%N ((64 - List.length h mod 64) mod 64).

(** The [[length][data]] block of a dynamic [string] or [bytes]. *)
Definition abi_block (bs : list Z) : jsstring :=
  word_hex (Z.of_nat (List.length bs)) ++ pad_words (bytes_hex bs).

(** The return data of a function returning one [string]. *)
Definition abi_string_return (bs : list Z) : jsstring :=
  lit "0x" ++ word_hex 32 ++ abi_block bs.

(** The return data of [eip712Domain()]: [(bytes1 fields, string name,
    string version, uint256 chainId, address verifyingContract, bytes32
    salt, uint256[] extensions)] with no extensions. *)
Definition eip712Domain_return (fields : Z) (name version : list Z)
    (chainId verifyingContract salt : Z) : jsstring :=
  let name_block := abi_block name in
  let version_block := abi_block version in
  let name_offset := 224 in
  let version_offset := name_offset + Z.of_nat (List.length name_block) / 2 in
  let extensions_offset :=
    version_offset + Z.of_nat (List.length version_block) / 2 in
  lit "0x"
  ++ (to_hex 2 fields ++ repeat 48%N 62)
  ++ word_hex name_offset ++ word_hex version_offset
  ++ word_hex chainId ++ word_hex verifyingContract ++ word_hex salt
  ++ word_hex extensions_offset
  ++ name_block ++ version_block ++ word_hex 0.

(** The call data of [getERC20Nonce]. *)
Definition nonces_call (toLowerCase : jsstring -> jsstring)
    (owner : jsstring) : jsstring :=
  NONCES_SELECTOR ++ padStart (toLowerCase (slice_from owner (Fin 2))) 64 48%N.

End Vocabulary.
Import Vocabulary.

(* ===================================================================== *)
(** * Facts about the JavaScript built-ins *)
(* ===================================================================== *)

(** Settle the comparisons of code units whose outcome [lia] can tell. *)
Ltac settle_tests :=
  repeat match goal with
         | |- context [N.eqb ?a ?b] =>
             first
               [ replace (N.eqb a b) with false
                   by (symmetry; apply N.eqb_neq; lia)
               | replace (N.eqb a b) with true
                   by (symmetry; apply N.eqb_eq; lia) ]
         | |- context [N.leb ?a ?b] =>
             first
               [ replace (N.leb a b) with true
                   by (symmetry; apply N.leb_le; lia)
               | replace (N.leb a b) with false
                   by (symmetry; apply N.leb_gt; lia) ]
         end.

(** Goals on [N] with divisions by constants. *)
Ltac div_lia := zify; Z.to_euclidean_division_equations; lia.

Module JSFacts.

(** ** Rounding to a Number *)

Lemma pow2_53_lt_1024 : 2 ^ 53 < 2 ^ 1024.
Proof. apply Z.pow_lt_mono_r; lia. Qed.

Lemma round_mantissa_exact a : 0 <= a < 2 ^ 53 -> round_mantissa a = a.
Proof.
  intros [H0 H1]. unfold round_mantissa.
  assert (Z.log2 a < 53).
  { destruct (Z.eq_dec a 0) as [->|Hn]; [reflexivity|].
    apply Z.log2_lt_pow2; lia. }
  destruct (Z.leb_spec (Z.log2 a - 52) 0); [reflexivity|lia].
Qed.

Lemma round_double_exact z : Z.abs z < 2 ^ 53 -> round_double z = Fin z.
Proof.
  intros H. unfold round_double.
  rewrite round_mantissa_exact by lia.
  pose proof pow2_53_lt_1024.
  destruct (Z.leb_spec (2 ^ 1024) (Z.abs z)); [lia|].
  f_equal. rewrite Z.mul_comm. apply Z.abs_sgn.
Qed.

Lemma round_mantissa_big a : 2 ^ 53 <= a -> 2 ^ 53 <= round_mantissa a.
Proof.
  intros H. unfold round_mantissa.
  assert (Ha : 0 < a) by lia.
  assert (Hl : 53 <= Z.log2 a) by (apply Z.log2_le_pow2; lia).
  destruct (Z.leb_spec (Z.log2 a - 52) 0); [lia|].
  set (e := Z.log2 a - 52) in *.
  assert (He : 0 < 2 ^ e) by (apply Z.pow_pos_nonneg; lia).
  assert (Hq : 2 ^ 52 <= a / 2 ^ e).
  { apply Z.div_le_lower_bound; [lia|].
    rewrite Z.mul_comm, <- Z.pow_add_r by lia.
    replace (52 + e) with (Z.log2 a) by (unfold e; lia).
    apply Z.log2_spec; lia. }
  assert (He1 : 2 <= 2 ^ e).
  { change 2 with (2 ^ 1) at 1. apply Z.pow_le_mono_r; lia. }
  assert (Hq' : 2 ^ 52 <=
    (if (2 ^ (e - 1) <? a mod 2 ^ e) || ((a mod 2 ^ e =? 2 ^ (e - 1)) && Z.odd (a / 2 ^ e))
     then a / 2 ^ e + 1 else a / 2 ^ e)).
  { destruct (_ || _); lia. }
  change (2 ^ 53) with (2 ^ 52 * 2).
  apply Z.mul_le_mono_nonneg; lia.
Qed.

Lemma round_double_big z : 2 ^ 53 <= z -> at_least (2 ^ 53) (round_double z).
Proof.
  intros H. unfold round_double.
  rewrite Z.abs_eq by lia.
  pose proof (round_mantissa_big z H).
  destruct (Z.leb_spec (2 ^ 1024) (round_mantissa z)).
  - destruct (Z.ltb_spec z 0); [lia|exact I].
  - simpl. rewrite Z.sgn_pos by lia. lia.
Qed.

Lemma rel_index_nat len (a : nat) :
  rel_index len (Fin (Z.of_nat a)) = Nat.min a len.
Proof.
  unfold rel_index. destruct (Z.ltb_spec (Z.of_nat a) 0); lia.
Qed.

Lemma rel_index_at_least len n :
  Z.of_nat len < 2 ^ 53 -> at_least (2 ^ 53) n -> rel_index len n = len.
Proof.
  intros Hl Hn. destruct n; simpl in *; try contradiction; [reflexivity|].
  destruct (Z.ltb_spec z 0); lia.
Qed.

Lemma slice_nat s (a b : nat) :
  slice s (Fin (Z.of_nat a)) (Fin (Z.of_nat b)) = firstn (b - a) (skipn a s).
Proof.
  unfold slice. rewrite !rel_index_nat.
  destruct (Nat.le_gt_cases a (List.length s)) as [Ha|Ha].
  - rewrite (Nat.min_l a) by lia.
    destruct (Nat.le_gt_cases b (List.length s)) as [Hb|Hb].
    + rewrite Nat.min_l by lia. reflexivity.
    + rewrite Nat.min_r by lia.
      rewrite !firstn_all2; try reflexivity; rewrite length_skipn; lia.
  - rewrite (Nat.min_r a) by lia.
    rewrite !skipn_all2 by lia. now rewrite !firstn_nil.
Qed.

Lemma slice_from_nat s (a : nat) :
  slice_from s (Fin (Z.of_nat a)) = skipn a s.
Proof.
  unfold slice_from. rewrite rel_index_nat.
  destruct (Nat.le_gt_cases a (List.length s)).
  - now rewrite Nat.min_l.
  - rewrite Nat.min_r by lia. now rewrite !skipn_all2 by lia.
Qed.

(** Cutting at an end that is too large to matter. *)
Lemma slice_to_end s (a : nat) n :
  Z.of_nat (List.length s) < 2 ^ 53 -> at_least (2 ^ 53) n ->
  slice s (Fin (Z.of_nat a)) n = skipn a s.
Proof.
  intros Hl Hn. unfold slice.
  rewrite rel_index_at_least, rel_index_nat by assumption.
  destruct (Nat.le_gt_cases a (List.length s)).
  - rewrite Nat.min_l by lia. apply firstn_all2. rewrite length_skipn. lia.
  - rewrite Nat.min_r by lia. rewrite !skipn_all2 by lia. apply firstn_nil.
Qed.

Lemma skipn_app_exact {A} (a b : list A) n :
  List.length a = n -> skipn n (a ++ b) = b.
Proof.
  intros <-. rewrite skipn_app, Nat.sub_diag, skipn_all. reflexivity.
Qed.

Lemma firstn_app_exact {A} (a b : list A) n :
  List.length a = n -> firstn n (a ++ b) = a.
Proof.
  intros <-. rewrite firstn_app, Nat.sub_diag, firstn_all, firstn_O, app_nil_r.
  reflexivity.
Qed.

Lemma is_hex_range c :
  is_hex c = true ->
  ((48 <= c <= 57) \/ (97 <= c <= 102) \/ (65 <= c <= 70))%N.
Proof.
  unfold is_hex, radix_digit, digit_value.
  destruct (N.leb_spec 48 c), (N.leb_spec c 57); simpl; [lia| | |].
  all: destruct (N.leb_spec 97 c), (N.leb_spec c 122); simpl.
  all: try (destruct (Z.ltb_spec (Z.of_N c - 87) 16); [lia|discriminate]).
  all: destruct (N.leb_spec 65 c), (N.leb_spec c 90); simpl.
  all: try (destruct (Z.ltb_spec (Z.of_N c - 55) 16); [lia|discriminate]).
  all: discriminate.
Qed.

Lemma digit16_bound c : 0 <= digit16 c < 16.
Proof.
  unfold digit16, radix_digit, digit_value.
  destruct (N.leb_spec 48 c), (N.leb_spec c 57); simpl.
  1: destruct (Z.ltb_spec (Z.of_N c - 48) 16); lia.
  all: destruct (N.leb_spec 97 c), (N.leb_spec c 122); simpl.
  all: try (destruct (Z.ltb_spec (Z.of_N c - 87) 16); lia).
  all: destruct (N.leb_spec 65 c), (N.leb_spec c 90); simpl.
  all: try (destruct (Z.ltb_spec (Z.of_N c - 55) 16); lia).
  all: lia.
Qed.

Lemma is_hex_digit c : is_hex c = true -> radix_digit 16 c = Some (digit16 c).
Proof.
  unfold is_hex, digit16. destruct (radix_digit 16 c); [reflexivity|discriminate].
Qed.

Lemma not_whitespace_range c : (33 <= c <= 159)%N -> is_whitespace c = false.
Proof.
  intros H. unfold is_whitespace. cbn [existsb]. settle_tests. reflexivity.
Qed.

Lemma hex_not_whitespace c : is_hex c = true -> is_whitespace c = false.
Proof.
  intros H. apply not_whitespace_range.
  destruct (is_hex_range c H) as [?|[?|?]]; lia.
Qed.

Lemma drop_while_none p s :
  forallb (fun c => negb (p c)) s = true -> drop_while p s = s.
Proof.
  destruct s as [|c s]; [reflexivity|]. simpl.
  destruct (p c); [discriminate|reflexivity].
Qed.

Lemma trim_none s :
  forallb (fun c => negb (is_whitespace c)) s = true -> trim s = s.
Proof.
  intros H. unfold trim.
  rewrite (drop_while_none _ s H).
  rewrite drop_while_none, rev_involutive; [reflexivity|].
  rewrite forallb_forall in *. intros c Hc. apply H. now apply in_rev.
Qed.

Lemma forallb_hex_not_ws s :
  forallb is_hex s = true ->
  forallb (fun c => negb (is_whitespace c)) s = true.
Proof.
  rewrite !forallb_forall. intros H c Hc.
  now rewrite hex_not_whitespace by auto.
Qed.

(** Digits read left to right. *)
Lemma fold_digits_hex s a :
  forallb is_hex s = true ->
  fold_left
    (fun acc c =>
       match acc, radix_digit 16 c with
       | Some a, Some d => Some (16 * a + d)
       | _, _ => None
       end) s (Some a)
  = Some (hex_acc a s).
Proof.
  revert a. induction s as [|c s IH]; intros a H; [reflexivity|].
  simpl in H. apply andb_prop in H as [Hc Hs].
  simpl. rewrite (is_hex_digit c Hc). now rewrite IH.
Qed.

Lemma parse_all_hex s :
  forallb is_hex s = true -> s <> [] -> parse_all 16 s = Some (hex_value s).
Proof.
  intros H Hn. unfold parse_all, hex_value.
  destruct s; [contradiction|]. now apply fold_digits_hex.
Qed.

Lemma parse_prefix_hex s a :
  forallb is_hex s = true ->
  parse_prefix 16 s (Some a) = Some (hex_acc a s).
Proof.
  revert a. induction s as [|c s IH]; intros a H; [reflexivity|].
  simpl in H. apply andb_prop in H as [Hc Hs].
  simpl. rewrite (is_hex_digit c Hc). now rewrite IH.
Qed.

Lemma parse_prefix_hex_start s :
  forallb is_hex s = true -> s <> [] ->
  parse_prefix 16 s None = Some (hex_value s).
Proof.
  intros H Hn. destruct s as [|c s]; [contradiction|].
  simpl in H. apply andb_prop in H as [Hc Hs].
  simpl. rewrite (is_hex_digit c Hc). rewrite parse_prefix_hex by assumption.
  reflexivity.
Qed.

(** [BigInt('0x' + h)] on hex digits. *)
Lemma BigInt_0x_hex h :
  forallb is_hex h = true -> h <> [] ->
  BigInt (lit "0x" ++ h) = Some (hex_value h).
Proof.
  intros H Hn. unfold BigInt.
  rewrite trim_none.
  - destruct h as [|c h]; [contradiction|]. cbn -[parse_all].
    now apply parse_all_hex.
  - change (lit "0x" ++ h) with (48%N :: 120%N :: h). cbn [forallb].
    rewrite forallb_hex_not_ws by assumption. reflexivity.
Qed.

Lemma BigInt_0x_empty : BigInt (lit "0x") = None.
Proof. reflexivity. Qed.

(** [parseInt(h, 16)] on hex digits. *)
Lemma parseInt_hex h :
  forallb is_hex h = true -> h <> [] ->
  parseInt h 16 = round_double (hex_value h).
Proof.
  intros H Hn. unfold parseInt.
  rewrite drop_while_none by now apply forallb_hex_not_ws.
  destruct h as [|c h]; [contradiction|].
  pose proof H as H'. simpl in H'. apply andb_prop in H' as [Hc Hh].
  pose proof (is_hex_range c Hc) as Rc.
  settle_tests. cbn [Z.eqb Pos.eqb].
  assert (Hp : parse_prefix 16 (c :: h) None = Some (hex_value (c :: h)))
    by (apply parse_prefix_hex_start; [assumption|discriminate]).
  destruct h as [|x r]; [now rewrite Hp|].
  simpl in Hh. apply andb_prop in Hh as [Hx _].
  pose proof (is_hex_range x Hx).
  settle_tests. rewrite andb_false_r. now rewrite Hp.
Qed.

Lemma parseInt_empty : parseInt [] 16 = NaN.
Proof. reflexivity. Qed.

End JSFacts.
Import JSFacts.

(* ===================================================================== *)
(** * Hex words *)
(* ===================================================================== *)

Module HexFacts.

Lemma hex_acc_app a s t : hex_acc a (s ++ t) = hex_acc (hex_acc a s) t.
Proof. apply fold_left_app. Qed.

Lemma hex_acc_bound s a :
  0 <= a -> 0 <= hex_acc a s < (a + 1) * 16 ^ Z.of_nat (List.length s).
Proof.
  revert a. induction s as [|c s IH]; intros a Ha.
  - simpl. lia.
  - pose proof (digit16_bound c).
    cbn [hex_acc fold_left List.length].
    specialize (IH (16 * a + digit16 c) ltac:(lia)).
    unfold hex_acc in IH.
    rewrite Nat2Z.inj_succ, Z.pow_succ_r by lia.
    assert (0 < 16 ^ Z.of_nat (List.length s)) by (apply Z.pow_pos_nonneg; lia).
    nia.
Qed.

Lemma hex_value_bound n s :
  hex_string n s -> 0 <= hex_value s < 16 ^ Z.of_nat n.
Proof.
  intros [<- _]. pose proof (hex_acc_bound s 0 ltac:(lia)). unfold hex_value. lia.
Qed.

Lemma hex_digit_is_hex d : 0 <= d < 16 -> is_hex (hex_digit d) = true.
Proof.
  intros H.
  assert (In d [0;1;2;3;4;5;6;7;8;9;10;11;12;13;14;15]) as Hin
    by (simpl; lia).
  simpl in Hin.
  repeat (destruct Hin as [<-|Hin]; [reflexivity|]). contradiction.
Qed.

Lemma hex_digit_value d : 0 <= d < 16 -> digit16 (hex_digit d) = d.
Proof.
  intros H.
  assert (In d [0;1;2;3;4;5;6;7;8;9;10;11;12;13;14;15]) as Hin
    by (simpl; lia).
  simpl in Hin.
  repeat (destruct Hin as [<-|Hin]; [reflexivity|]). contradiction.
Qed.

Lemma to_hex_length n z : List.length (to_hex n z) = n.
Proof.
  revert z. induction n as [|n IH]; intros z; [reflexivity|].
  simpl. rewrite length_app, IH. simpl. lia.
Qed.

Lemma to_hex_is_hex n z : forallb is_hex (to_hex n z) = true.
Proof.
  revert z. induction n as [|n IH]; intros z; [reflexivity|].
  simpl. rewrite forallb_app, IH. simpl.
  rewrite hex_digit_is_hex by (apply Z.mod_pos_bound; lia). reflexivity.
Qed.

Lemma to_hex_string n z : hex_string n (to_hex n z).
Proof. split; [apply to_hex_length|apply to_hex_is_hex]. Qed.

Lemma to_hex_value n z : hex_value (to_hex n z) = z mod 16 ^ Z.of_nat n.
Proof.
  unfold hex_value. revert z. induction n as [|n IH]; intros z.
  - simpl. now rewrite Z.mod_1_r.
  - cbn [to_hex]. rewrite hex_acc_app, IH. cbn [hex_acc fold_left].
    rewrite hex_digit_value by (apply Z.mod_pos_bound; lia).
    rewrite Nat2Z.inj_succ, Z.pow_succ_r by lia.
    rewrite Z.rem_mul_r by (try apply Z.pow_nonzero; try apply Z.pow_pos_nonneg; lia).
    lia.
Qed.

Lemma word_hex_value z : 0 <= z < 2 ^ 256 -> hex_value (word_hex z) = z.
Proof.
  intros H. unfold word_hex. rewrite to_hex_value.
  change (16 ^ Z.of_nat 64) with (2 ^ 256). now apply Z.mod_small.
Qed.

Lemma hex_string_nonempty n s : hex_string (S n) s -> s <> [].
Proof. intros [H _] ->. discriminate. Qed.

(** ** The end index [k + length * 2] of a dynamic field *)

Lemma nmul2_at_least n : at_least (2 ^ 53) n -> at_least (2 ^ 53) (nmul n (Fin 2)).
Proof.
  destruct n; simpl; try contradiction; [exact id|].
  intros H. apply round_double_big. lia.
Qed.

Lemma nadd_at_least (k : Z) n :
  0 <= k -> at_least (2 ^ 53) n -> at_least (2 ^ 53) (nadd (Fin k) n).
Proof.
  destruct n; simpl; try contradiction; [intros; exact I|].
  intros Hk H. apply round_double_big. lia.
Qed.

Lemma declared_end (k : nat) (L : Z) :
  0 <= L ->
  let stop := nadd (Fin (Z.of_nat k)) (nmul (round_double L) (Fin 2)) in
  (Z.of_nat k + 2 * L < 2 ^ 53 /\ stop = Fin (Z.of_nat (k + Z.to_nat (2 * L))))
  \/ (2 ^ 53 <= Z.of_nat k + 2 * L /\ at_least (2 ^ 53) stop).
Proof.
  intros HL stop. subst stop.
  destruct (Z.lt_ge_cases (Z.of_nat k + 2 * L) (2 ^ 53)) as [Hs|Hs].
  - left. split; [assumption|].
    rewrite (round_double_exact L) by lia. cbn [nmul].
    rewrite (round_double_exact (L * 2)) by lia. cbn [nadd].
    rewrite round_double_exact by lia. f_equal. lia.
  - right. split; [assumption|].
    destruct (Z.lt_ge_cases (2 * L) (2 ^ 53)) as [Hl|Hl].
    + rewrite (round_double_exact L) by lia. cbn [nmul].
      rewrite (round_double_exact (L * 2)) by lia. cbn [nadd].
      apply round_double_big. lia.
    + apply nadd_at_least; [lia|].
      destruct (Z.lt_ge_cases L (2 ^ 53)) as [Hl'|Hl'].
      * rewrite (round_double_exact L) by lia. cbn [nmul].
        apply round_double_big. lia.
      * apply nmul2_at_least. now apply round_double_big.
Qed.

(** [hex.slice(k, k + length * 2)]: the declared bytes, or what is there. *)
Lemma slice_declared s (k : nat) (L : Z) :
  Z.of_nat (List.length s) < 2 ^ 53 -> 0 <= L ->
  slice s (Fin (Z.of_nat k))
    (nadd (Fin (Z.of_nat k)) (nmul (round_double L) (Fin 2)))
  = firstn (Z.to_nat (2 * L)) (skipn k s).
Proof.
  intros Hs HL.
  destruct (declared_end k L HL) as [[Hlt ->]|[Hge Hbig]].
  - rewrite slice_nat. f_equal. lia.
  - rewrite slice_to_end by assumption.
    symmetry. apply firstn_all2. rewrite length_skipn. lia.
Qed.

End HexFacts.
Import HexFacts.

(* ===================================================================== *)
(** * The decoders *)
(* ===================================================================== *)

Module DecoderFacts.
Import EvmPermitConstants EvmPermitAllowance EvmPermitSign.

(** ** Prefixes and words *)

Lemma strip_0x h : slice_from (lit "0x" ++ h) (Fin 2) = h.
Proof. change (Fin 2) with (Fin (Z.of_nat 2)). now rewrite slice_from_nat. Qed.

Lemma replace_0x h : replace (lit "0x" ++ h) (lit "0x") [] = h.
Proof. reflexivity. Qed.

(** The [i]-th of consecutive 64-digit words. *)
Lemma slice_word0 (w rest : jsstring) :
  List.length w = 64%nat -> slice (w ++ rest) (Fin 0) (Fin 64) = w.
Proof.
  intros H. change (Fin 0) with (Fin (Z.of_nat 0)).
  change (Fin 64) with (Fin (Z.of_nat 64)). rewrite slice_nat.
  change (64 - 0)%nat with 64%nat. change (skipn 0 (w ++ rest)) with (w ++ rest).
  now apply firstn_app_exact.
Qed.

Lemma slice_word1 (w0 w rest : jsstring) :
  List.length w0 = 64%nat -> List.length w = 64%nat ->
  slice (w0 ++ w ++ rest) (Fin 64) (Fin 128) = w.
Proof.
  intros H0 H. change (Fin 64) with (Fin (Z.of_nat 64)).
  change (Fin 128) with (Fin (Z.of_nat 128)). rewrite slice_nat.
  change (128 - 64)%nat with 64%nat. rewrite skipn_app_exact by assumption.
  now apply firstn_app_exact.
Qed.

Lemma slice_word2 (w0 w1 w rest : jsstring) :
  List.length w0 = 64%nat -> List.length w1 = 64%nat -> List.length w = 64%nat ->
  slice (w0 ++ w1 ++ w ++ rest) (Fin 128) (Fin 192) = w.
Proof.
  intros H0 H1 H. change (Fin 128) with (Fin (Z.of_nat 128)).
  change (Fin 192) with (Fin (Z.of_nat 192)). rewrite slice_nat.
  change (192 - 128)%nat with 64%nat.
  rewrite app_assoc, skipn_app_exact by (rewrite length_app; lia).
  now apply firstn_app_exact.
Qed.

Lemma slice_word3 (w0 w1 w2 w rest : jsstring) :
  List.length w0 = 64%nat -> List.length w1 = 64%nat ->
  List.length w2 = 64%nat -> List.length w = 64%nat ->
  slice (w0 ++ w1 ++ w2 ++ w ++ rest) (Fin 192) (Fin 256) = w.
Proof.
  intros H0 H1 H2 H. change (Fin 192) with (Fin (Z.of_nat 192)).
  change (Fin 256) with (Fin (Z.of_nat 256)). rewrite slice_nat.
  change (256 - 192)%nat with 64%nat.
  rewrite (app_assoc w1), app_assoc, skipn_app_exact
    by (rewrite !length_app; lia).
  now apply firstn_app_exact.
Qed.

Lemma BigInt_word w :
  hex_string 64 w -> BigInt_or_throw (lit "0x" ++ w) = inr (hex_value w).
Proof.
  intros [Hl Hh]. unfold BigInt_or_throw.
  rewrite BigInt_0x_hex; [reflexivity|assumption|].
  intros ->. discriminate.
Qed.

Lemma parseInt_hex_string n w :
  hex_string (S n) w -> parseInt w 16 = round_double (hex_value w).
Proof.
  intros H. apply parseInt_hex; [apply H|]. eapply hex_string_nonempty, H.
Qed.

(** ** [decodeAllowanceResult] *)

Lemma decodeAllowanceResult_words w1 w2 w3 :
  hex_string 64 w1 -> hex_string 64 w2 -> hex_string 64 w3 ->
  Permit2.decodeAllowanceResult (lit "0x" ++ w1 ++ w2 ++ w3)
  = inr {| Permit2.amount := hex_value w1;
           Permit2.expiration := round_double (hex_value w2);
           Permit2.nonce := round_double (hex_value w3) |}.
Proof.
  intros H1 H2 H3. unfold Permit2.decodeAllowanceResult.
  rewrite replace_0x.
  rewrite slice_word0 by apply H1. rewrite BigInt_word by assumption.
  rewrite slice_word1 by (apply H1 || apply H2). rewrite BigInt_word by assumption.
  assert (Hn : slice (w1 ++ w2 ++ w3) (Fin 128) (Fin 192) = w3).
  { rewrite <- (app_nil_r w3) at 1.
    apply slice_word2; (apply H1 || apply H2 || apply H3). }
  rewrite Hn, BigInt_word by assumption. reflexivity.
Qed.

(** ** [parseSignature] *)

Lemma parseSignature_wellformed rh sh vh :
  List.length rh = 64%nat -> List.length sh = 64%nat -> hex_string 2 vh ->
  parseSignature (lit "0x" ++ rh ++ sh ++ vh)
  = {| sig_v := Fin (legacy_v (hex_value vh));
       sig_r := lit "0x" ++ rh;
       sig_s := lit "0x" ++ sh |}.
Proof.
  intros Hr Hs Hv. unfold parseSignature. rewrite strip_0x.
  rewrite slice_word0, slice_word1 by assumption.
  assert (Hvs : slice (rh ++ sh ++ vh) (Fin 128) (Fin 130) = vh).
  { change (Fin 128) with (Fin (Z.of_nat 128)).
    change (Fin 130) with (Fin (Z.of_nat 130)). rewrite slice_nat.
    rewrite app_assoc, skipn_app_exact by (rewrite length_app; lia).
    apply firstn_all2. destruct Hv as [-> _]. simpl. lia. }
  rewrite Hvs, (parseInt_hex_string 1) by assumption.
  pose proof (hex_value_bound 2 vh Hv) as Hb. change (16 ^ Z.of_nat 2) with 256 in Hb.
  rewrite round_double_exact by (change (2 ^ 53) with 9007199254740992; lia).
  unfold legacy_v. cbn [nlt nadd].
  destruct (Z.ltb_spec (hex_value vh) 27); [|reflexivity].
  rewrite round_double_exact by (change (2 ^ 53) with 9007199254740992; lia).
  reflexivity.
Qed.

Lemma parseSignature_short signature :
  (List.length signature <= 130)%nat -> sig_v (parseSignature signature) = NaN.
Proof.
  intros H. unfold parseSignature. cbn [sig_v].
  change (Fin 2) with (Fin (Z.of_nat 2)). rewrite slice_from_nat.
  change (Fin 128) with (Fin (Z.of_nat 128)).
  change (Fin 130) with (Fin (Z.of_nat 130)). rewrite slice_nat.
  rewrite (skipn_all2 (n:=128%nat)) by (rewrite length_skipn; lia).
  rewrite firstn_nil. reflexivity.
Qed.

(** ** [hexToString] *)

Lemma to_hex_2 b : to_hex 2 b = [hex_digit (b / 16 mod 16); hex_digit (b mod 16)].
Proof. reflexivity. Qed.

Lemma hexToString_bytes bs :
  Forall (fun b => 0 <= b < 256) bs ->
  hexToString (bytes_hex bs) = List.map Z.to_N bs.
Proof.
  induction 1 as [|b bs Hb _ IH]; [reflexivity|].
  unfold bytes_hex in *. cbn [flat_map List.map]. rewrite to_hex_2.
  cbn [app hexToString]. rewrite IH. f_equal.
  rewrite <- to_hex_2.
  rewrite (parseInt_hex_string 1) by apply to_hex_string.
  rewrite to_hex_value. change (16 ^ Z.of_nat 2) with 256.
  rewrite Z.mod_small by assumption.
  rewrite round_double_exact by (change (2 ^ 53) with 9007199254740992; lia).
  cbn [fromCharCode]. f_equal. apply Z.mod_small. lia.
Qed.

(** ** A dynamic field: a length word, then the data *)

Lemma dynamic_field hex (off : nat) lw rest :
  Z.of_nat (List.length hex) < 2 ^ 52 ->
  skipn off hex = lw ++ rest -> hex_string 64 lw ->
  let start := Fin (Z.of_nat off) in
  let length := parseInt (slice hex start (nadd start (Fin 64))) 16 in
  slice hex (nadd start (Fin 64))
    (nadd (nadd start (Fin 64)) (nmul length (Fin 2)))
  = firstn (Z.to_nat (2 * hex_value lw)) rest.
Proof.
  intros Hlen Hskip Hlw start length. subst start length.
  assert (Hoff : (off <= List.length hex)%nat).
  { destruct (Nat.le_gt_cases off (List.length hex)) as [?|Hgt]; [assumption|].
    rewrite skipn_all2 in Hskip by lia. destruct Hlw as [Hl _].
    destruct lw; discriminate. }
  assert (H52 : 2 ^ 52 + 64 < 2 ^ 53) by reflexivity.
  assert (H64 : nadd (Fin (Z.of_nat off)) (Fin 64) = Fin (Z.of_nat (off + 64))).
  { cbn [nadd]. rewrite round_double_exact by lia. f_equal. lia. }
  rewrite H64, slice_nat.
  replace (off + 64 - off)%nat with 64%nat by lia.
  rewrite Hskip, firstn_app_exact by apply Hlw.
  rewrite (parseInt_hex_string 63) by assumption.
  pose proof (hex_value_bound 64 lw Hlw).
  rewrite slice_declared by lia.
  f_equal. rewrite Nat.add_comm, <- skipn_skipn, Hskip.
  apply skipn_app_exact, Hlw.
Qed.

(** ** [decodeEip712Domain] *)

Lemma decodeEip712Domain_fields result tokenAddress w0 wn wv wc tail :
  let hex := w0 ++ wn ++ wv ++ wc ++ tail in
  result = lit "0x" ++ hex ->
  Z.of_nat (List.length result) < 2 ^ 52 ->
  List.length w0 = 64%nat ->
  hex_string 64 wn -> hex_string 64 wv -> hex_string 64 wc ->
  exists d,
    decodeEip712Domain result tokenAddress = inr d
    /\ chainId d = round_double (hex_value wc)
    /\ verifyingContract d = tokenAddress
    /\ (forall lw rest,
          skipn (Z.to_nat (2 * hex_value wn)) hex = lw ++ rest ->
          hex_string 64 lw ->
          name d = hexToString (firstn (Z.to_nat (2 * hex_value lw)) rest))
    /\ (forall lw rest,
          skipn (Z.to_nat (2 * hex_value wv)) hex = lw ++ rest ->
          hex_string 64 lw ->
          version d = hexToString (firstn (Z.to_nat (2 * hex_value lw)) rest)).
Proof.
  intros hex -> Hlen H0 Hn Hv Hc.
  assert (Hhex : Z.of_nat (List.length hex) < 2 ^ 52).
  { change (lit "0x" ++ hex) with (48%N :: 120%N :: hex) in Hlen.
    cbn [List.length] in Hlen. lia. }
  assert (Hoffset : forall w rest' (lw rest : jsstring),
    hex_string 64 w ->
    skipn (Z.to_nat (2 * hex_value w)) hex = lw ++ rest -> hex_string 64 lw ->
    let off := nmul (parseInt w 16) (Fin 2) in
    let length := parseInt (slice hex off (nadd off (Fin 64))) 16 in
    rest' = slice hex (nadd off (Fin 64))
              (nadd (nadd off (Fin 64)) (nmul length (Fin 2))) ->
    hexToString rest' = hexToString (firstn (Z.to_nat (2 * hex_value lw)) rest)).
  { intros w rest' lw rest Hw Hskip Hlw off length ->. f_equal.
    subst off length.
    pose proof (hex_value_bound 64 w Hw) as Hb.
    rewrite (parseInt_hex_string 63) by assumption.
    destruct (Z.lt_ge_cases (2 * hex_value w) (2 ^ 53)) as [Hsmall|Hbig].
    - rewrite round_double_exact by lia. cbn [nmul].
      rewrite round_double_exact by lia.
      replace (hex_value w * 2) with (Z.of_nat (Z.to_nat (2 * hex_value w)))
        by lia.
      now apply dynamic_field.
    - exfalso. rewrite skipn_all2 in Hskip by lia.
      destruct Hlw as [Hl _]. destruct lw; discriminate. }
  assert (Hwn : slice hex (Fin 64) (Fin 128) = wn)
    by (apply slice_word1; (apply H0 || apply Hn)).
  assert (Hwv : slice hex (Fin 128) (Fin 192) = wv)
    by (apply slice_word2; (apply H0 || apply Hn || apply Hv)).
  assert (Hwc : slice hex (Fin 192) (Fin 256) = wc)
    by (apply slice_word3; (apply H0 || apply Hn || apply Hv || apply Hc)).
  clearbody hex.
  unfold decodeEip712Domain. rewrite strip_0x, Hwc, Hwn, Hwv.
  rewrite BigInt_word by assumption.
  eexists. split; [reflexivity|]. cbn [chainId verifyingContract name version].
  split; [reflexivity|]. split; [reflexivity|].
  split; intros lw rest Hskip Hlw.
  - now apply (Hoffset wn _ lw rest Hn Hskip Hlw).
  - now apply (Hoffset wv _ lw rest Hv Hskip Hlw).
Qed.

Lemma abi_string_declared head lw data :
  Z.of_nat (List.length (lit "0x" ++ head ++ lw ++ data)) < 2 ^ 52 ->
  List.length head = 64%nat -> hex_string 64 lw ->
  abi_string (lit "0x" ++ head ++ lw ++ data)
  = hexToString (firstn (Z.to_nat (2 * hex_value lw)) data).
Proof.
  intros Hlen Hh Hlw. unfold abi_string. rewrite strip_0x.
  rewrite slice_word1 by (apply Hh || apply Hlw).
  rewrite (parseInt_hex_string 63) by assumption.
  pose proof (hex_value_bound 64 lw Hlw).
  change (lit "0x" ++ head ++ lw ++ data)
    with (48%N :: 120%N :: head ++ lw ++ data) in Hlen.
  cbn [List.length] in Hlen.
  change (Fin 128) with (Fin (Z.of_nat 128)).
  rewrite slice_declared by lia. do 2 f_equal.
  rewrite app_assoc. apply skipn_app_exact. rewrite length_app.
  destruct Hlw as [-> _]. lia.
Qed.

Section Runs.
Context {World : Type}.
Variable provider : EIP1193Provider World.
Variable VERSION_SELECTOR : jsstring.

Lemma provider_request_run r (st : St World) o w' :
  request provider r (world st) = (o, w') ->
  provider_request provider r st = (o, mkSt w' (trace st ++ [r])).
Proof. intros H. unfold provider_request. now rewrite H. Qed.

Lemma getTokenName_run token (st : St World) o w' :
  request provider (eth_call token NAME_SELECTOR) (world st) = (o, w') ->
  getTokenName provider token st
  = (match o with inl e => inl e | inr result => inr (abi_string result) end,
     mkSt w' (trace st ++ [eth_call token NAME_SELECTOR])).
Proof.
  intros H. unfold getTokenName, bind.
  rewrite (provider_request_run _ _ _ _ H). now destruct o.
Qed.

Lemma getTokenVersion_run token (st : St World) o w' :
  request provider (eth_call token VERSION_SELECTOR) (world st) = (o, w') ->
  getTokenVersion VERSION_SELECTOR provider token st
  = (inr (match o with
          | inl _ => DEFAULT_PERMIT_VERSION
          | inr result => abi_string result
          end),
     mkSt w' (trace st ++ [eth_call token VERSION_SELECTOR])).
Proof.
  intros H. unfold getTokenVersion, try_catch, bind.
  rewrite (provider_request_run _ _ _ _ H). now destruct o.
Qed.

Lemma getEip712Domain_primary token (st : St World) result w' :
  request provider (eth_call token EIP712_DOMAIN_SELECTOR) (world st)
  = (inr result, w') ->
  forall d, decodeEip712Domain result token = inr d ->
  getEip712Domain VERSION_SELECTOR provider token st
  = (inr d, mkSt w' (trace st ++ [eth_call token EIP712_DOMAIN_SELECTOR])).
Proof.
  intros H d Hd. unfold getEip712Domain, try_catch, bind, lift.
  rewrite (provider_request_run _ _ _ _ H). now rewrite Hd.
Qed.

Lemma getEip712Domain_call_fails token (st : St World) e w1 :
  request provider (eth_call token EIP712_DOMAIN_SELECTOR) (world st)
  = (inl e, w1) ->
  getEip712Domain VERSION_SELECTOR provider token st
  = fallback provider VERSION_SELECTOR token
      (mkSt w1 (trace st ++ [eth_call token EIP712_DOMAIN_SELECTOR])).
Proof.
  intros H. unfold getEip712Domain, try_catch, bind at 1.
  now rewrite (provider_request_run _ _ _ _ H).
Qed.

Lemma getEip712Domain_decode_fails token (st : St World) result e w1 :
  request provider (eth_call token EIP712_DOMAIN_SELECTOR) (world st)
  = (inr result, w1) ->
  decodeEip712Domain result token = inl e ->
  getEip712Domain VERSION_SELECTOR provider token st
  = fallback provider VERSION_SELECTOR token
      (mkSt w1 (trace st ++ [eth_call token EIP712_DOMAIN_SELECTOR])).
Proof.
  intros H Hd. unfold getEip712Domain, try_catch, bind at 1, lift.
  rewrite (provider_request_run _ _ _ _ H). now rewrite Hd.
Qed.

Lemma fallback_run token (st1 : St World) on w2 ov w3 oc w4 :
  request provider (eth_call token NAME_SELECTOR) (world st1) = (on, w2) ->
  request provider (eth_call token VERSION_SELECTOR) w2 = (ov, w3) ->
  request provider eth_chainId w3 = (oc, w4) ->
  fallback provider VERSION_SELECTOR token st1
  = match on with
    | inl e => (inl e, mkSt w2 (trace st1 ++ [eth_call token NAME_SELECTOR]))
    | inr rn =>
        (match oc with
         | inl e => inl e
         | inr chainIdHex =>
             inr {| name := abi_string rn;
                    version := match ov with
                               | inl _ => DEFAULT_PERMIT_VERSION
                               | inr rv => abi_string rv
                               end;
                    chainId := parseInt chainIdHex 16;
                    verifyingContract := token |}
         end,
         mkSt w4 (trace st1 ++ [eth_call token NAME_SELECTOR;
                                eth_call token VERSION_SELECTOR;
                                eth_chainId]))
    end.
Proof.
  intros Hn Hv Hc. unfold fallback. unfold bind at 1.
  rewrite (getTokenName_run _ _ _ _ Hn). destruct on as [e|rn]; [reflexivity|].
  unfold bind at 1.
  rewrite (getTokenVersion_run token (mkSt w2 _) ov w3 Hv).
  unfold bind. rewrite (provider_request_run eth_chainId (mkSt w3 _) oc w4 Hc).
  cbn [trace]. rewrite <- !app_assoc. cbn [app].
  destruct oc; reflexivity.
Qed.
End Runs.

Lemma nadd_exact x y : Z.abs (x + y) < 2 ^ 53 -> nadd (Fin x) (Fin y) = Fin (x + y).
Proof. intros H. cbn [nadd]. now apply round_double_exact. Qed.

Lemma nmul_exact x y : Z.abs (x * y) < 2 ^ 53 -> nmul (Fin x) (Fin y) = Fin (x * y).
Proof. intros H. cbn [nmul]. now apply round_double_exact. Qed.

Section SignRuns.
Context {World : Type}.
Variable VERSION_SELECTOR : jsstring.
Variable JSON_stringify : json -> jsstring.

Lemma signERC20Permit_success T (params : SignERC20PermitParams)
    (st st' : St World) res :
  signERC20Permit VERSION_SELECTOR JSON_stringify T params st = (inr res, st') ->
  let deadline :=
    nadd (Fin (T / 1000))
      (nmul (match p_deadlineMinutes params with
             | Some m => m
             | None => Fin 60
             end) (Fin 60)) in
  exists account0 domainInfo stA stB signature,
    let signer := signer_of (p_signerAddress params) account0 in
    let typedData :=
      permitTypedData domainInfo (p_chainId params) (p_tokenAddress params)
        signer (p_spenderAddress params) (p_value params) (p_nonce params)
        deadline in
    let sent := eth_signTypedData_v4 signer (JSON_stringify typedData) in
    getEip712Domain VERSION_SELECTOR (p_provider params)
      (p_tokenAddress params) stA = (inr domainInfo, stB)
    /\ request (p_provider params) sent (world stB) = (inr signature, world st')
    /\ trace st' = trace stB ++ [sent]
    /\ res = {| permitSignature :=
                  {| value := p_value params;
                     deadline := deadline;
                     v := sig_v (parseSignature signature);
                     r := sig_r (parseSignature signature);
                     s := sig_s (parseSignature signature) |};
                signerAddress := signer |}.
Proof.
  unfold signERC20Permit.
  set (deadline := nadd _ _). intros H. cbv zeta.
  unfold bind at 1 in H.
  destruct (provider_request (p_provider params) eth_accounts st)
    as [[e|accounts0] st1]; [discriminate|].
  unfold bind at 1 in H.
  destruct (match accounts0 with
            | [] => provider_request (p_provider params) eth_requestAccounts
            | _ :: _ => ret accounts0
            end st1) as [[e|accounts] st2]; [discriminate|].
  destruct accounts as [|account0 rest]; [discriminate|].
  unfold bind at 1 in H.
  destruct (getEip712Domain VERSION_SELECTOR (p_provider params)
              (p_tokenAddress params) st2) as [[e|domainInfo] st3] eqn:Hd;
    [discriminate|].
  unfold bind, provider_request, ret in H.
  match type of H with
  | context [request ?p ?r ?w] => destruct (request p r w) as [[e|sig] w4] eqn:Hs
  end; [discriminate|].
  injection H as <- <-.
  exists account0, domainInfo, st2, st3, sig.
  repeat split; assumption || reflexivity.
Qed.
(** With an account already connected, a resolved domain and a signature
    from the wallet, [signERC20Permit] resolves. *)
Lemma signERC20Permit_resolves T (params : SignERC20PermitParams)
    (st : St World) account0 rest w1 domainInfo stB signature w4 :
  request (p_provider params) eth_accounts (world st)
  = (inr (account0 :: rest), w1) ->
  getEip712Domain VERSION_SELECTOR (p_provider params) (p_tokenAddress params)
    (mkSt w1 (trace st ++ [eth_accounts]))
  = (inr domainInfo, stB) ->
  let deadline :=
    nadd (Fin (T / 1000))
      (nmul (match p_deadlineMinutes params with
             | Some m => m
             | None => Fin 60
             end) (Fin 60)) in
  let signer := signer_of (p_signerAddress params) account0 in
  let sent :=
    eth_signTypedData_v4 signer
      (JSON_stringify
         (permitTypedData domainInfo (p_chainId params)
            (p_tokenAddress params) signer (p_spenderAddress params)
            (p_value params) (p_nonce params) deadline)) in
  request (p_provider params) sent (world stB) = (inr signature, w4) ->
  signERC20Permit VERSION_SELECTOR JSON_stringify T params st
  = (inr {| permitSignature :=
              {| value := p_value params;
                 deadline := deadline;
                 v := sig_v (parseSignature signature);
                 r := sig_r (parseSignature signature);
                 s := sig_s (parseSignature signature) |};
            signerAddress := signer |},
     mkSt w4 (trace stB ++ [sent])).
Proof.
  intros Hacc Hdom deadline signer sent Hsign.
  unfold signERC20Permit. unfold bind at 1, provider_request at 1.
  rewrite Hacc. unfold bind at 1, ret at 1. unfold bind at 1.
  rewrite Hdom. unfold bind, provider_request, ret.
  fold deadline. unfold signer_of in signer. fold signer. fold sent.
  now rewrite Hsign.
Qed.
End SignRuns.

(** ** [BigInt(b.toString())] *)

Lemma uint_units_dec d : forallb is_dec (uint_units d) = true.
Proof. induction d; simpl; auto. Qed.

Lemma fold_uint_acc d (acc : positive) :
  fold_left dec_step (uint_units d) (Some (Zpos acc))
  = Some (Zpos (Pos.of_uint_acc d acc)).
Proof.
  revert acc. induction d; intros acc; cbn [uint_units fold_left Pos.of_uint_acc];
    [reflexivity|..]; rewrite <- IHd; f_equal;
    unfold dec_step; cbn [radix_digit digit_value N.leb N.compare Pos.compare
      Pos.compare_cont andb Z.of_N Z.sub Z.add Z.opp Z.pos_sub Z.ltb Z.compare
      Pos.pred_double Z.succ_double Z.pred_double Z.double];
    f_equal; lia.
Qed.

Lemma fold_uint d :
  fold_left dec_step (uint_units d) (Some 0) = Some (Z.of_N (Pos.of_uint d)).
Proof.
  induction d; cbn [uint_units fold_left Pos.of_uint];
    [reflexivity| exact IHd |..]; cbn [Z.of_N]; rewrite <- fold_uint_acc;
    reflexivity.
Qed.

Lemma parse_all_uint d :
  d <> Decimal.Nil -> parse_all 10 (uint_units d) = Some (Z.of_N (Pos.of_uint d)).
Proof.
  intros Hd. unfold parse_all.
  destruct (uint_units d) eqn:E; [destruct d; (contradiction || discriminate)|].
  rewrite <- E. apply fold_uint.
Qed.

Lemma dec_not_whitespace s :
  forallb is_dec s = true -> forallb (fun c => negb (is_whitespace c)) s = true.
Proof.
  rewrite !forallb_forall. intros H c Hc. specialize (H c Hc).
  unfold is_dec in H. apply andb_prop in H as [H1 H2].
  apply N.leb_le in H1, H2. rewrite not_whitespace_range by lia. reflexivity.
Qed.

(** [BigInt] on a string of decimal digits. *)
Lemma BigInt_decimal t :
  forallb is_dec t = true -> t <> [] -> BigInt t = parse_all 10 t.
Proof.
  intros H Hn. unfold BigInt. rewrite trim_none by now apply dec_not_whitespace.
  destruct t as [|c r]; [contradiction|].
  simpl in H. apply andb_prop in H as [Hc Hr].
  unfold is_dec in Hc. apply andb_prop in Hc as [H1 H2]. apply N.leb_le in H1, H2.
  settle_tests.
  destruct r as [|x digits]; [reflexivity|].
  simpl in Hr. apply andb_prop in Hr as [Hx _].
  unfold is_dec in Hx. apply andb_prop in Hx as [H3 H4]. apply N.leb_le in H3, H4.
  assert (Hx : nondecimal_radix x = None)
    by (unfold nondecimal_radix; settle_tests; reflexivity).
  rewrite Hx. now destruct (c =? 48)%N.
Qed.

Lemma BigInt_toString_pos p :
  BigInt (uint_units (Pos.to_uint p)) = Some (Zpos p).
Proof.
  pose proof (DecimalPos.Unsigned.to_uint_nonnil p) as Hn.
  rewrite BigInt_decimal.
  - rewrite parse_all_uint by assumption.
    now rewrite DecimalPos.Unsigned.of_to.
  - apply uint_units_dec.
  - destruct (Pos.to_uint p); (contradiction || discriminate).
Qed.

Lemma BigInt_toString_roundtrip z : BigInt (BigInt_toString z) = Some z.
Proof.
  destruct z as [|p|p]; [reflexivity|apply BigInt_toString_pos|].
  pose proof (DecimalPos.Unsigned.to_uint_nonnil p) as Hn.
  unfold BigInt_toString, BigInt.
  rewrite trim_none.
  - replace (45 =? 45)%N with true by reflexivity. cbv iota.
    rewrite parse_all_uint by assumption.
    now rewrite DecimalPos.Unsigned.of_to.
  - cbn [forallb]. rewrite dec_not_whitespace by apply uint_units_dec.
    reflexivity.
Qed.

Section AllowanceRuns.
Context {World : Type}.
Variable provider : EIP1193Provider World.
Variable toLowerCase : jsstring -> jsstring.

Lemma checkERC20Allowance_run token owner spender required (st : St World)
    result w' a r :
  request provider (eth_call token (allowance_call toLowerCase owner spender)) (world st)
  = (inr result, w') ->
  BigInt result = Some a ->
  BigInt required = Some r ->
  checkERC20Allowance toLowerCase provider token owner spender required st
  = (inr {| allowance := BigInt_toString a; isSufficient := r <=? a |},
     mkSt w' (trace st ++ [eth_call token (allowance_call toLowerCase owner spender)])).
Proof.
  intros Hreq Ha Hr.
  unfold checkERC20Allowance, getERC20Allowance, bind, lift, ret,
    BigInt_or_throw.
  fold (allowance_call toLowerCase owner spender).
  rewrite (provider_request_run _ _ _ _ _ Hreq).
  rewrite Ha, BigInt_toString_roundtrip, Hr. reflexivity.
Qed.
End AllowanceRuns.

Lemma isAllowanceSufficient_spec T amount e n required buffer :
  let b := or_default 1800 buffer in
  Z.abs (T / 1000 + b) < 2 ^ 53 ->
  Permit2.isAllowanceSufficient T
    {| Permit2.amount := amount; Permit2.expiration := Fin e; Permit2.nonce := n |}
    required (option_map Fin buffer)
  = (required <=? amount) && (T / 1000 + b <=? e).
Proof.
  intros b Hb. unfold Permit2.isAllowanceSufficient.
  cbn [Permit2.amount Permit2.expiration].
  replace (match option_map Fin buffer with Some b0 => b0 | None => Fin 1800 end)
    with (Fin b) by (now destruct buffer).
  rewrite nadd_exact by assumption. cbn [nlt].
  destruct (Z.ltb_spec amount required), (Z.leb_spec required amount);
    try lia; cbn [andb]; try reflexivity.
  destruct (Z.ltb_spec e (T / 1000 + b)), (Z.leb_spec (T / 1000 + b) e);
    try lia; reflexivity.
Qed.

End DecoderFacts.
Import DecoderFacts.

(* ===================================================================== *)
(** * Base64 and wallet discovery *)
(* ===================================================================== *)

Module SvmFacts.
Import SvmDelegate.

(** ** [atob] after [btoa] *)


Lemma b64_encode_split s :
  b64_encode s = List.map b64_char (sextets_of s) ++ padding_of s.
Proof.
  induction s as [| | |a b c rest IH] using list_ind3; try reflexivity.
  cbn [b64_encode sextets_of padding_of List.map app]. now rewrite IH.
Qed.

Lemma b64_value_char v : (v < 64)%N -> b64_value (b64_char v) = Some v.
Proof.
  intros H. unfold b64_char.
  destruct (N.ltb_spec v 26); [|destruct (N.ltb_spec v 52);
    [|destruct (N.ltb_spec v 62); [|destruct (N.eqb_spec v 62)]]];
    unfold b64_value.
  1-3: settle_tests; cbn [andb]; f_equal; lia.
  - subst v. reflexivity.
  - assert (v = 63)%N as -> by lia. reflexivity.
Qed.

Lemma b64_char_range v :
  let c := b64_char v in
  ((65 <= c <= 90) \/ (97 <= c <= 122) \/ (48 <= c <= 57) \/ c = 43 \/ c = 47)%N.
Proof.
  unfold b64_char.
  destruct (N.ltb_spec v 26); [|destruct (N.ltb_spec v 52);
    [|destruct (N.ltb_spec v 62); [|destruct (N.eqb_spec v 62)]]]; cbv zeta; lia.
Qed.

Lemma b64_char_not_pad v : (b64_char v =? 61)%N = false.
Proof. apply N.eqb_neq. pose proof (b64_char_range v). cbv zeta in *. lia. Qed.

Lemma b64_char_not_space v : is_ascii_whitespace (b64_char v) = false.
Proof.
  pose proof (b64_char_range v) as H. cbv zeta in H.
  unfold is_ascii_whitespace. cbn [existsb]. settle_tests. reflexivity.
Qed.

Lemma filter_all {A} (p : A -> bool) l :
  forallb p l = true -> filter p l = l.
Proof.
  induction l as [|a l IH]; [reflexivity|]. simpl.
  destruct (p a); [|discriminate]. intros H. now rewrite IH.
Qed.

Lemma padding_is_pad s : forallb (fun c => (c =? 61)%N) (padding_of s) = true.
Proof. induction s using list_ind3; auto. Qed.

Lemma b64_encode_no_space s :
  filter (fun c => negb (is_ascii_whitespace c)) (b64_encode s) = b64_encode s.
Proof.
  apply filter_all. rewrite b64_encode_split, forallb_app. apply andb_true_intro.
  split.
  - rewrite forallb_forall. intros c Hc. apply in_map_iff in Hc as [v [<- _]].
    now rewrite b64_char_not_space.
  - induction s using list_ind3; auto.
Qed.

Lemma b64_encode_length s : (List.length (b64_encode s) mod 4 = 0)%nat.
Proof.
  induction s as [| | |a b c rest IH] using list_ind3; try reflexivity.
  cbn [b64_encode List.length].
  change (S (S (S (S ?n)))) with (4 + n)%nat.
  replace (4 + List.length (b64_encode rest))%nat
    with (List.length (b64_encode rest) + 1 * 4)%nat by lia.
  now rewrite Nat.Div0.mod_add.
Qed.

Lemma sextets_length s :
  (List.length (sextets_of s) mod 4 <> 1)%nat.
Proof.
  induction s as [| | |a b c rest IH] using list_ind3; try (simpl; lia).
  cbn [sextets_of List.length].
  replace (S (S (S (S (List.length (sextets_of rest))))))
    with (List.length (sextets_of rest) + 1 * 4)%nat by lia.
  now rewrite Nat.Div0.mod_add.
Qed.

Lemma strip_padding_encode s :
  strip_padding (b64_encode s) = List.map b64_char (sextets_of s).
Proof.
  unfold strip_padding.
  pose proof (b64_encode_length s) as Hl. apply Nat.eqb_eq in Hl. rewrite Hl.
  rewrite b64_encode_split.
  set (X := List.map b64_char (sextets_of s)).
  assert (Hhead : forall c r, rev X = c :: r -> (c =? 61)%N = false).
  { intros c r E. assert (In c X) as Hin
      by (apply in_rev; rewrite E; now left).
    apply in_map_iff in Hin as [v [<- _]]. apply b64_char_not_pad. }
  assert (Hpad : padding_of s = [] \/ padding_of s = [61%N]
                 \/ padding_of s = [61%N; 61%N]).
  { clear. induction s using list_ind3; auto. }
  destruct Hpad as [->|[->| ->]]; rewrite rev_app_distr; cbn [rev app].
  - rewrite app_nil_r. destruct (rev X) as [|c r] eqn:E; [reflexivity|].
    now rewrite (Hhead c r eq_refl).
  - replace (61 =? 61)%N with true by reflexivity.
    destruct (rev X) as [|c r] eqn:E.
    + rewrite <- (rev_involutive X), E. reflexivity.
    + rewrite (Hhead c r eq_refl). rewrite <- E. apply rev_involutive.
  - replace (61 =? 61)%N with true by reflexivity. cbv iota.
    apply rev_involutive.
Qed.

Lemma sextets_chars vs :
  Forall (fun v => (v < 64)%N) vs -> sextets (List.map b64_char vs) = Some vs.
Proof.
  induction 1 as [|v vs Hv _ IH]; [reflexivity|].
  cbn [List.map sextets]. now rewrite b64_value_char, IH.
Qed.

Lemma sextets_of_bound s :
  Forall is_byte s -> Forall (fun v => (v < 64)%N) (sextets_of s).
Proof.
  unfold is_byte.
  induction s as [|a|a b|a b c rest IH] using list_ind3; intros H;
    cbn [sextets_of].
  - constructor.
  - inversion_clear H. repeat (apply Forall_cons; [div_lia|]). apply Forall_nil.
  - inversion_clear H as [|? ? Ha H']. inversion_clear H'.
    repeat (apply Forall_cons; [div_lia|]). apply Forall_nil.
  - inversion_clear H as [|? ? Ha H']. inversion_clear H' as [|? ? Hb H''].
    inversion_clear H'' as [|? ? Hc Hr].
    repeat (apply Forall_cons; [div_lia|]). auto.
Qed.

Lemma b64_decode_sextets s :
  Forall is_byte s -> b64_decode (sextets_of s) = s.
Proof.
  unfold is_byte.
  induction s as [|a|a b|a b c rest IH] using list_ind3; intros H;
    cbn [sextets_of b64_decode].
  - reflexivity.
  - inversion_clear H. f_equal. div_lia.
  - inversion_clear H as [|? ? Ha H']. inversion_clear H'.
    f_equal; [div_lia|]. f_equal. div_lia.
  - inversion_clear H as [|? ? Ha H']. inversion_clear H' as [|? ? Hb H''].
    inversion_clear H'' as [|? ? Hc Hr].
    rewrite IH by assumption.
    f_equal; [div_lia|]. f_equal; [div_lia|]. f_equal. div_lia.
Qed.

Lemma atob_btoa s :
  Forall is_byte s ->
  btoa s = inr (b64_encode s) /\ atob (b64_encode s) = inr s.
Proof.
  intros H. split.
  - unfold btoa. replace (forallb (fun c => (c <=? 255)%N) s) with true;
      [reflexivity|].
    symmetry. apply forallb_forall. intros c Hc.
    rewrite Forall_forall in H. specialize (H c Hc). unfold is_byte in H.
    apply N.leb_le. lia.
  - unfold atob. rewrite b64_encode_no_space, strip_padding_encode.
    rewrite length_map.
    pose proof (sextets_length s) as Hl.
    apply Nat.eqb_neq in Hl. rewrite Hl.
    rewrite sextets_chars by now apply sextets_of_bound.
    now rewrite b64_decode_sextets.
Qed.

Lemma byte_unit (b : Byte.byte) :
  fromCharCode (Fin (Z.of_N (Byte.to_N b))) = Byte.to_N b.
Proof.
  pose proof (Byte.to_N_bounded b). cbn [fromCharCode].
  rewrite Z.mod_small by lia. apply N2Z.id.
Qed.

Lemma to_uint8_byte (b : Byte.byte) : to_uint8 (Byte.to_N b) = b.
Proof.
  pose proof (Byte.to_N_bounded b). unfold to_uint8.
  rewrite N.mod_small by lia. now rewrite Byte.of_to_N.
Qed.

Lemma str_eqb_eq a b : str_eqb a b = true <-> a = b.
Proof.
  revert b. induction a as [|x a IH]; intros [|y b]; simpl;
    try (split; (reflexivity || discriminate)).
  rewrite andb_true_iff, N.eqb_eq, IH. split.
  - intros [-> ->]. reflexivity.
  - intros H. injection H as -> ->. auto.
Qed.

Section Discovery.
Context {World : Type}.
Variable win : Window World.

Lemma connected_as_true w p expected :
  connected_as win w p expected = true ->
  isConnected win w p = inr true /\ publicKey win w p = inr (Some expected).
Proof.
  unfold connected_as.
  destruct (isConnected win w p) as [e|[|]]; try discriminate.
  destruct (publicKey win w p) as [e|[key|]]; try discriminate.
  intros H. apply str_eqb_eq in H as ->. auto.
Qed.

Lemma find_loop_some w providers expected p :
  find_loop win w providers expected = Some p ->
  In p providers /\ installed win w p = true
  /\ connected_as win w p expected = true.
Proof.
  induction providers as [|q rest IH]; [discriminate|]. cbn [find_loop].
  destruct (installed win w q) eqn:Hi; cbn [negb].
  - destruct (connected_as win w q expected) eqn:Hc.
    + intros H. injection H as <-. repeat split; (now left) || assumption.
    + intros H. destruct (IH H) as (? & ? & ?). repeat split; auto. now right.
  - intros H. destruct (IH H) as (? & ? & ?). repeat split; auto. now right.
Qed.

Lemma findConnectedProvider_some w expected p :
  findConnectedProvider win w expected = Some p ->
  installed win w p = true /\ isConnected win w p = inr true
  /\ publicKey win w p = inr (Some expected).
Proof.
  intros H. apply find_loop_some in H as (_ & Hi & Hc).
  apply connected_as_true in Hc as []. auto.
Qed.

Lemma connectSolanaWallet_cases expected w :
  match connectSolanaWallet win expected w with
  | (inr p, w') => returned_by win expected w p w'
  | (inl e, _) => e = not_found expected
  end.
Proof.
  unfold connectSolanaWallet.
  destruct (findConnectedProvider win w expected) as [p|] eqn:Hf.
  { destruct (findConnectedProvider_some _ _ _ Hf) as (? & ? & ?).
    now constructor. }
  assert (Hsol : forall w1,
    match
      (let '(found, w2) :=
         if installed win w1 solflare then
           match connect win solflare w1 with
           | (inr _, w') =>
               match publicKey win w' solflare with
               | inr (Some key) => (str_eqb key expected, w')
               | inr None => (false, w')
               | inl _ => (false, w')
               end
           | (inl _, w') => (false, w')
           end
         else (false, w1) in
       if found then (inr solflare, w2)
       else (inl (not_found expected), w2))
    with
    | (inr p, w') => returned_by win expected w p w'
    | (inl e, _) => e = not_found expected
    end).
  { intros w1. destruct (installed win w1 solflare) eqn:Hi; [|reflexivity].
    destruct (connect win solflare w1) as [[e|response] w'] eqn:Hc;
      [reflexivity|].
    destruct (publicKey win w' solflare) as [e|[key|]] eqn:Hk;
      try reflexivity.
    destruct (str_eqb key expected) eqn:He; [|reflexivity].
    apply str_eqb_eq in He as ->. eapply solflare_connect; eauto. }
  destruct (installed win w phantom) eqn:Hi; [|apply Hsol].
  destruct (connect win phantom w) as [[e|[key|]] w'] eqn:Hc;
    try apply Hsol.
  destruct (str_eqb key expected) eqn:He; [|apply Hsol].
  apply str_eqb_eq in He as ->. now apply phantom_connect.
Qed.
End Discovery.

End SvmFacts.
Import SvmFacts.

(* ===================================================================== *)
(** * The claims *)
(* ===================================================================== *)

Import EvmPermitConstants EvmPermitAllowance EvmPermitSign SvmDelegate.

(** ** Fixed-width decoding of the Permit2 allowance (C1) *)

(** C1, counterexample. The amount word has bit 160 set and the expiration
    word has bit 48 set; [decodeAllowanceResult] raises nothing and returns
    both values as they stand. *)
Lemma decodeAllowanceResult_accepts_oversized :
  let result :=
    lit "0x"
    ++ lit "0000000000000000000000010000000000000000000000000000000000000000"
    ++ lit "0000000000000000000000000000000000000000000000000001000000000000"
    ++ lit "0000000000000000000000000000000000000000000000000000000000000000"
  in
  Permit2.decodeAllowanceResult result
  = inr {| Permit2.amount := 2 ^ 160;
           Permit2.expiration := Fin (2 ^ 48);
           Permit2.nonce := Fin 0 |}
  /\ forall e, Permit2.decodeAllowanceResult result <> inl e.
Proof. split; [vm_compute; reflexivity | vm_compute; discriminate]. Qed.

(** C1, as amended. For every 3-word ABI return value
    [decodeAllowanceResult] raises no validation error: it returns each
    32-byte word read as an unsigned integer, the amount as a bigint and the
    expiration and nonce as Numbers, with no check and no masking of the bits
    above the declared width; a value whose fields are all within their
    widths (uint160, uint48, uint48) therefore decodes to exactly those
    integers. *)
Theorem decodeAllowanceResult_reads_words :
  (forall w1 w2 w3,
     hex_string 64 w1 -> hex_string 64 w2 -> hex_string 64 w3 ->
     Permit2.decodeAllowanceResult (lit "0x" ++ w1 ++ w2 ++ w3)
     = inr {| Permit2.amount := hex_value w1;
              Permit2.expiration := Number (hex_value w2);
              Permit2.nonce := Number (hex_value w3) |})
  /\ (forall a e n,
        0 <= a < 2 ^ 160 -> 0 <= e < 2 ^ 48 -> 0 <= n < 2 ^ 48 ->
        Permit2.decodeAllowanceResult
          (lit "0x" ++ word_hex a ++ word_hex e ++ word_hex n)
        = inr {| Permit2.amount := a;
                 Permit2.expiration := Fin e;
                 Permit2.nonce := Fin n |}).
Proof.
  split.
  - intros w1 w2 w3 H1 H2 H3. now apply decodeAllowanceResult_words.
  - intros a e n Ha He Hn.
    assert (2 ^ 160 < 2 ^ 256) by (apply Z.pow_lt_mono_r; lia).
    assert (2 ^ 48 < 2 ^ 53) by (apply Z.pow_lt_mono_r; lia).
    assert (2 ^ 53 < 2 ^ 256) by (apply Z.pow_lt_mono_r; lia).
    rewrite decodeAllowanceResult_words by apply to_hex_string.
    rewrite !word_hex_value by lia.
    rewrite !round_double_exact by lia. reflexivity.
Qed.

Lemma decodeAllowanceResult_reads_words_witness :
  Permit2.decodeAllowanceResult
    (lit "0x"
     ++ lit "00000000000000000000000000000000000000000000000000000000000F4240"
     ++ lit "000000000000000000000000000000000000000000000000000000006553F100"
     ++ lit "0000000000000000000000000000000000000000000000000000000000000003")
  = inr {| Permit2.amount := 1000000;
           Permit2.expiration := Fin 1700000000;
           Permit2.nonce := Fin 3 |}
  /\ Permit2.decodeAllowanceResult
       (lit "0x" ++ word_hex 10000 ++ word_hex 1700000000 ++ word_hex 3)
     = inr {| Permit2.amount := 10000;
              Permit2.expiration := Fin 1700000000;
              Permit2.nonce := Fin 3 |}.
Proof.
  split.
  - apply (proj1 decodeAllowanceResult_reads_words); split; reflexivity.
  - apply (proj2 decodeAllowanceResult_reads_words); split;
      (lia || reflexivity).
Defined.

(** ** Dynamic strings: [name()] and [eip712Domain()] (C2) *)

(** C2, counterexample. The return data declare a name of 8 bytes and carry
    4. [getTokenName] resolves with the 4 characters that are there, and
    [decodeEip712Domain] returns a domain with that cut name and an empty
    version: neither reports a decode error. *)
Lemma dynamic_decode_truncates_silently :
  getTokenName (Mock.provider Mock.cut_token) Mock.token Mock.start
  = (inr (lit "USD "),
     mkSt 1%nat [eth_call Mock.token NAME_SELECTOR])
  /\ decodeEip712Domain Mock.domain_cut Mock.token
     = inr {| name := lit "USD ";
              version := [];
              chainId := Fin 1;
              verifyingContract := Mock.token |}
  /\ (forall e,
        fst (getTokenName (Mock.provider Mock.cut_token) Mock.token Mock.start)
        <> inl e)
  /\ (forall e, decodeEip712Domain Mock.domain_cut Mock.token <> inl e).
Proof.
  repeat split; try (vm_compute; reflexivity); vm_compute; discriminate.
Qed.

Section DynamicDecode.
Context {World : Type}.
Variable provider : EIP1193Provider World.

(** C2, as amended. For the [name()] return and the [eip712Domain()] return,
    a declared byte length that runs past the available hex length does not
    make decoding fail: a dynamic field is decoded from the declared number
    of bytes or from the data that are there, whichever is shorter. (Return
    data of fewer than [2^52] characters; [decodeEip712Domain] fails only
    when [BigInt] rejects the chain id word.) *)
Theorem dynamic_decode_takes_available_data :
  (forall token (st : St World) w' head lw data,
     let result := lit "0x" ++ head ++ lw ++ data in
     request provider (eth_call token NAME_SELECTOR) (world st)
     = (inr result, w') ->
     Z.of_nat (List.length result) < 2 ^ 52 ->
     List.length head = 64%nat -> hex_string 64 lw ->
     getTokenName provider token st
     = (inr (hexToString (firstn (Z.to_nat (2 * hex_value lw)) data)),
        mkSt w' (trace st ++ [eth_call token NAME_SELECTOR])))
  /\ (forall tokenAddress w0 wn wv wc tail,
        let hex := w0 ++ wn ++ wv ++ wc ++ tail in
        Z.of_nat (List.length (lit "0x" ++ hex)) < 2 ^ 52 ->
        List.length w0 = 64%nat ->
        hex_string 64 wn -> hex_string 64 wv -> hex_string 64 wc ->
        exists d,
          decodeEip712Domain (lit "0x" ++ hex) tokenAddress = inr d
          /\ chainId d = Number (hex_value wc)
          /\ verifyingContract d = tokenAddress
          /\ (forall lw rest,
                skipn (Z.to_nat (2 * hex_value wn)) hex = lw ++ rest ->
                hex_string 64 lw ->
                name d
                = hexToString (firstn (Z.to_nat (2 * hex_value lw)) rest))
          /\ (forall lw rest,
                skipn (Z.to_nat (2 * hex_value wv)) hex = lw ++ rest ->
                hex_string 64 lw ->
                version d
                = hexToString (firstn (Z.to_nat (2 * hex_value lw)) rest))).
Proof.
  split.
  - intros token st w' head lw data result Hreq Hlen Hhead Hlw.
    rewrite (getTokenName_run provider token st _ _ Hreq).
    subst result. now rewrite abi_string_declared.
  - intros tokenAddress w0 wn wv wc tail hex Hlen H0 Hn Hv Hc.
    now apply (decodeEip712Domain_fields _ tokenAddress w0 wn wv wc tail).
Qed.
End DynamicDecode.

Lemma dynamic_decode_takes_available_data_witness :
  getTokenName (Mock.provider Mock.plain_token) Mock.token Mock.start
  = (inr (lit "USD Coin"), mkSt 1%nat [eth_call Mock.token NAME_SELECTOR])
  /\ exists d,
       decodeEip712Domain Mock.domain_abi Mock.token = inr d
       /\ name d = lit "USD Coin" /\ version d = lit "2".
Proof.
  split.
  - apply (proj1 (dynamic_decode_takes_available_data
                    (Mock.provider Mock.plain_token))
             Mock.token Mock.start 1%nat (word_hex 32) (word_hex 8)
             (lit "55534420436f696e000000000000000000000000000000000000000000000000"));
      [reflexivity | reflexivity | reflexivity | split; reflexivity].
  - destruct (proj2 (dynamic_decode_takes_available_data
                       (Mock.provider Mock.plain_token))
                Mock.token
                (lit "0f00000000000000000000000000000000000000000000000000000000000000")
                (word_hex 224) (word_hex 288) (word_hex 1)
                (lit "000000000000000000000000a0b86991c6218b36c1d19d4a2e9eb0ce3606eb48"
                 ++ word_hex 0 ++ word_hex 352 ++ word_hex 8
                 ++ lit "55534420436f696e000000000000000000000000000000000000000000000000"
                 ++ word_hex 1
                 ++ lit "3200000000000000000000000000000000000000000000000000000000000000"
                 ++ word_hex 0))
      as (d & Hd & _ & _ & Hname & Hversion);
      [reflexivity | reflexivity | split; reflexivity | split; reflexivity
      | split; reflexivity |].
    exists d. split; [exact Hd|]. split.
    + apply (Hname (word_hex 8)
               (lit "55534420436f696e000000000000000000000000000000000000000000000000"
                ++ word_hex 1
                ++ lit "3200000000000000000000000000000000000000000000000000000000000000"
                ++ word_hex 0)); [reflexivity | split; reflexivity].
    + apply (Hversion (word_hex 1)
               (lit "3200000000000000000000000000000000000000000000000000000000000000"
                ++ word_hex 0)); [reflexivity | split; reflexivity].
Defined.

(** ** The signature parser (C3, C4) *)

(** C3, counterexample. A 2-byte string is not a 65-byte signature, yet
    [parseSignature] reports no error: it returns the 2 bytes as [r], an
    empty [s] and [NaN] for [v]. *)
Lemma parseSignature_accepts_wrong_length :
  parseSignature (lit "0x1234")
  = {| sig_v := NaN; sig_r := lit "0x1234"; sig_s := lit "0x" |}.
Proof. reflexivity. Qed.

(** C3, as amended. The signature parser checks no length and never fails:
    an input too short to hold byte 64 (at most 130 characters, prefix
    included) yields [v = NaN] together with whatever characters the slices
    find; and for every well-formed 65-byte input, [r] and [s] are exactly
    32 bytes each ([r] = bytes 0-31, [s] = bytes 32-63, each behind its own
    ["0x"]) and [v] comes from byte 64. *)
Theorem parseSignature_slices_without_check :
  (forall signature,
     (List.length signature <= 130)%nat ->
     sig_v (parseSignature signature) = NaN)
  /\ (forall rh sh vh,
        hex_string 64 rh -> hex_string 64 sh -> hex_string 2 vh ->
        let sg := parseSignature (lit "0x" ++ rh ++ sh ++ vh) in
        sig_r sg = lit "0x" ++ rh
        /\ sig_s sg = lit "0x" ++ sh
        /\ List.length (sig_r sg) = 66%nat
        /\ List.length (sig_s sg) = 66%nat
        /\ sig_v sg = Fin (legacy_v (hex_value vh))).
Proof.
  split; [exact parseSignature_short|].
  intros rh sh vh Hr Hs Hv sg. subst sg.
  rewrite parseSignature_wellformed by (apply Hr || apply Hs || assumption).
  cbn [sig_r sig_s sig_v].
  change (lit "0x" ++ rh) with (48%N :: 120%N :: rh).
  change (lit "0x" ++ sh) with (48%N :: 120%N :: sh).
  cbn [List.length]. destruct Hr as [-> _], Hs as [-> _]. auto.
Qed.

Lemma parseSignature_slices_without_check_witness :
  sig_v (parseSignature (lit "0x1234")) = NaN
  /\ parseSignature (Mock.signature_with 28)
     = {| sig_v := Fin 28;
          sig_r := lit "0x0000000000000000000000000000000000000000000000000000000000000011";
          sig_s := lit "0x0000000000000000000000000000000000000000000000000000000000000022" |}.
Proof.
  split.
  - apply (proj1 parseSignature_slices_without_check). simpl. lia.
  - destruct (proj2 parseSignature_slices_without_check
                (to_hex 64 17) (to_hex 64 34) (to_hex 2 28))
      as (Hr & Hs & _ & _ & Hv); [split; reflexivity ..|].
    cbv zeta in *. unfold Mock.signature_with.
    destruct (parseSignature _) as [v0 r0 s0].
    cbn [sig_v sig_r sig_s] in *. subst. reflexivity.
Defined.

(** C4, counterexample. A 65-byte signature whose last byte is [0x02]:
    the parsed [v] is 29, outside {27, 28}. *)
Lemma parseSignature_v_outside_27_28 :
  sig_v (parseSignature (lit "0x0000000000000000000000000000000000000000000000000000000000000011"
                         ++ lit "0000000000000000000000000000000000000000000000000000000000000022"
                         ++ lit "02"))
  = Fin 29
  /\ Fin 29 <> Fin 27 /\ Fin 29 <> Fin 28.
Proof. repeat split; (reflexivity || discriminate). Qed.

(** C4, as amended. For every 65-byte signature whose last raw byte is [b],
    the parsed [v] is [b + 27] when [b < 27] and [b] otherwise (so [0x00]
    yields 27, [0x01] yields 28, and [0x1b] = 27 is returned unchanged);
    [v] lies in {27, 28} exactly when [b] is 0, 1, 27 or 28. *)
Theorem parseSignature_v_rule :
  forall rh sh vh,
    hex_string 64 rh -> hex_string 64 sh -> hex_string 2 vh ->
    let b := hex_value vh in
    let v := sig_v (parseSignature (lit "0x" ++ rh ++ sh ++ vh)) in
    0 <= b < 256
    /\ v = Fin (if b <? 27 then b + 27 else b)
    /\ ((v = Fin 27 \/ v = Fin 28) <-> (b = 0 \/ b = 1 \/ b = 27 \/ b = 28))
    /\ (vh = lit "00" -> v = Fin 27)
    /\ (vh = lit "01" -> v = Fin 28)
    /\ (vh = lit "1b" -> v = Fin 27).
Proof.
  intros rh sh vh Hr Hs Hv b v. subst v.
  rewrite parseSignature_wellformed by (apply Hr || apply Hs || assumption).
  cbn [sig_v]. fold b. unfold legacy_v.
  pose proof (hex_value_bound 2 vh Hv) as Hb. fold b in Hb.
  change (16 ^ Z.of_nat 2) with 256 in Hb.
  split; [exact Hb|]. split; [reflexivity|]. split.
  - destruct (Z.ltb_spec b 27); split.
    + intros [H'|H']; injection H' as H'; lia.
    + intros [->|[->|[->| ->]]]; (now left) || (now right) || lia.
    + intros [H'|H']; injection H' as H'; lia.
    + intros [->|[->|[->| ->]]]; (now left) || (now right) || lia.
  - repeat split; intros E; subst b; rewrite E; reflexivity.
Qed.

Lemma parseSignature_v_rule_witness :
  sig_v (parseSignature (Mock.signature_with 0)) = Fin 27
  /\ sig_v (parseSignature (Mock.signature_with 1)) = Fin 28
  /\ sig_v (parseSignature (Mock.signature_with 27)) = Fin 27.
Proof.
  split; [|split].
  - destruct (parseSignature_v_rule (to_hex 64 17) (to_hex 64 34) (to_hex 2 0))
      as (_ & _ & _ & H00 & _ & _); [split; reflexivity ..|].
    apply H00. reflexivity.
  - destruct (parseSignature_v_rule (to_hex 64 17) (to_hex 64 34) (to_hex 2 1))
      as (_ & _ & _ & _ & H01 & _); [split; reflexivity ..|].
    apply H01. reflexivity.
  - destruct (parseSignature_v_rule (to_hex 64 17) (to_hex 64 34) (to_hex 2 27))
      as (_ & _ & _ & _ & _ & H1b); [split; reflexivity ..|].
    apply H1b. reflexivity.
Defined.

(** ** Deadlines and the typed data (C5) *)

Section Deadlines.
Context {World : Type}.
Variable VERSION_SELECTOR : jsstring.
Variable JSON_stringify : json -> jsstring.

Lemma signPermit2_success T (params : Permit2.SignPermit2Params)
    (st st' : St World) res :
  Permit2.signPermit2 JSON_stringify T params st = (inr res, st') ->
  let days :=
    match Permit2.p_expirationDays params with
    | Some d => d
    | None => Fin 30
    end in
  let minutes :=
    match Permit2.p_sigDeadlineMinutes params with
    | Some m => m
    | None => Fin 5
    end in
  let now := Fin (T / 1000) in
  let expiration :=
    nadd now (nmul (nmul (nmul days (Fin 24)) (Fin 60)) (Fin 60)) in
  let sigDeadline := nadd now (nmul minutes (Fin 60)) in
  exists signer signature,
    let permitSingle :=
      {| Permit2.details :=
           {| Permit2.d_token := Permit2.p_tokenAddress params;
              Permit2.d_amount := Permit2.p_allowanceAmount params;
              Permit2.d_expiration := expiration;
              Permit2.d_nonce := Permit2.p_nonce params |};
         Permit2.spender := Permit2.p_spenderAddress params;
         Permit2.sigDeadline := sigDeadline |} in
    let typedData :=
      Permit2.permit2TypedData permitSingle (Permit2.p_chainId params)
        (Permit2.p_permit2Address params) in
    Permit2.p_signerAddress params = Some signer
    /\ trace st'
       = trace st ++ [eth_signTypedData_v4 signer (JSON_stringify typedData)]
    /\ res = {| Permit2.permitSingle := permitSingle;
                Permit2.signature := signature;
                Permit2.signerAddress := signer |}.
Proof.
  unfold Permit2.signPermit2. intros H. cbv zeta.
  destruct (Permit2.p_signerAddress params) as [[|c a]|]; try discriminate.
  unfold bind, provider_request, ret in H.
  match type of H with
  | context [request ?p ?r ?w] => destruct (request p r w) as [[e|sig] w4]
  end; [discriminate|].
  injection H as <- <-. exists (c :: a), sig. auto.
Qed.

(** C5. At a current time of [T] milliseconds, a [signERC20Permit] call
    with [deadlineMinutes = m] (60 when omitted) that produces a message
    gives it the deadline [floor(T / 1000) + m * 60], returns the same
    deadline, and sends typed data whose [domain.version] is the version the
    [getEip712Domain] resolution returned; a [signPermit2] call gives
    [expiration = floor(T / 1000) + expirationDays * 24 * 60 * 60] (30 days
    when omitted) and [sigDeadline = floor(T / 1000) + sigDeadlineMinutes *
    60] (5 minutes when omitted). Times and offsets are integers within the
    exact range of a Number. *)
Theorem deadlines_are_whole_seconds_from_now :
  (forall T (params : SignERC20PermitParams) (st st' : St World) res minutes,
     p_deadlineMinutes params = option_map Fin minutes ->
     let m := or_default 60 minutes in
     Z.abs (m * 60) < 2 ^ 53 -> Z.abs (T / 1000 + m * 60) < 2 ^ 53 ->
     signERC20Permit VERSION_SELECTOR JSON_stringify T params st
     = (inr res, st') ->
     deadline (permitSignature res) = Fin (T / 1000 + m * 60)
     /\ exists domainInfo stA stB signer typedData,
          getEip712Domain VERSION_SELECTOR (p_provider params)
            (p_tokenAddress params) stA = (inr domainInfo, stB)
          /\ trace st'
             = trace stB
               ++ [eth_signTypedData_v4 signer (JSON_stringify typedData)]
          /\ jpath typedData ["message"; "deadline"]%string
             = Some (JNumber (Fin (T / 1000 + m * 60)))
          /\ jpath typedData ["domain"; "version"]%string
             = Some (JString (version domainInfo)))
  /\ (forall T (params : Permit2.SignPermit2Params) (st st' : St World) res
        days minutes,
        Permit2.p_expirationDays params = option_map Fin days ->
        Permit2.p_sigDeadlineMinutes params = option_map Fin minutes ->
        let d := or_default 30 days in
        let m := or_default 5 minutes in
        Z.abs (d * 24 * 60 * 60) < 2 ^ 53 ->
        Z.abs (T / 1000 + d * 24 * 60 * 60) < 2 ^ 53 ->
        Z.abs (m * 60) < 2 ^ 53 -> Z.abs (T / 1000 + m * 60) < 2 ^ 53 ->
        Permit2.signPermit2 JSON_stringify T params st = (inr res, st') ->
        Permit2.d_expiration (Permit2.details (Permit2.permitSingle res))
        = Fin (T / 1000 + d * 24 * 60 * 60)
        /\ Permit2.sigDeadline (Permit2.permitSingle res)
           = Fin (T / 1000 + m * 60)
        /\ exists signer typedData,
             trace st'
             = trace st
               ++ [eth_signTypedData_v4 signer (JSON_stringify typedData)]
             /\ jpath typedData ["message"; "details"; "expiration"]%string
                = Some (JNumber (Fin (T / 1000 + d * 24 * 60 * 60)))
             /\ jpath typedData ["message"; "sigDeadline"]%string
                = Some (JNumber (Fin (T / 1000 + m * 60)))).
Proof.
  split.
  - intros T params st st' res minutes Hm m Hm60 Hsum Hrun.
    apply signERC20Permit_success in Hrun.
    destruct Hrun as (account0 & d & stA & stB & sig & Hd & _ & Htrace & ->).
    assert (Hdl : nadd (Fin (T / 1000))
                    (nmul (match p_deadlineMinutes params with
                           | Some m0 => m0
                           | None => Fin 60
                           end) (Fin 60))
                  = Fin (T / 1000 + m * 60)).
    { rewrite Hm. replace (match option_map Fin minutes with
                           | Some m0 => m0
                           | None => Fin 60
                           end) with (Fin m) by (now destruct minutes).
      rewrite nmul_exact by assumption. now apply nadd_exact. }
    rewrite Hdl in *. split; [reflexivity|].
    eexists d, stA, stB, _, _. split; [exact Hd|]. split; [exact Htrace|].
    split; reflexivity.
  - intros T params st st' res days minutes Hdays Hmin d m Hd1 Hd2 Hm1 Hm2 Hrun.
    apply signPermit2_success in Hrun.
    destruct Hrun as (signer & sig & _ & Htrace & ->).
    assert (Hexp : nadd (Fin (T / 1000))
                     (nmul (nmul (nmul
                        (match Permit2.p_expirationDays params with
                         | Some d0 => d0
                         | None => Fin 30
                         end) (Fin 24)) (Fin 60)) (Fin 60))
                   = Fin (T / 1000 + d * 24 * 60 * 60)).
    { rewrite Hdays. replace (match option_map Fin days with
                              | Some d0 => d0
                              | None => Fin 30
                              end) with (Fin d) by (now destruct days).
      rewrite !nmul_exact by lia. now apply nadd_exact. }
    assert (Hsd : nadd (Fin (T / 1000))
                    (nmul (match Permit2.p_sigDeadlineMinutes params with
                           | Some m0 => m0
                           | None => Fin 5
                           end) (Fin 60))
                  = Fin (T / 1000 + m * 60)).
    { rewrite Hmin. replace (match option_map Fin minutes with
                             | Some m0 => m0
                             | None => Fin 5
                             end) with (Fin m) by (now destruct minutes).
      rewrite nmul_exact by assumption. now apply nadd_exact. }
    rewrite Hexp, Hsd in *. cbn [Permit2.permitSingle Permit2.details
      Permit2.d_expiration Permit2.sigDeadline].
    split; [reflexivity|]. split; [reflexivity|].
    eexists signer, _. split; [exact Htrace|]. split; reflexivity.
Qed.
End Deadlines.

Lemma deadlines_are_whole_seconds_from_now_witness :
  (exists res st',
     signERC20Permit Mock.VERSION_SELECTOR Mock.stringify 1700000000123
       (Mock.permit_params Mock.eip5267_token (lit "USD Coin")) Mock.start
     = (inr res, st')
     /\ deadline (permitSignature res) = Fin 1700003600)
  /\ (exists res st',
        Permit2.signPermit2 Mock.stringify 1700000000123
          (Mock.permit2_params Mock.eip5267_token) Mock.start
        = (inr res, st')
        /\ Permit2.d_expiration (Permit2.details (Permit2.permitSingle res))
           = Fin 1702592000
        /\ Permit2.sigDeadline (Permit2.permitSingle res) = Fin 1700000600).
Proof.
  split.
  - destruct (signERC20Permit Mock.VERSION_SELECTOR Mock.stringify
                1700000000123
                (Mock.permit_params Mock.eip5267_token (lit "USD Coin"))
                Mock.start) as [[e|res] st'] eqn:Hrun;
      [vm_compute in Hrun; discriminate|].
    exists res, st'. split; [reflexivity|].
    exact (proj1 (proj1 (deadlines_are_whole_seconds_from_now
                           Mock.VERSION_SELECTOR Mock.stringify)
                    1700000000123
                    (Mock.permit_params Mock.eip5267_token (lit "USD Coin"))
                    Mock.start st' res None
                    eq_refl eq_refl eq_refl Hrun)).
  - destruct (Permit2.signPermit2 Mock.stringify 1700000000123
                (Mock.permit2_params Mock.eip5267_token) Mock.start)
      as [[e|res] st'] eqn:Hrun; [vm_compute in Hrun; discriminate|].
    exists res, st'. split; [reflexivity|].
    destruct (proj2 (deadlines_are_whole_seconds_from_now
                       Mock.VERSION_SELECTOR Mock.stringify)
                1700000000123 (Mock.permit2_params Mock.eip5267_token)
                Mock.start st' res None (Some 10)
                eq_refl eq_refl eq_refl eq_refl eq_refl eq_refl Hrun)
      as (He & Hs & _).
    split; [exact He | exact Hs].
Defined.

(** ** The EIP-712 domain and its fallback (C6) *)

Section DomainFallback.
Context {World : Type}.
Variable provider : EIP1193Provider World.
Variable VERSION_SELECTOR : jsstring.

(** C6. When the [eip712Domain()] call fails, [getEip712Domain] goes on, from
    the state that call left, with three further requests in this order:
    [name()], [version()] and [eth_chainId]. A failure of [name()] is the
    failure of [getEip712Domain], and so is a failure of [eth_chainId]; a
    failure of [version()] is swallowed and the version is ["1"]; otherwise
    the domain is built from the three answers and the token address. The
    errors of [eip712Domain()] and of [version()] never reach the caller. *)
Theorem getEip712Domain_falls_back_field_by_field :
  forall token (st : St World) e w1,
    request provider (eth_call token EIP712_DOMAIN_SELECTOR) (world st)
    = (inl e, w1) ->
    forall on w2 ov w3 oc w4,
      request provider (eth_call token NAME_SELECTOR) w1 = (on, w2) ->
      request provider (eth_call token VERSION_SELECTOR) w2 = (ov, w3) ->
      request provider eth_chainId w3 = (oc, w4) ->
      getEip712Domain VERSION_SELECTOR provider token st
      = match on with
        | inl name_error =>
            (inl name_error,
             mkSt w2 (trace st ++ [eth_call token EIP712_DOMAIN_SELECTOR;
                                   eth_call token NAME_SELECTOR]))
        | inr name_result =>
            (match oc with
             | inl chain_error => inl chain_error
             | inr chainIdHex =>
                 inr {| name := abi_string name_result;
                        version := match ov with
                                   | inl _ => lit "1"
                                   | inr version_result =>
                                       abi_string version_result
                                   end;
                        chainId := parseInt chainIdHex 16;
                        verifyingContract := token |}
             end,
             mkSt w4 (trace st ++ [eth_call token EIP712_DOMAIN_SELECTOR;
                                   eth_call token NAME_SELECTOR;
                                   eth_call token VERSION_SELECTOR;
                                   eth_chainId]))
        end.
Proof.
  intros token st e w1 Hd on w2 ov w3 oc w4 Hn Hv Hc.
  rewrite (getEip712Domain_call_fails provider VERSION_SELECTOR token st e w1 Hd).
  rewrite (fallback_run provider VERSION_SELECTOR token (mkSt w1 _)
             on w2 ov w3 oc w4 Hn Hv Hc).
  cbn [trace]. rewrite <- !app_assoc. reflexivity.
Qed.

(** The same fallback is taken when the call succeeds and decoding its result
    throws (the chain id word is not a hex literal). *)
Lemma getEip712Domain_falls_back_on_decode_error token (st : St World)
    result e w1 :
  request provider (eth_call token EIP712_DOMAIN_SELECTOR) (world st)
  = (inr result, w1) ->
  decodeEip712Domain result token = inl e ->
  getEip712Domain VERSION_SELECTOR provider token st
  = fallback provider VERSION_SELECTOR token
      (mkSt w1 (trace st ++ [eth_call token EIP712_DOMAIN_SELECTOR])).
Proof. apply getEip712Domain_decode_fails. Qed.

(** Whatever [getEip712Domain] rejects with was raised by [name()] or by
    [eth_chainId]. *)
Lemma getEip712Domain_error_origin token (st st' : St World) e :
  getEip712Domain VERSION_SELECTOR provider token st = (inl e, st') ->
  exists w, fst (request provider (eth_call token NAME_SELECTOR) w) = inl e
            \/ fst (request provider eth_chainId w) = inl e.
Proof.
  intros H.
  assert (Hfb : forall st1,
    fallback provider VERSION_SELECTOR token st1 = (inl e, st') ->
    exists w, fst (request provider (eth_call token NAME_SELECTOR) w) = inl e
              \/ fst (request provider eth_chainId w) = inl e).
  { intros st1 Hf.
    destruct (request provider (eth_call token NAME_SELECTOR) (world st1))
      as [on w2] eqn:Hn.
    destruct (request provider (eth_call token VERSION_SELECTOR) w2)
      as [ov w3] eqn:Hv.
    destruct (request provider eth_chainId w3) as [oc w4] eqn:Hc.
    rewrite (fallback_run provider VERSION_SELECTOR token st1
               on w2 ov w3 oc w4 Hn Hv Hc) in Hf.
    destruct on as [en|rn].
    - injection Hf as -> _. exists (world st1). left. now rewrite Hn.
    - destruct oc as [ec|c]; [|discriminate].
      injection Hf as -> _. exists w3. right. now rewrite Hc. }
  destruct (request provider (eth_call token EIP712_DOMAIN_SELECTOR) (world st))
    as [[e0|result] w1] eqn:Hd.
  - rewrite (getEip712Domain_call_fails provider VERSION_SELECTOR token st e0 w1 Hd)
      in H. eauto.
  - destruct (decodeEip712Domain result token) as [e0|d] eqn:Hdec.
    + rewrite (getEip712Domain_decode_fails provider VERSION_SELECTOR token st
                 result e0 w1 Hd Hdec) in H. eauto.
    + rewrite (getEip712Domain_primary provider VERSION_SELECTOR token st
                 result w1 Hd d Hdec) in H. discriminate.
Qed.
End DomainFallback.

Lemma getEip712Domain_falls_back_field_by_field_witness :
  getEip712Domain Mock.VERSION_SELECTOR (Mock.provider Mock.plain_token)
    Mock.token Mock.start
  = (inr {| name := lit "USD Coin";
            version := lit "1";
            chainId := Fin 1;
            verifyingContract := Mock.token |},
     mkSt 4%nat [eth_call Mock.token EIP712_DOMAIN_SELECTOR;
                 eth_call Mock.token NAME_SELECTOR;
                 eth_call Mock.token Mock.VERSION_SELECTOR;
                 eth_chainId]).
Proof.
  exact (getEip712Domain_falls_back_field_by_field
           (Mock.provider Mock.plain_token) Mock.VERSION_SELECTOR
           Mock.token Mock.start Mock.rejected 1%nat eq_refl
           (inr Mock.usd_coin_abi) 2%nat (inl Mock.rejected) 3%nat
           (inr (lit "0x1")) 4%nat eq_refl eq_refl eq_refl).
Defined.

(** ** Allowance sufficiency (C7) *)

Section Sufficiency.
Context {World : Type}.
Variable provider : EIP1193Provider World.
Variable toLowerCase : jsstring -> jsstring.

(** C7. The sufficiency checks compare exact integers. [checkERC20Allowance]
    reads the allowance [a] the provider returned and the required amount
    [r] as bigints and answers [isSufficient = true] exactly when [a >= r],
    whatever their size; [isAllowanceSufficient] answers [true] exactly when
    [amount >= required] and [expiration >= now + buffer] (buffer 1800 s
    when omitted), hence [false] whenever [expiration < now + 1800], however
    large the amount. *)
Theorem allowance_checks_compare_exact_integers :
  (forall token owner spender required (st : St World) result w' a r,
     request provider
       (eth_call token (allowance_call toLowerCase owner spender)) (world st)
     = (inr result, w') ->
     BigInt result = Some a ->
     BigInt required = Some r ->
     exists info st',
       checkERC20Allowance toLowerCase provider token owner spender required st
       = (inr info, st')
       /\ allowance info = BigInt_toString a
       /\ (isSufficient info = true <-> a >= r))
  /\ (forall T amount e n required buffer,
        let b := or_default 1800 buffer in
        Z.abs (T / 1000 + b) < 2 ^ 53 ->
        let answer :=
          Permit2.isAllowanceSufficient T
            {| Permit2.amount := amount;
               Permit2.expiration := Fin e;
               Permit2.nonce := n |}
            required (option_map Fin buffer) in
        (answer = true <-> amount >= required /\ e >= T / 1000 + b)
        /\ (e < T / 1000 + b -> answer = false)).
Proof.
  split.
  - intros token owner spender required st result w' a r Hreq Ha Hr.
    eexists _, _. split.
    + exact (checkERC20Allowance_run provider toLowerCase token owner spender
               required st result w' a r Hreq Ha Hr).
    + cbn [allowance isSufficient]. split; [reflexivity|].
      rewrite Z.leb_le. lia.
  - intros T amount e n required buffer b Hb answer. subst answer.
    rewrite isAllowanceSufficient_spec by assumption. fold b.
    rewrite andb_true_iff, !Z.leb_le. split; [lia|].
    intros Hlt. apply andb_false_iff. right. apply Z.leb_gt. lia.
Qed.
End Sufficiency.

Lemma allowance_checks_compare_exact_integers_witness :
  (* allowance 5000000 against 1000000: sufficient *)
  checkERC20Allowance Mock.lower (Mock.provider Mock.plain_token)
    Mock.token Mock.owner Mock.spender (lit "1000000") Mock.start
  = (inr {| allowance := lit "5000000"; isSufficient := true |},
     mkSt 1%nat
       [eth_call Mock.token
          (allowance_call Mock.lower Mock.owner Mock.spender)])
  (* allowance 999 against 1000: not sufficient *)
  /\ checkERC20Allowance Mock.lower (Mock.provider Mock.eip5267_token)
       Mock.token Mock.owner Mock.spender (lit "1000") Mock.start
     = (inr {| allowance := lit "999"; isSufficient := false |},
        mkSt 1%nat
          [eth_call Mock.token
             (allowance_call Mock.lower Mock.owner Mock.spender)])
  (* Permit2: enough amount, expiring within the buffer *)
  /\ Permit2.isAllowanceSufficient 1700000000123
       {| Permit2.amount := 5000000;
          Permit2.expiration := Fin 1700001799;
          Permit2.nonce := Fin 0 |} 1000000 None
     = false.
Proof.
  split; [|split].
  - destruct (proj1 (allowance_checks_compare_exact_integers
                       (Mock.provider Mock.plain_token) Mock.lower)
                Mock.token Mock.owner Mock.spender (lit "1000000") Mock.start
                (lit "0x" ++ word_hex 5000000) 1%nat 5000000 1000000
                eq_refl eq_refl eq_refl)
      as (info & st' & Hrun & Hallow & Hsuff).
    rewrite Hrun.
    pose proof (proj2 Hsuff ltac:(lia)) as Hs.
    destruct info as [al su]. cbn [allowance isSufficient] in *. subst.
    vm_compute in Hrun. injection Hrun as <-. reflexivity.
  - destruct (proj1 (allowance_checks_compare_exact_integers
                       (Mock.provider Mock.eip5267_token) Mock.lower)
                Mock.token Mock.owner Mock.spender (lit "1000") Mock.start
                (lit "0x" ++ word_hex 999) 1%nat 999 1000
                eq_refl eq_refl eq_refl)
      as (info & st' & Hrun & Hallow & Hsuff).
    rewrite Hrun.
    destruct info as [al [|]]; cbn [allowance isSufficient] in *.
    + pose proof (proj1 Hsuff eq_refl). lia.
    + subst. vm_compute in Hrun. injection Hrun as <-. reflexivity.
  - apply (proj2 (allowance_checks_compare_exact_integers
                    (Mock.provider Mock.plain_token) Mock.lower)
             1700000000123 5000000 1700001799 (Fin 0) 1000000 None);
      [reflexivity | vm_compute; reflexivity].
Defined.

(** ** Base64 (C8) *)

(** C8. For every byte sequence [bytes], [uint8ArrayToBase64] returns a
    string (it does not throw) and [base64ToUint8Array] gives [bytes] back
    from it. *)
Theorem base64_roundtrip :
  forall bytes : list Byte.byte,
  exists base64,
    uint8ArrayToBase64 bytes = inr base64
    /\ base64ToUint8Array base64 = inr bytes.
Proof.
  intros bytes.
  set (binary := List.map Byte.to_N bytes).
  assert (Hbin : List.map (fun b => fromCharCode (Fin (Z.of_N (Byte.to_N b))))
                   bytes = binary).
  { apply map_ext. intros b. apply byte_unit. }
  assert (Hbytes : Forall is_byte binary).
  { apply Forall_forall. intros n Hn. apply in_map_iff in Hn as [b [<- _]].
    pose proof (Byte.to_N_bounded b). unfold is_byte. lia. }
  destruct (atob_btoa binary Hbytes) as [Hbtoa Hatob].
  exists (b64_encode binary). split.
  - unfold uint8ArrayToBase64. now rewrite Hbin.
  - unfold base64ToUint8Array. rewrite Hatob. f_equal.
    unfold binary. rewrite map_map. rewrite <- (map_id bytes) at 2.
    apply map_ext. intros b. apply to_uint8_byte.
Qed.

(** ["hello"]: [aGVsbG8=]. *)
Example base64_hello :
  uint8ArrayToBase64 [Byte.x68; Byte.x65; Byte.x6c; Byte.x6c; Byte.x6f]
  = inr (lit "aGVsbG8=")
  /\ base64ToUint8Array (lit "aGVsbG8=")
     = inr [Byte.x68; Byte.x65; Byte.x6c; Byte.x6c; Byte.x6f].
Proof. split; reflexivity. Qed.

(** ** The [tokenName] parameter (C9) *)

Section TokenName.
Context {World : Type}.
Variable VERSION_SELECTOR : jsstring.
Variable JSON_stringify : json -> jsstring.

(** C9. Two [signERC20Permit] calls that differ in [tokenName] alone and meet
    the same provider in the same state run identically: the same requests
    with the same payloads (the typed data handed to [eth_signTypedData_v4]
    among them), the same final provider state and the same result or
    error. The domain name in the typed data is the name [getEip712Domain]
    resolved. *)
Theorem tokenName_has_no_effect :
  (forall T provider chainId tokenAddress spenderAddress value nonce
          deadlineMinutes signerAddress (st : St World) tokenName1 tokenName2,
     signERC20Permit VERSION_SELECTOR JSON_stringify T
       {| p_provider := provider;
          p_chainId := chainId;
          p_tokenAddress := tokenAddress;
          p_tokenName := tokenName1;
          p_spenderAddress := spenderAddress;
          p_value := value;
          p_nonce := nonce;
          p_deadlineMinutes := deadlineMinutes;
          p_signerAddress := signerAddress |} st
     = signERC20Permit VERSION_SELECTOR JSON_stringify T
         {| p_provider := provider;
            p_chainId := chainId;
            p_tokenAddress := tokenAddress;
            p_tokenName := tokenName2;
            p_spenderAddress := spenderAddress;
            p_value := value;
            p_nonce := nonce;
            p_deadlineMinutes := deadlineMinutes;
            p_signerAddress := signerAddress |} st)
  /\ (forall T (params : SignERC20PermitParams) (st st' : St World) res,
        signERC20Permit VERSION_SELECTOR JSON_stringify T params st
        = (inr res, st') ->
        exists domainInfo stA stB signer typedData,
          getEip712Domain VERSION_SELECTOR (p_provider params)
            (p_tokenAddress params) stA = (inr domainInfo, stB)
          /\ trace st'
             = trace stB
               ++ [eth_signTypedData_v4 signer (JSON_stringify typedData)]
          /\ jpath typedData ["domain"; "name"]%string
             = Some (JString (name domainInfo))).
Proof.
  split; [reflexivity|].
  intros T params st st' res Hrun.
  apply signERC20Permit_success in Hrun.
  destruct Hrun as (account0 & d & stA & stB & sig & Hd & _ & Htrace & _).
  eexists d, stA, stB, _, _. split; [exact Hd|]. split; [exact Htrace|].
  reflexivity.
Qed.
End TokenName.

Lemma tokenName_has_no_effect_witness :
  signERC20Permit Mock.VERSION_SELECTOR Mock.stringify 1700000000123
    (Mock.permit_params Mock.plain_token (lit "USD Coin")) Mock.start
  = signERC20Permit Mock.VERSION_SELECTOR Mock.stringify 1700000000123
      (Mock.permit_params Mock.plain_token (lit "Tether USD")) Mock.start
  /\ exists res st',
       signERC20Permit Mock.VERSION_SELECTOR Mock.stringify 1700000000123
         (Mock.permit_params Mock.plain_token (lit "Tether USD")) Mock.start
       = (inr res, st')
       /\ exists domainInfo stA stB signer typedData,
            getEip712Domain Mock.VERSION_SELECTOR
              (Mock.provider Mock.plain_token) Mock.token stA
            = (inr domainInfo, stB)
            /\ trace st'
               = trace stB
                 ++ [eth_signTypedData_v4 signer (Mock.stringify typedData)]
            /\ jpath typedData ["domain"; "name"]%string
               = Some (JString (name domainInfo)).
Proof.
  split.
  - apply (proj1 (tokenName_has_no_effect Mock.VERSION_SELECTOR
                    Mock.stringify)).
  - destruct (signERC20Permit Mock.VERSION_SELECTOR Mock.stringify
                1700000000123
                (Mock.permit_params Mock.plain_token (lit "Tether USD"))
                Mock.start) as [[e|res] st'] eqn:Hrun;
      [vm_compute in Hrun; discriminate|].
    exists res, st'. split; [reflexivity|].
    exact (proj2 (tokenName_has_no_effect Mock.VERSION_SELECTOR
                    Mock.stringify)
             1700000000123
             (Mock.permit_params Mock.plain_token (lit "Tether USD"))
             Mock.start st' res Hrun).
Defined.

(** ** Connecting a Solana wallet (C10) *)

Section Connect.
Context {World : Type}.
Variable win : Window World.

(** C10. When [connectSolanaWallet expectedAddress] returns a provider, the
    public key that provider reported equals [expectedAddress], unit for
    unit: the returned provider is either one [findConnectedProvider] found,
    connected and with [publicKey.toString()] equal to the address; or
    Phantom after a [connect()] whose response carries that public key; or
    Solflare whose [publicKey.toString()] equals the address after its
    [connect()]. In every other case the call throws the not-found error. *)
Theorem connectSolanaWallet_returns_only_the_expected_address :
  forall expectedAddress w,
    match connectSolanaWallet win expectedAddress w with
    | (inr provider, w') => returned_by win expectedAddress w provider w'
    | (inl e, _) => e = not_found expectedAddress
    end.
Proof. exact (connectSolanaWallet_cases win). Qed.

(** With a Phantom whose [publicKey] property is the key its [connect()]
    answered, the returned provider's [publicKey] is the expected address. *)
Lemma connectSolanaWallet_publicKey expectedAddress w provider w' :
  (forall w0 key w1,
     connect win phantom w0 = (inr (Some key), w1) ->
     publicKey win w1 phantom = inr (Some key)) ->
  connectSolanaWallet win expectedAddress w = (inr provider, w') ->
  publicKey win w' provider = inr (Some expectedAddress).
Proof.
  intros Hcoherent Hrun.
  pose proof (connectSolanaWallet_cases win expectedAddress w) as H.
  rewrite Hrun in H. destruct H; eauto.
Qed.
End Connect.

Example connectSolanaWallet_phantom :
  connectSolanaWallet Mock.phantom_only Mock.wallet_address 0%nat
  = (inr phantom, 1%nat)
  /\ connectSolanaWallet Mock.phantom_only Mock.wallet_address 1%nat
     = (inr phantom, 1%nat)
  /\ connectSolanaWallet Mock.phantom_only (lit "someone else") 0%nat
     = (inl (not_found (lit "someone else")), 1%nat).
Proof. repeat split. Qed.

(* ===================================================================== *)
(** * Further properties of the code *)
(* ===================================================================== *)

(** ** Further facts about hex and ABI encodings *)

Lemma parseInt_0x_hex h :
  forallb is_hex h = true -> h <> [] ->
  parseInt (lit "0x" ++ h) 16 = round_double (hex_value h).
Proof.
  intros H Hn. unfold parseInt.
  change (drop_while is_whitespace (lit "0x" ++ h)) with (48%N :: 120%N :: h).
  cbn [N.eqb Pos.eqb andb orb Z.eqb].
  now rewrite parse_prefix_hex_start.
Qed.

Lemma bytes_hex_length bs : List.length (bytes_hex bs) = (2 * List.length bs)%nat.
Proof.
  induction bs as [|b bs IH]; [reflexivity|].
  unfold bytes_hex in *. cbn [flat_map]. rewrite length_app, IH.
  rewrite to_hex_length. cbn [List.length]. lia.
Qed.

Lemma pad_words_length h :
  (List.length (pad_words h) mod 64 = 0)%nat
  /\ (List.length h <= List.length (pad_words h) < List.length h + 64)%nat.
Proof.
  unfold pad_words. rewrite length_app, repeat_length.
  pose proof (Nat.mod_upper_bound (List.length h) 64 ltac:(lia)) as Hm.
  pose proof (Nat.div_mod_eq (List.length h) 64) as Hd.
  set (q := (List.length h / 64)%nat) in *.
  set (r := (List.length h mod 64)%nat) in *.
  destruct (Nat.eq_dec r 0) as [Hr|Hr].
  - rewrite Hr. change ((64 - 0) mod 64)%nat with 0%nat.
    split; [|lia]. rewrite Nat.add_0_r. exact Hr.
  - rewrite (Nat.mod_small (64 - r)) by lia. split; [|lia].
    replace (List.length h + (64 - r))%nat with (0 + (q + 1) * 64)%nat by lia.
    now rewrite Nat.Div0.mod_add.
Qed.

Lemma abi_block_length bs :
  (List.length (abi_block bs) mod 64 = 0)%nat
  /\ (List.length (abi_block bs) < 2 * List.length bs + 128)%nat.
Proof.
  unfold abi_block. rewrite length_app.
  unfold word_hex at 1 2. rewrite to_hex_length.
  destruct (pad_words_length (bytes_hex bs)) as [Hm [_ Hu]].
  rewrite bytes_hex_length in Hu. split; [|lia].
  replace (64 + List.length (pad_words (bytes_hex bs)))%nat
    with (List.length (pad_words (bytes_hex bs)) + 1 * 64)%nat by lia.
  now rewrite Nat.Div0.mod_add.
Qed.

(** Reading a block back: the declared bytes, without the padding. *)
Lemma abi_block_read bs rest :
  Forall (fun b => 0 <= b < 256) bs ->
  Z.of_nat (List.length bs) < 2 ^ 256 ->
  hexToString
    (firstn (Z.to_nat (2 * hex_value (word_hex (Z.of_nat (List.length bs)))))
       (pad_words (bytes_hex bs) ++ rest))
  = List.map Z.to_N bs.
Proof.
  intros Hb Hl. rewrite word_hex_value by lia.
  replace (Z.to_nat (2 * Z.of_nat (List.length bs)))
    with (List.length (bytes_hex bs)) by (rewrite bytes_hex_length; lia).
  unfold pad_words. rewrite <- app_assoc.
  rewrite firstn_app_exact by reflexivity.
  now apply hexToString_bytes.
Qed.

(** What [getTokenName] and [getTokenVersion] make of an encoded string. *)
Lemma abi_string_return_read bs :
  Forall (fun b => 0 <= b < 256) bs ->
  Z.of_nat (List.length bs) < 2 ^ 50 ->
  abi_string (abi_string_return bs) = List.map Z.to_N bs.
Proof.
  intros Hb Hl. unfold abi_string_return, abi_block.
  assert (H50 : 2 ^ 50 < 2 ^ 256) by (apply Z.pow_lt_mono_r; lia).
  rewrite abi_string_declared.
  - rewrite <- (app_nil_r (pad_words (bytes_hex bs))).
    rewrite abi_block_read by (assumption || lia). reflexivity.
  - change (lit "0x" ++ ?x) with (48%N :: 120%N :: x).
    cbn [List.length]. rewrite !length_app.
    unfold word_hex. rewrite !to_hex_length.
    destruct (pad_words_length (bytes_hex bs)) as [_ [_ Hu]].
    rewrite bytes_hex_length in Hu.
    assert (2 ^ 50 * 4 = 2 ^ 52) by reflexivity. lia.
  - apply to_hex_length.
  - apply to_hex_string.
Qed.

(** ** Names and domains, decoded from their ABI encoding *)

Section AbiRoundTrips.
Context {World : Type}.
Variable provider : EIP1193Provider World.
Variable VERSION_SELECTOR : jsstring.

(** X1. When [name()] returns the ABI encoding of a byte string (offset
    word, length word, the bytes, zero padding), [getTokenName] resolves
    with exactly that string, one code unit a byte, after a single request;
    the padding never shows. *)
Theorem getTokenName_decodes_abi_string :
  forall token (st : St World) w' bs,
    Forall (fun b => 0 <= b < 256) bs ->
    Z.of_nat (List.length bs) < 2 ^ 50 ->
    request provider (eth_call token NAME_SELECTOR) (world st)
    = (inr (abi_string_return bs), w') ->
    getTokenName provider token st
    = (inr (List.map Z.to_N bs),
       mkSt w' (trace st ++ [eth_call token NAME_SELECTOR])).
Proof.
  intros token st w' bs Hb Hl Hreq.
  rewrite (getTokenName_run provider token st _ _ Hreq).
  now rewrite abi_string_return_read.
Qed.

(** X2. [getTokenVersion] never rejects and sends one request. A failed
    [version()] call gives ["1"]; return data that encode a string give that
    string; and empty return data (["0x"]) give the empty string, not the
    default. *)
Theorem getTokenVersion_never_rejects :
  forall token (st : St World),
  exists version w',
    getTokenVersion VERSION_SELECTOR provider token st
    = (inr version,
       mkSt w' (trace st ++ [eth_call token VERSION_SELECTOR]))
    /\ (forall e,
          fst (request provider (eth_call token VERSION_SELECTOR) (world st))
          = inl e ->
          version = lit "1")
    /\ (fst (request provider (eth_call token VERSION_SELECTOR) (world st))
        = inr (lit "0x") ->
        version = [])
    /\ (forall bs,
          Forall (fun b => 0 <= b < 256) bs ->
          Z.of_nat (List.length bs) < 2 ^ 50 ->
          fst (request provider (eth_call token VERSION_SELECTOR) (world st))
          = inr (abi_string_return bs) ->
          version = List.map Z.to_N bs).
Proof.
  intros token st.
  destruct (request provider (eth_call token VERSION_SELECTOR) (world st))
    as [o w'] eqn:Hreq.
  eexists _, w'. split.
  - exact (getTokenVersion_run provider VERSION_SELECTOR token st o w' Hreq).
  - cbn [fst]. split; [|split].
    + intros e ->. reflexivity.
    + intros ->. reflexivity.
    + intros bs Hb Hl ->. now apply abi_string_return_read.
Qed.

Lemma skipn_words7 (w0 w1 w2 w3 w4 w5 w6 rest : jsstring) :
  List.length w0 = 64%nat -> List.length w1 = 64%nat ->
  List.length w2 = 64%nat -> List.length w3 = 64%nat ->
  List.length w4 = 64%nat -> List.length w5 = 64%nat ->
  List.length w6 = 64%nat ->
  skipn 448 (w0 ++ w1 ++ w2 ++ w3 ++ w4 ++ w5 ++ w6 ++ rest) = rest.
Proof.
  intros H0 H1 H2 H3 H4 H5 H6.
  replace (w0 ++ w1 ++ w2 ++ w3 ++ w4 ++ w5 ++ w6 ++ rest)
    with ((w0 ++ w1 ++ w2 ++ w3 ++ w4 ++ w5 ++ w6) ++ rest)
    by (now rewrite <- !app_assoc).
  apply skipn_app_exact. rewrite !length_app. lia.
Qed.

Lemma decodeEip712Domain_return :
  forall tokenAddress fields name version chainId contract salt,
    Forall (fun b => 0 <= b < 256) name ->
    Forall (fun b => 0 <= b < 256) version ->
    Z.of_nat (List.length name) < 2 ^ 40 ->
    Z.of_nat (List.length version) < 2 ^ 40 ->
    0 <= chainId < 2 ^ 53 ->
    decodeEip712Domain
      (eip712Domain_return fields name version chainId contract salt)
      tokenAddress
    = inr {| EvmPermitAllowance.name := List.map Z.to_N name;
             EvmPermitAllowance.version := List.map Z.to_N version;
             EvmPermitAllowance.chainId := Fin chainId;
             verifyingContract := tokenAddress |}.
Proof.
  intros tokenAddress fields name version chainId contract salt
    Hname Hversion Hln Hlv Hc.
  assert (H40 : 2 ^ 40 < 2 ^ 53) by (apply Z.pow_lt_mono_r; lia).
  assert (H53 : 2 ^ 53 < 2 ^ 256) by (apply Z.pow_lt_mono_r; lia).
  assert (H42 : 2 ^ 40 * 4 < 2 ^ 52) by reflexivity.
  destruct (abi_block_length name) as [Hnm Hnu].
  destruct (abi_block_length version) as [Hvm Hvu].
  set (nb := abi_block name) in *. set (vb := abi_block version) in *.
  set (vo := 224 + Z.of_nat (List.length nb) / 2).
  set (eo := vo + Z.of_nat (List.length vb) / 2).
  assert (Hvo : 2 * vo = 448 + Z.of_nat (List.length nb)).
  { unfold vo. apply Nat.Div0.mod_divides in Hnm as [k Hk]. rewrite Hk.
    rewrite Nat2Z.inj_mul.
    replace (Z.of_nat 64 * Z.of_nat k) with (Z.of_nat k * 32 * 2) by lia.
    rewrite Z.div_mul by lia. lia. }
  set (w0 := to_hex 2 fields ++ repeat 48%N 62).
  assert (Hw0 : List.length w0 = 64%nat)
    by (unfold w0; rewrite length_app, to_hex_length, repeat_length; reflexivity).
  set (tail := word_hex contract ++ word_hex salt ++ word_hex eo
               ++ nb ++ vb ++ word_hex 0).
  destruct (decodeEip712Domain_fields
              (lit "0x" ++ w0 ++ word_hex 224 ++ word_hex vo
               ++ word_hex chainId ++ tail)
              tokenAddress w0 (word_hex 224) (word_hex vo) (word_hex chainId)
              tail eq_refl)
    as (d & Hd & Hcid & Hvc & Hn & Hv);
    try apply to_hex_string; try assumption.
  { change (lit "0x" ++ ?x) with (48%N :: 120%N :: x).
    unfold tail. cbn [List.length]. rewrite !length_app.
    unfold word_hex. rewrite !to_hex_length. lia. }
  change (eip712Domain_return fields name version chainId contract salt)
    with (lit "0x" ++ w0 ++ word_hex 224 ++ word_hex vo
          ++ word_hex chainId ++ tail).
  rewrite Hd. f_equal.
  assert (Hname' : EvmPermitAllowance.name d = List.map Z.to_N name).
  { rewrite (Hn (word_hex (Z.of_nat (List.length name)))
               (pad_words (bytes_hex name) ++ vb ++ word_hex 0)).
    - apply abi_block_read; [assumption|lia].
    - rewrite word_hex_value by lia. change (Z.to_nat (2 * 224)) with 448%nat.
      unfold tail. rewrite skipn_words7
        by (assumption || (unfold word_hex; apply to_hex_length)).
      unfold nb, abi_block. now rewrite <- app_assoc.
    - apply to_hex_string. }
  assert (Hversion' : EvmPermitAllowance.version d = List.map Z.to_N version).
  { rewrite (Hv (word_hex (Z.of_nat (List.length version)))
               (pad_words (bytes_hex version) ++ word_hex 0)).
    - apply abi_block_read; [assumption|lia].
    - rewrite word_hex_value by lia. rewrite Hvo.
      replace (Z.to_nat (448 + Z.of_nat (List.length nb)))
        with (List.length nb + 448)%nat by lia.
      rewrite <- skipn_skipn. unfold tail. rewrite skipn_words7
        by (assumption || (unfold word_hex; apply to_hex_length)).
      rewrite skipn_app_exact by reflexivity.
      unfold vb, abi_block. now rewrite <- app_assoc.
    - apply to_hex_string. }
  destruct d as [dn dv dc dvc].
  cbn [EvmPermitAllowance.name EvmPermitAllowance.version
       EvmPermitAllowance.chainId verifyingContract]
    in Hcid, Hvc, Hname', Hversion'.
  subst. f_equal. rewrite word_hex_value by lia.
  apply round_double_exact. lia.
Qed.

(** X3. [decodeEip712Domain] inverts the ABI encoding of an
    [eip712Domain()] return value for the name, the version and the chain
    id, whatever the fields byte, the salt and the lengths of the two
    strings; the [verifyingContract] it returns is the token address it was
    called with, not the address in the return data. [getEip712Domain]
    then resolves with that domain after one request: [name()], [version()]
    and [eth_chainId] are not called. *)
Theorem getEip712Domain_decodes_abi_tuple :
  forall token fields name version chainId contract salt,
    Forall (fun b => 0 <= b < 256) name ->
    Forall (fun b => 0 <= b < 256) version ->
    Z.of_nat (List.length name) < 2 ^ 40 ->
    Z.of_nat (List.length version) < 2 ^ 40 ->
    0 <= chainId < 2 ^ 53 ->
    let result :=
      eip712Domain_return fields name version chainId contract salt in
    let domain :=
      {| EvmPermitAllowance.name := List.map Z.to_N name;
         EvmPermitAllowance.version := List.map Z.to_N version;
         EvmPermitAllowance.chainId := Fin chainId;
         verifyingContract := token |} in
    decodeEip712Domain result token = inr domain
    /\ forall (st : St World) w',
         request provider (eth_call token EIP712_DOMAIN_SELECTOR) (world st)
         = (inr result, w') ->
         getEip712Domain VERSION_SELECTOR provider token st
         = (inr domain,
            mkSt w' (trace st ++ [eth_call token EIP712_DOMAIN_SELECTOR])).
Proof.
  intros token fields name version chainId contract salt
    Hname Hversion Hln Hlv Hc result domain.
  assert (Hd : decodeEip712Domain result token = inr domain)
    by now apply decodeEip712Domain_return.
  split; [exact Hd|]. intros st w' Hreq.
  now apply getEip712Domain_primary with (result := result).
Qed.

(** X4. Return data too short to hold the chain id word (at most 194
    characters, ["0x"] included: an empty answer, or up to three words) make
    [decodeEip712Domain] throw a SyntaxError; [getEip712Domain] catches it
    and takes the field-by-field path, as it does when the call fails. *)
Theorem getEip712Domain_short_data_falls_back :
  forall token result,
    (List.length result <= 194)%nat ->
    decodeEip712Domain result token = inl SyntaxError
    /\ forall (st : St World) w1,
         request provider (eth_call token EIP712_DOMAIN_SELECTOR) (world st)
         = (inr result, w1) ->
         getEip712Domain VERSION_SELECTOR provider token st
         = fallback provider VERSION_SELECTOR token
             (mkSt w1 (trace st ++ [eth_call token EIP712_DOMAIN_SELECTOR])).
Proof.
  intros token result Hlen.
  assert (Hd : decodeEip712Domain result token = inl SyntaxError).
  { unfold decodeEip712Domain.
    change (Fin 2) with (Fin (Z.of_nat 2)). rewrite slice_from_nat.
    change (Fin 192) with (Fin (Z.of_nat 192)).
    change (Fin 256) with (Fin (Z.of_nat 256)). rewrite slice_nat.
    rewrite (skipn_all2 (n:=192%nat)) by (rewrite length_skipn; lia).
    rewrite firstn_nil. reflexivity. }
  split; [exact Hd|]. intros st w1 Hreq.
  now apply getEip712Domain_decode_fails with (result := result) (e := SyntaxError).
Qed.
End AbiRoundTrips.

Lemma getTokenName_decodes_abi_string_witness :
  getTokenName (Mock.provider Mock.plain_token) Mock.token Mock.start
  = (inr (lit "USD Coin"), mkSt 1%nat [eth_call Mock.token NAME_SELECTOR]).
Proof.
  apply (getTokenName_decodes_abi_string (Mock.provider Mock.plain_token)
           Mock.token Mock.start 1%nat [85; 83; 68; 32; 67; 111; 105; 110]).
  - repeat constructor; discriminate.
  - reflexivity.
  - reflexivity.
Defined.

Lemma getTokenVersion_never_rejects_witness :
  getTokenVersion Mock.VERSION_SELECTOR (Mock.provider Mock.no_contract)
    Mock.token Mock.start
  = (inr [], mkSt 1%nat [eth_call Mock.token Mock.VERSION_SELECTOR])
  /\ getTokenVersion Mock.VERSION_SELECTOR (Mock.provider Mock.plain_token)
       Mock.token Mock.start
     = (inr (lit "1"), mkSt 1%nat [eth_call Mock.token Mock.VERSION_SELECTOR]).
Proof.
  split.
  - destruct (getTokenVersion_never_rejects (Mock.provider Mock.no_contract)
                Mock.VERSION_SELECTOR Mock.token Mock.start)
      as (version & w' & Hrun & _ & Hempty & _).
    rewrite Hrun, (Hempty eq_refl). vm_compute in Hrun.
    now injection Hrun as _ <-.
  - destruct (getTokenVersion_never_rejects (Mock.provider Mock.plain_token)
                Mock.VERSION_SELECTOR Mock.token Mock.start)
      as (version & w' & Hrun & Hfail & _).
    rewrite Hrun, (Hfail Mock.rejected eq_refl). vm_compute in Hrun.
    now injection Hrun as _ <-.
Defined.

Lemma getEip712Domain_decodes_abi_tuple_witness :
  getEip712Domain Mock.VERSION_SELECTOR (Mock.provider Mock.eip5267_token)
    Mock.token Mock.start
  = (inr {| name := lit "USD Coin";
            version := lit "2";
            chainId := Fin 1;
            verifyingContract := Mock.token |},
     mkSt 1%nat [eth_call Mock.token EIP712_DOMAIN_SELECTOR]).
Proof.
  apply (proj2 (getEip712Domain_decodes_abi_tuple
                  (Mock.provider Mock.eip5267_token) Mock.VERSION_SELECTOR
                  Mock.token 15 [85; 83; 68; 32; 67; 111; 105; 110] [50] 1
                  (hex_value (lit "a0b86991c6218b36c1d19d4a2e9eb0ce3606eb48"))
                  0
                  ltac:(repeat constructor; discriminate)
                  ltac:(repeat constructor; discriminate)
                  eq_refl eq_refl ltac:(split; [discriminate|reflexivity]))
           Mock.start 1%nat).
  reflexivity.
Defined.

Lemma getEip712Domain_short_data_falls_back_witness :
  getEip712Domain Mock.VERSION_SELECTOR (Mock.provider Mock.no_contract)
    Mock.token Mock.start
  = (inr {| name := [];
            version := [];
            chainId := Fin 1;
            verifyingContract := Mock.token |},
     mkSt 4%nat [eth_call Mock.token EIP712_DOMAIN_SELECTOR;
                 eth_call Mock.token NAME_SELECTOR;
                 eth_call Mock.token Mock.VERSION_SELECTOR;
                 eth_chainId]).
Proof.
  rewrite (proj2 (getEip712Domain_short_data_falls_back
                    (Mock.provider Mock.no_contract) Mock.VERSION_SELECTOR
                    Mock.token (lit "0x") ltac:(simpl; lia))
             Mock.start 1%nat eq_refl).
  reflexivity.
Defined.

(** ** Nonce, allowance and their call data *)

Lemma padStart_length s n c :
  List.length (padStart s n c) = Nat.max n (List.length s).
Proof. unfold padStart. rewrite length_app, repeat_length. lia. Qed.

Section NonceAndAllowance.
Context {World : Type}.
Variable provider : EIP1193Provider World.
Variable toLowerCase : jsstring -> jsstring.

Lemma getERC20Nonce_run token owner (st : St World) o w' :
  request provider (eth_call token (nonces_call toLowerCase owner)) (world st)
  = (o, w') ->
  getERC20Nonce toLowerCase provider token owner st
  = (match o with inl e => inl e | inr result => inr (parseInt result 16) end,
     mkSt w' (trace st ++ [eth_call token (nonces_call toLowerCase owner)])).
Proof.
  intros H. unfold getERC20Nonce, bind. fold (nonces_call toLowerCase owner).
  rewrite (provider_request_run provider _ _ _ _ H). now destruct o.
Qed.

Lemma getERC20Allowance_run token owner spender (st : St World) o w' :
  request provider
    (eth_call token (allowance_call toLowerCase owner spender)) (world st)
  = (o, w') ->
  getERC20Allowance toLowerCase provider token owner spender st
  = (match o with
     | inl e => inl e
     | inr result =>
         match BigInt result with
         | Some b => inr (BigInt_toString b)
         | None => inl SyntaxError
         end
     end,
     mkSt w' (trace st
              ++ [eth_call token (allowance_call toLowerCase owner spender)])).
Proof.
  intros H. unfold getERC20Allowance, bind, lift, ret, BigInt_or_throw.
  fold (allowance_call toLowerCase owner spender).
  rewrite (provider_request_run provider _ _ _ _ H).
  destruct o as [e|result]; [reflexivity|]. now destruct (BigInt result).
Qed.

(** X5. [getERC20Nonce] reads the returned uint256 word with [parseInt]: it
    resolves with the nonce itself when the nonce is below [2^53] and with
    the nearest Number otherwise, and when the node answers with empty data
    (["0x"]) it resolves with [NaN] instead of rejecting. *)
Theorem getERC20Nonce_reads_word :
  forall token owner (st : St World) result w',
    request provider (eth_call token (nonces_call toLowerCase owner)) (world st)
    = (inr result, w') ->
    let st' :=
      mkSt w' (trace st ++ [eth_call token (nonces_call toLowerCase owner)]) in
    (forall w, result = lit "0x" ++ w -> hex_string 64 w ->
       getERC20Nonce toLowerCase provider token owner st
       = (inr (Number (hex_value w)), st')
       /\ (hex_value w < 2 ^ 53 -> Number (hex_value w) = Fin (hex_value w)))
    /\ (result = lit "0x" ->
        getERC20Nonce toLowerCase provider token owner st = (inr NaN, st')).
Proof.
  intros token owner st result w' Hreq st'.
  rewrite (getERC20Nonce_run token owner st _ _ Hreq). fold st'. split.
  - intros w -> Hw. split.
    + rewrite parseInt_0x_hex; [reflexivity|apply Hw|].
      eapply (hex_string_nonempty 63), Hw.
    + intros Hlt. pose proof (hex_value_bound 64 w Hw).
      apply round_double_exact. lia.
  - intros ->. reflexivity.
Qed.

(** X6. [getERC20Allowance] keeps every bit of the returned uint256 word: it
    resolves with a decimal string that [BigInt] reads back as the word's
    value, whatever its size. Empty return data (["0x"]) make it reject with
    a SyntaxError, and so they do [checkERC20Allowance]; a required amount
    that is not an integer literal makes [checkERC20Allowance] reject as
    well, after the request has been made. *)
Theorem getERC20Allowance_is_exact :
  forall token owner spender (st : St World) result w',
    request provider
      (eth_call token (allowance_call toLowerCase owner spender)) (world st)
    = (inr result, w') ->
    let st' :=
      mkSt w' (trace st
               ++ [eth_call token (allowance_call toLowerCase owner spender)])
    in
    (forall w, result = lit "0x" ++ w -> hex_string 64 w ->
       exists allowance,
         getERC20Allowance toLowerCase provider token owner spender st
         = (inr allowance, st')
         /\ BigInt allowance = Some (hex_value w))
    /\ (result = lit "0x" ->
        getERC20Allowance toLowerCase provider token owner spender st
        = (inl SyntaxError, st')
        /\ forall required,
             checkERC20Allowance toLowerCase provider token owner spender
               required st
             = (inl SyntaxError, st'))
    /\ (forall required,
          BigInt result <> None -> BigInt required = None ->
          checkERC20Allowance toLowerCase provider token owner spender
            required st
          = (inl SyntaxError, st')).
Proof.
  intros token owner spender st result w' Hreq st'.
  pose proof (getERC20Allowance_run token owner spender st _ _ Hreq) as Hrun.
  fold st' in Hrun. split; [|split].
  - intros w -> Hw. rewrite Hrun.
    rewrite BigInt_0x_hex by (apply Hw || eapply (hex_string_nonempty 63), Hw).
    eexists. split; [reflexivity|]. apply BigInt_toString_roundtrip.
  - intros ->. split; [exact Hrun|]. intros required.
    unfold checkERC20Allowance. unfold bind at 1. now rewrite Hrun.
  - intros required Hres Hreqd.
    unfold checkERC20Allowance. unfold bind at 1. rewrite Hrun.
    destruct (BigInt result) as [b|]; [|contradiction].
    unfold bind, lift, BigInt_or_throw.
    now rewrite BigInt_toString_roundtrip, Hreqd.
Qed.

(** X7. The call data are the selector followed by one 32-byte word an
    address: 12 zero bytes, then the 20 address bytes in lower case. Nothing
    checks an address: a longer one is not cut, it makes the call data
    longer. *)
Theorem call_data_layout :
  (forall owner spender,
     List.length (allowance_call toLowerCase owner spender)
     = (10 + Nat.max 64 (List.length (toLowerCase (slice_from owner (Fin 2))))
        + Nat.max 64 (List.length (toLowerCase (slice_from spender (Fin 2)))))%nat
     /\ List.length (nonces_call toLowerCase owner)
        = (10 + Nat.max 64
                  (List.length (toLowerCase (slice_from owner (Fin 2)))))%nat)
  /\ (forall o s,
        List.length (toLowerCase o) = 40%nat ->
        List.length (toLowerCase s) = 40%nat ->
        allowance_call toLowerCase (lit "0x" ++ o) (lit "0x" ++ s)
        = ALLOWANCE_SELECTOR ++ (repeat 48%N 24 ++ toLowerCase o)
          ++ (repeat 48%N 24 ++ toLowerCase s)
        /\ nonces_call toLowerCase (lit "0x" ++ o)
           = NONCES_SELECTOR ++ (repeat 48%N 24 ++ toLowerCase o))
  /\ (forall o t s,
        toLowerCase (lit "0x" ++ o) = lit "0x" ++ toLowerCase o ->
        toLowerCase (lit "0x" ++ t) = lit "0x" ++ toLowerCase t ->
        toLowerCase (lit "0x" ++ s) = lit "0x" ++ toLowerCase s ->
        List.length (toLowerCase o) = 40%nat ->
        List.length (toLowerCase t) = 40%nat ->
        List.length (toLowerCase s) = 40%nat ->
        Permit2.encodeAllowanceCall toLowerCase
          (lit "0x" ++ o) (lit "0x" ++ t) (lit "0x" ++ s)
        = Permit2.PERMIT2_ALLOWANCE_SELECTOR
          ++ (repeat 48%N 24 ++ toLowerCase o)
          ++ (repeat 48%N 24 ++ toLowerCase t)
          ++ (repeat 48%N 24 ++ toLowerCase s)).
Proof.
  split; [|split].
  - intros owner spender. unfold allowance_call, nonces_call.
    rewrite !length_app, !padStart_length. split; reflexivity.
  - intros o s Ho Hs. unfold allowance_call, nonces_call.
    rewrite !strip_0x. unfold padStart. rewrite Ho, Hs. split; reflexivity.
  - intros o t s Eo Et Es Ho Ht Hs. unfold Permit2.encodeAllowanceCall.
    rewrite Eo, Et, Es, !replace_0x. unfold padStart. rewrite Ho, Ht, Hs.
    reflexivity.
Qed.
End NonceAndAllowance.

Lemma getERC20Nonce_reads_word_witness :
  getERC20Nonce Mock.lower
    (Mock.provider
       (Mock.script (inl Mock.rejected) (inl Mock.rejected)
          (inl Mock.rejected) (inr (lit "0x" ++ word_hex 7))
          (inl Mock.declined)))
    Mock.token Mock.owner Mock.start
  = (inr (Fin 7),
     mkSt 1%nat [eth_call Mock.token (nonces_call Mock.lower Mock.owner)])
  /\ getERC20Nonce Mock.lower (Mock.provider Mock.no_contract)
       Mock.token Mock.owner Mock.start
     = (inr NaN,
        mkSt 1%nat [eth_call Mock.token (nonces_call Mock.lower Mock.owner)]).
Proof.
  split.
  - destruct (proj1 (getERC20Nonce_reads_word
                       (Mock.provider
                          (Mock.script (inl Mock.rejected) (inl Mock.rejected)
                             (inl Mock.rejected) (inr (lit "0x" ++ word_hex 7))
                             (inl Mock.declined)))
                       Mock.lower Mock.token Mock.owner Mock.start
                       (lit "0x" ++ word_hex 7) 1%nat eq_refl)
                (word_hex 7) eq_refl ltac:(split; reflexivity)) as [Hrun Hfin].
    rewrite Hrun, Hfin; reflexivity.
  - apply (proj2 (getERC20Nonce_reads_word
                    (Mock.provider Mock.no_contract) Mock.lower Mock.token
                    Mock.owner Mock.start (lit "0x") 1%nat eq_refl)).
    reflexivity.
Defined.

Lemma getERC20Allowance_is_exact_witness :
  getERC20Allowance Mock.lower
    (Mock.provider
       (Mock.script (inl Mock.rejected) (inl Mock.rejected)
          (inl Mock.rejected) (inr (lit "0x" ++ word_hex (2 ^ 256 - 1)))
          (inl Mock.declined)))
    Mock.token Mock.owner Mock.spender Mock.start
  = (inr (lit "115792089237316195423570985008687907853269984665640564039457584007913129639935"),
     mkSt 1%nat
       [eth_call Mock.token
          (allowance_call Mock.lower Mock.owner Mock.spender)])
  /\ checkERC20Allowance Mock.lower (Mock.provider Mock.no_contract)
       Mock.token Mock.owner Mock.spender (lit "1") Mock.start
     = (inl SyntaxError,
        mkSt 1%nat
          [eth_call Mock.token
             (allowance_call Mock.lower Mock.owner Mock.spender)])
  /\ checkERC20Allowance Mock.lower (Mock.provider Mock.plain_token)
       Mock.token Mock.owner Mock.spender (lit "1.5") Mock.start
     = (inl SyntaxError,
        mkSt 1%nat
          [eth_call Mock.token
             (allowance_call Mock.lower Mock.owner Mock.spender)]).
Proof.
  split; [|split].
  - destruct (proj1 (getERC20Allowance_is_exact
                       (Mock.provider
                          (Mock.script (inl Mock.rejected) (inl Mock.rejected)
                             (inl Mock.rejected)
                             (inr (lit "0x" ++ word_hex (2 ^ 256 - 1)))
                             (inl Mock.declined)))
                       Mock.lower Mock.token Mock.owner Mock.spender
                       Mock.start (lit "0x" ++ word_hex (2 ^ 256 - 1)) 1%nat
                       eq_refl)
                (word_hex (2 ^ 256 - 1)) eq_refl ltac:(split; reflexivity))
      as (allowance & Hrun & _).
    rewrite Hrun. vm_compute in Hrun. injection Hrun as <-. reflexivity.
  - apply (proj2 (proj1 (proj2 (getERC20Allowance_is_exact
                    (Mock.provider Mock.no_contract) Mock.lower Mock.token
                    Mock.owner Mock.spender Mock.start (lit "0x") 1%nat
                    eq_refl)) eq_refl)).
  - apply (proj2 (proj2 (getERC20Allowance_is_exact
                    (Mock.provider Mock.plain_token) Mock.lower Mock.token
                    Mock.owner Mock.spender Mock.start
                    (lit "0x" ++ word_hex 5000000) 1%nat eq_refl))).
    + discriminate.
    + reflexivity.
Defined.

Lemma call_data_layout_witness :
  nonces_call Mock.lower Mock.owner
  = lit "0x7ecebe00000000000000000000000000aaaaaaaaaaaaaaaaaaaaaaaaaaaaaaaaaaaaaaaa"
  /\ List.length (allowance_call Mock.lower Mock.owner Mock.spender)
     = 138%nat
  /\ List.length
       (Permit2.encodeAllowanceCall Mock.lower Mock.owner Mock.token
          Mock.spender)
     = 202%nat.
Proof.
  split; [|split].
  - refine (eq_trans
              (proj2 (proj1 (proj2 (call_data_layout Mock.lower))
                        (lit "aaaaaaaaaaaaaaaaaaaaaaaaaaaaaaaaaaaaaaaa")
                        (lit "bbbbbbbbbbbbbbbbbbbbbbbbbbbbbbbbbbbbbbbb")
                        eq_refl eq_refl)) _).
    reflexivity.
  - rewrite (proj1 (proj1 (call_data_layout Mock.lower) Mock.owner
                      Mock.spender)).
    reflexivity.
  - refine (eq_trans
              (f_equal (@List.length code_unit)
                 (proj2 (proj2 (call_data_layout Mock.lower))
                    (lit "aaaaaaaaaaaaaaaaaaaaaaaaaaaaaaaaaaaaaaaa")
                    (lit "a0b86991c6218b36c1d19d4a2e9eb0ce3606eb48")
                    (lit "bbbbbbbbbbbbbbbbbbbbbbbbbbbbbbbbbbbbbbbb")
                    eq_refl eq_refl eq_refl eq_refl eq_refl eq_refl)) _).
    reflexivity.
Defined.

(** ** The requests of a permit signature *)

Section DomainRequests.
Context {World : Type}.
Variable provider : EIP1193Provider World.
Variable VERSION_SELECTOR : jsstring.

Lemma fallback_trace token (st1 st' : St World) o :
  fallback provider VERSION_SELECTOR token st1 = (o, st') ->
  trace st' = trace st1 ++ [eth_call token NAME_SELECTOR]
  \/ trace st' = trace st1 ++ [eth_call token NAME_SELECTOR;
                               eth_call token VERSION_SELECTOR;
                               eth_chainId].
Proof.
  intros Hf.
  destruct (request provider (eth_call token NAME_SELECTOR) (world st1))
    as [on w2] eqn:Hn.
  destruct (request provider (eth_call token VERSION_SELECTOR) w2)
    as [ov w3] eqn:Hv.
  destruct (request provider eth_chainId w3) as [oc w4] eqn:Hc.
  rewrite (fallback_run provider VERSION_SELECTOR token st1
             on w2 ov w3 oc w4 Hn Hv Hc) in Hf.
  destruct on; injection Hf as _ <-; auto.
Qed.

Lemma getEip712Domain_trace token (st st' : St World) o :
  getEip712Domain VERSION_SELECTOR provider token st = (o, st') ->
  exists sent,
    trace st' = trace st ++ eth_call token EIP712_DOMAIN_SELECTOR :: sent
    /\ In sent [[];
                [eth_call token NAME_SELECTOR];
                [eth_call token NAME_SELECTOR;
                 eth_call token VERSION_SELECTOR;
                 eth_chainId]].
Proof.
  intros H.
  assert (Hfb : forall w1,
    fallback provider VERSION_SELECTOR token
      (mkSt w1 (trace st ++ [eth_call token EIP712_DOMAIN_SELECTOR]))
    = (o, st') ->
    exists sent,
      trace st' = trace st ++ eth_call token EIP712_DOMAIN_SELECTOR :: sent
      /\ In sent [[];
                  [eth_call token NAME_SELECTOR];
                  [eth_call token NAME_SELECTOR;
                   eth_call token VERSION_SELECTOR;
                   eth_chainId]]).
  { intros w1 Hf. apply fallback_trace in Hf. cbn [trace] in Hf.
    rewrite <- !app_assoc in Hf. cbn [app] in Hf.
    destruct Hf as [Hf|Hf]; eexists; (split; [exact Hf|]); cbn; auto. }
  destruct (request provider (eth_call token EIP712_DOMAIN_SELECTOR) (world st))
    as [[e0|result] w1] eqn:Hd.
  - rewrite (getEip712Domain_call_fails provider VERSION_SELECTOR token st e0 w1 Hd)
      in H. eauto.
  - destruct (decodeEip712Domain result token) as [e0|d] eqn:Hdec.
    + rewrite (getEip712Domain_decode_fails provider VERSION_SELECTOR token st
                 result e0 w1 Hd Hdec) in H. eauto.
    + rewrite (getEip712Domain_primary provider VERSION_SELECTOR token st
                 result w1 Hd d Hdec) in H.
      injection H as _ <-. exists []. cbn; auto.
Qed.

Lemma getEip712Domain_rejects token (st st' : St World) e :
  getEip712Domain VERSION_SELECTOR provider token st = (inl e, st') ->
  exists r w, fst (request provider r w) = inl e.
Proof.
  intros H.
  assert (Hfb : forall st1,
    fallback provider VERSION_SELECTOR token st1 = (inl e, st') ->
    exists r w, fst (request provider r w) = inl e).
  { intros st1 Hf.
    destruct (request provider (eth_call token NAME_SELECTOR) (world st1))
      as [on w2] eqn:Hn.
    destruct (request provider (eth_call token VERSION_SELECTOR) w2)
      as [ov w3] eqn:Hv.
    destruct (request provider eth_chainId w3) as [oc w4] eqn:Hc.
    rewrite (fallback_run provider VERSION_SELECTOR token st1
               on w2 ov w3 oc w4 Hn Hv Hc) in Hf.
    destruct on as [en|rn].
    - injection Hf as -> _. exists (eth_call token NAME_SELECTOR), (world st1).
      now rewrite Hn.
    - destruct oc as [ec|c]; [|discriminate].
      injection Hf as -> _. exists eth_chainId, w3. now rewrite Hc. }
  destruct (request provider (eth_call token EIP712_DOMAIN_SELECTOR) (world st))
    as [[e0|result] w1] eqn:Hd.
  - rewrite (getEip712Domain_call_fails provider VERSION_SELECTOR token st e0 w1 Hd)
      in H. eauto.
  - destruct (decodeEip712Domain result token) as [e0|d] eqn:Hdec.
    + rewrite (getEip712Domain_decode_fails provider VERSION_SELECTOR token st
                 result e0 w1 Hd Hdec) in H. eauto.
    + rewrite (getEip712Domain_primary provider VERSION_SELECTOR token st
                 result w1 Hd d Hdec) in H. discriminate.
Qed.
End DomainRequests.

Section PermitRequests.
Context {World : Type}.
Variable VERSION_SELECTOR : jsstring.
Variable JSON_stringify : json -> jsstring.

(** X8. Account discovery in [signERC20Permit]: when [eth_accounts] answers
    an empty list, [eth_requestAccounts] is asked next; when that answers an
    empty list too, the call rejects with "No connected accounts" after
    exactly these two requests; a rejection of either request is the
    rejection of the call, and nothing is sent after it. *)
Theorem signERC20Permit_account_discovery :
  forall T (params : SignERC20PermitParams) (st : St World),
    let run := signERC20Permit VERSION_SELECTOR JSON_stringify T params st in
    let provider := p_provider params in
    (forall e w1,
       request provider eth_accounts (world st) = (inl e, w1) ->
       run = (inl e, mkSt w1 (trace st ++ [eth_accounts])))
    /\ (forall w1 o w2,
          request provider eth_accounts (world st) = (inr [], w1) ->
          request provider eth_requestAccounts w1 = (o, w2) ->
          match o with
          | inl e =>
              run = (inl e,
                     mkSt w2 (trace st ++ [eth_accounts; eth_requestAccounts]))
          | inr [] =>
              run = (inl (Error (lit "No connected accounts")),
                     mkSt w2 (trace st ++ [eth_accounts; eth_requestAccounts]))
          | inr (_ :: _) =>
              exists sent,
                trace (snd run)
                = trace st ++ eth_accounts :: eth_requestAccounts
                    :: eth_call (p_tokenAddress params) EIP712_DOMAIN_SELECTOR
                    :: sent
          end).
Proof.
  intros T params st run provider. subst run provider. split.
  - intros e w1 H. unfold signERC20Permit. unfold bind at 1.
    now rewrite (provider_request_run _ _ _ _ _ H).
  - intros w1 o w2 H1 H2.
    assert (Hrun : signERC20Permit VERSION_SELECTOR JSON_stringify T params st
      = match o with
        | inl e =>
            (inl e, mkSt w2 (trace st ++ [eth_accounts; eth_requestAccounts]))
        | inr accounts =>
            match accounts with
            | [] => throw (Error (lit "No connected accounts"))
            | account0 :: _ =>
                let signerAddress :=
                  signer_of (p_signerAddress params) account0 in
                domainInfo <-
                  getEip712Domain VERSION_SELECTOR (p_provider params)
                    (p_tokenAddress params) ;;
                signature <-
                  provider_request (p_provider params)
                    (eth_signTypedData_v4 signerAddress
                       (JSON_stringify
                          (permitTypedData domainInfo (p_chainId params)
                             (p_tokenAddress params) signerAddress
                             (p_spenderAddress params) (p_value params)
                             (p_nonce params)
                             (nadd (Fin (T / 1000))
                                (nmul (match p_deadlineMinutes params with
                                       | Some m => m
                                       | None => Fin 60
                                       end) (Fin 60)))))) ;;
                ret {| permitSignature :=
                         {| value := p_value params;
                            deadline :=
                              nadd (Fin (T / 1000))
                                (nmul (match p_deadlineMinutes params with
                                       | Some m => m
                                       | None => Fin 60
                                       end) (Fin 60));
                            v := sig_v (parseSignature signature);
                            r := sig_r (parseSignature signature);
                            s := sig_s (parseSignature signature) |};
                       signerAddress := signerAddress |}
            end (mkSt w2 (trace st ++ [eth_accounts; eth_requestAccounts]))
        end).
    { unfold signERC20Permit. unfold bind at 1.
      rewrite (provider_request_run _ _ _ _ _ H1). unfold bind at 1.
      rewrite (provider_request_run _ eth_requestAccounts (mkSt w1 _) _ _ H2).
      cbn [trace]. rewrite <- !app_assoc. cbn [app].
      destruct o; reflexivity. }
    destruct o as [e|[|account0 rest]]; [exact Hrun|exact Hrun|].
    rewrite Hrun. cbv zeta. unfold bind at 1.
    destruct (getEip712Domain VERSION_SELECTOR (p_provider params)
                (p_tokenAddress params) _) as [od st3] eqn:Hd.
    apply getEip712Domain_trace in Hd. destruct Hd as (sent & Ht & _).
    cbn [trace] in Ht.
    destruct od as [e|domainInfo].
    + exists sent. cbn [snd]. rewrite Ht, <- app_assoc. reflexivity.
    + unfold bind, provider_request, ret.
      match goal with
      | |- context [request ?p ?r ?w] => destruct (request p r w) as [[e|sig] w4]
      end; cbn [snd trace]; rewrite Ht, <- !app_assoc; cbn [app];
        eexists; reflexivity.
Qed.

(** X9. What [signERC20Permit] sends, in every run: [eth_accounts] first;
    [eth_requestAccounts] only after an empty answer to it; then the requests
    of the domain resolution, all to the token; and last, at most once, the
    signature request. A call that resolves has sent the signature request,
    and a call whose signature request was sent has sent nothing after it. *)
Theorem signERC20Permit_requests :
  forall T (params : SignERC20PermitParams) (st st' : St World) o,
    signERC20Permit VERSION_SELECTOR JSON_stringify T params st = (o, st') ->
    let token := p_tokenAddress params in
    exists ask domain sign,
      trace st' = trace st ++ [eth_accounts] ++ ask ++ domain ++ sign
      /\ (ask = []
          \/ ask = [eth_requestAccounts]
             /\ fst (request (p_provider params) eth_accounts (world st))
                = inr [])
      /\ In domain
           [[];
            [eth_call token EIP712_DOMAIN_SELECTOR];
            [eth_call token EIP712_DOMAIN_SELECTOR;
             eth_call token NAME_SELECTOR];
            [eth_call token EIP712_DOMAIN_SELECTOR;
             eth_call token NAME_SELECTOR;
             eth_call token VERSION_SELECTOR;
             eth_chainId]]
      /\ (sign = [] /\ (exists e, o = inl e)
          \/ exists signer typedData,
               sign = [eth_signTypedData_v4 signer (JSON_stringify typedData)]).
Proof.
  intros T params st st' o H token. subst token.
  unfold signERC20Permit in H. unfold bind at 1 in H.
  destruct (request (p_provider params) eth_accounts (world st))
    as [oa w1] eqn:Ha.
  rewrite (provider_request_run _ _ _ _ _ Ha) in H.
  destruct oa as [e|accounts0].
  { injection H as <- <-. exists [], [], []. cbn [trace app fst].
    split; [reflexivity|]. split; [now left|]. split; [cbn; auto|].
    left. eauto. }
  unfold bind at 1 in H.
  assert (Hask : exists ask oacc st2,
    match accounts0 with
    | [] => provider_request (p_provider params) eth_requestAccounts
    | _ :: _ => ret accounts0
    end (mkSt w1 (trace st ++ [eth_accounts])) = (oacc, st2)
    /\ trace st2 = trace st ++ [eth_accounts] ++ ask
    /\ (ask = [] /\ (forall l, oacc = inr l -> l <> [])
        \/ ask = [eth_requestAccounts] /\ accounts0 = [])).
  { destruct accounts0 as [|a0 rest].
    - destruct (request (p_provider params) eth_requestAccounts w1)
        as [oacc w2] eqn:Hr.
      rewrite (provider_request_run _ eth_requestAccounts (mkSt w1 _) _ _ Hr).
      eexists [eth_requestAccounts], oacc, _. split; [reflexivity|].
      cbn [trace]. rewrite <- app_assoc. split; [reflexivity|]. now right.
    - eexists [], _, _. split; [reflexivity|]. cbn [trace].
      split; [reflexivity|]. left. split; [reflexivity|].
      intros l [= <-]. discriminate. }
  destruct Hask as (ask & oacc & st2 & Hrun & Ht2 & Hcase). rewrite Hrun in H.
  assert (Hask' : ask = []
                  \/ ask = [eth_requestAccounts]
                     /\ fst (inr accounts0 : exn + list jsstring, w1) = inr []).
  { destruct Hcase as [[-> _]|[-> ->]]; [now left|now right]. }
  destruct oacc as [e|[|account0 rest]].
  { injection H as <- <-. exists ask, [], []. rewrite Ht2, !app_nil_r.
    split; [reflexivity|]. split; [exact Hask'|]. split; [cbn; auto|].
    left. eauto. }
  { injection H as <- <-. exists ask, [], []. rewrite Ht2, !app_nil_r.
    split; [reflexivity|]. split; [exact Hask'|]. split; [cbn; auto|].
    left. eauto. }
  unfold bind at 1 in H.
  destruct (getEip712Domain VERSION_SELECTOR (p_provider params)
              (p_tokenAddress params) st2) as [od st3] eqn:Hd.
  apply getEip712Domain_trace in Hd. destruct Hd as (sent & Ht3 & Hsent).
  assert (Hdom : In (eth_call (p_tokenAddress params) EIP712_DOMAIN_SELECTOR
                     :: sent)
                   [[];
                    [eth_call (p_tokenAddress params) EIP712_DOMAIN_SELECTOR];
                    [eth_call (p_tokenAddress params) EIP712_DOMAIN_SELECTOR;
                     eth_call (p_tokenAddress params) NAME_SELECTOR];
                    [eth_call (p_tokenAddress params) EIP712_DOMAIN_SELECTOR;
                     eth_call (p_tokenAddress params) NAME_SELECTOR;
                     eth_call (p_tokenAddress params) VERSION_SELECTOR;
                     eth_chainId]]).
  { cbn in Hsent. destruct Hsent as [<-|[<-|[<-|[]]]]; cbn; auto. }
  destruct od as [e|domainInfo].
  { injection H as <- <-.
    exists ask, (eth_call (p_tokenAddress params) EIP712_DOMAIN_SELECTOR :: sent),
      [].
    rewrite Ht3, Ht2, app_nil_r, <- !app_assoc. split; [reflexivity|]. split; [exact Hask'|].
    split; [exact Hdom|]. left. eauto. }
  unfold bind, provider_request, ret in H.
  match type of H with
  | context [request ?p ?r ?w] => destruct (request p r w) as [os w4]
  end.
  assert (Hst : trace st' = trace st3 ++ [eth_signTypedData_v4
    (match p_signerAddress params with
     | Some (c :: a) => c :: a
     | _ => account0
     end)
    (JSON_stringify
       (permitTypedData domainInfo (p_chainId params) (p_tokenAddress params)
          (match p_signerAddress params with
           | Some (c :: a) => c :: a
           | _ => account0
           end)
          (p_spenderAddress params) (p_value params) (p_nonce params)
          (nadd (Fin (T / 1000))
             (nmul (match p_deadlineMinutes params with
                    | Some m => m
                    | None => Fin 60
                    end) (Fin 60)))))]).
  { destruct os; injection H as _ <-; reflexivity. }
  exists ask, (eth_call (p_tokenAddress params) EIP712_DOMAIN_SELECTOR :: sent).
  eexists. rewrite Hst, Ht3, Ht2, <- !app_assoc.
  split; [reflexivity|]. split; [exact Hask'|]. split; [exact Hdom|].
  right. eauto.
Qed.

(** X10. Whatever [signERC20Permit] rejects with is either its own
    "No connected accounts" or an error the provider raised on one of its
    requests; it raises no parse error of its own, whatever the return data
    and the signature look like. *)
Theorem signERC20Permit_error_origin :
  forall T (params : SignERC20PermitParams) (st st' : St World) e,
    signERC20Permit VERSION_SELECTOR JSON_stringify T params st
    = (inl e, st') ->
    e = Error (lit "No connected accounts")
    \/ exists r w, fst (request (p_provider params) r w) = inl e.
Proof.
  intros T params st st' e H.
  unfold signERC20Permit in H. unfold bind at 1 in H.
  destruct (request (p_provider params) eth_accounts (world st))
    as [oa w1] eqn:Ha.
  rewrite (provider_request_run _ _ _ _ _ Ha) in H.
  destruct oa as [e0|accounts0].
  { injection H as -> _. right. exists eth_accounts, (world st).
    now rewrite Ha. }
  unfold bind at 1 in H.
  assert (Hask : forall e0 st2,
    match accounts0 with
    | [] => provider_request (p_provider params) eth_requestAccounts
    | _ :: _ => ret accounts0
    end (mkSt w1 (trace st ++ [eth_accounts])) = (inl e0, st2) ->
    exists r w, fst (request (p_provider params) r w) = inl e0).
  { intros e0 st2. destruct accounts0; [|discriminate].
    unfold provider_request. cbn [world].
    destruct (request (p_provider params) eth_requestAccounts w1)
      as [o2 w2] eqn:Hr.
    intros [= -> _]. exists eth_requestAccounts, w1. now rewrite Hr. }
  destruct (match accounts0 with
            | [] => provider_request (p_provider params) eth_requestAccounts
            | _ :: _ => ret accounts0
            end (mkSt w1 (trace st ++ [eth_accounts])))
    as [[e0|[|account0 rest]] st2].
  { injection H as -> _. right. eapply Hask. reflexivity. }
  { injection H as <- _. now left. }
  clear Hask. unfold bind at 1 in H.
  destruct (getEip712Domain VERSION_SELECTOR (p_provider params)
              (p_tokenAddress params) st2) as [[e0|domainInfo] st3] eqn:Hd.
  { injection H as -> _. right. eapply getEip712Domain_rejects. exact Hd. }
  unfold bind, provider_request, ret in H.
  match type of H with
  | context [request ?p ?r ?w] =>
      destruct (request p r w) as [[e0|sig] w4] eqn:Hs
  end; [|discriminate].
  injection H as -> _. right. eexists _, _. now rewrite Hs.
Qed.
End PermitRequests.

Lemma signERC20Permit_account_discovery_witness :
  signERC20Permit Mock.VERSION_SELECTOR Mock.stringify 1700000000123
    (Mock.permit_params Mock.no_accounts (lit "USD Coin")) Mock.start
  = (inl (Error (lit "No connected accounts")),
     mkSt 2%nat [eth_accounts; eth_requestAccounts]).
Proof.
  apply (proj2 (signERC20Permit_account_discovery Mock.VERSION_SELECTOR
                  Mock.stringify 1700000000123
                  (Mock.permit_params Mock.no_accounts (lit "USD Coin"))
                  Mock.start)
           1%nat (inr []) 2%nat eq_refl eq_refl).
Defined.

Lemma signERC20Permit_requests_witness :
  List.length
    (trace (snd (signERC20Permit Mock.VERSION_SELECTOR Mock.stringify
                   1700000000123
                   (Mock.permit_params Mock.asks_first (lit "USD Coin"))
                   Mock.start))) = 7%nat
  /\ exists ask domain sign,
       trace (snd (signERC20Permit Mock.VERSION_SELECTOR Mock.stringify
                     1700000000123
                     (Mock.permit_params Mock.asks_first (lit "USD Coin"))
                     Mock.start))
       = [eth_accounts] ++ ask ++ domain ++ sign
       /\ (List.length ask <= 1)%nat
       /\ (List.length domain <= 4)%nat
       /\ (List.length sign <= 1)%nat.
Proof.
  split; [reflexivity|].
  destruct (signERC20Permit_requests Mock.VERSION_SELECTOR Mock.stringify
              1700000000123
              (Mock.permit_params Mock.asks_first (lit "USD Coin"))
              Mock.start _ _ (surjective_pairing _))
    as (ask & domain & sign & Htrace & Hask & Hdomain & Hsign).
  exists ask, domain, sign. split; [exact Htrace|]. split; [|split].
  - destruct Hask as [->|[-> _]]; simpl; lia.
  - destruct Hdomain as [<-|[<-|[<-|[<-|[]]]]]; simpl; lia.
  - destruct Hsign as [[-> _]|(signer & typedData & ->)]; simpl; lia.
Defined.

Lemma signERC20Permit_error_origin_witness :
  exists e st',
    signERC20Permit Mock.VERSION_SELECTOR Mock.stringify 1700000000123
      (Mock.permit_params Mock.asks_first (lit "USD Coin")) Mock.start
    = (inl e, st')
    /\ (e = Error (lit "No connected accounts")
        \/ exists r w,
             fst (request (Mock.provider Mock.asks_first) r w) = inl e).
Proof.
  destruct (signERC20Permit Mock.VERSION_SELECTOR Mock.stringify
              1700000000123
              (Mock.permit_params Mock.asks_first (lit "USD Coin"))
              Mock.start) as [[e|res] st'] eqn:Hrun;
    [|vm_compute in Hrun; discriminate].
  exists e, st'. split; [reflexivity|].
  exact (signERC20Permit_error_origin Mock.VERSION_SELECTOR Mock.stringify
           1700000000123
           (Mock.permit_params Mock.asks_first (lit "USD Coin"))
           Mock.start st' e Hrun).
Defined.

(** ** What is signed, and for how long *)

Lemma deadline_exact T m :
  Z.abs (m * 60) < 2 ^ 53 -> Z.abs (T / 1000 + m * 60) < 2 ^ 53 ->
  nadd (Fin (T / 1000)) (nmul (Fin m) (Fin 60)) = Fin (T / 1000 + m * 60).
Proof. intros H1 H2. rewrite nmul_exact by assumption. now apply nadd_exact. Qed.

Lemma option_default d (o : option Z) :
  match option_map Fin o with Some n => n | None => Fin d end
  = Fin (or_default d o).
Proof. now destruct o. Qed.

Lemma isPermitValid_exact T d buffer :
  Z.abs (T / 1000 + or_default 30 buffer) < 2 ^ 53 ->
  isPermitValid T (Fin d) (option_map Fin buffer)
  = (T / 1000 + or_default 30 buffer <? d).
Proof.
  intros H. unfold isPermitValid. rewrite option_default.
  now rewrite nadd_exact.
Qed.

Lemma isSignatureValid_exact T d buffer :
  Z.abs (T / 1000 + or_default 30 buffer) < 2 ^ 53 ->
  Permit2.isSignatureValid T (Fin d) (option_map Fin buffer)
  = (T / 1000 + or_default 30 buffer <? d).
Proof.
  intros H. unfold Permit2.isSignatureValid. rewrite option_default.
  now rewrite nadd_exact.
Qed.

Lemma isBlockhashValid_exact T e buffer :
  Z.abs (T + or_default 10000 buffer) < 2 ^ 53 ->
  isBlockhashValid T (Fin e) (option_map Fin buffer)
  = (T + or_default 10000 buffer <? e).
Proof.
  intros H. unfold isBlockhashValid. rewrite option_default.
  now rewrite nadd_exact.
Qed.

Lemma nlt_nan_r x : nlt x NaN = false.
Proof. now destruct x. Qed.

Section SignedData.
Context {World : Type}.
Variable VERSION_SELECTOR : jsstring.
Variable JSON_stringify : json -> jsstring.

(** X11. What a resolved [signERC20Permit] has signed. The signer is the
    non-empty [signerAddress] parameter when there is one, whether or not
    the wallet listed it, and otherwise the first account the wallet listed;
    the signature request is addressed to that signer, the message's owner
    is that signer and the result reports it. The domain's chain id and
    verifying contract are the [chainId] and [tokenAddress] parameters, not
    what the domain resolution found; spender, value and nonce are the
    parameters; [v], [r], [s] are parsed from the wallet's answer. *)
Theorem signERC20Permit_signs_as :
  forall T (params : SignERC20PermitParams) (st st' : St World) res,
    signERC20Permit VERSION_SELECTOR JSON_stringify T params st
    = (inr res, st') ->
    let provider := p_provider params in
    exists account0 rest typedData signature before w,
      (fst (request provider eth_accounts (world st)) = inr (account0 :: rest)
       \/ fst (request provider eth_accounts (world st)) = inr []
          /\ fst (request provider eth_requestAccounts
                    (snd (request provider eth_accounts (world st))))
             = inr (account0 :: rest))
      /\ signerAddress res
         = match p_signerAddress params with
           | Some (c :: a) => c :: a
           | _ => account0
           end
      /\ request provider
           (eth_signTypedData_v4 (signerAddress res)
              (JSON_stringify typedData)) w
         = (inr signature, world st')
      /\ trace st'
         = before ++ [eth_signTypedData_v4 (signerAddress res)
                        (JSON_stringify typedData)]
      /\ jpath typedData ["primaryType"]%string
         = Some (JString (lit "Permit"))
      /\ jpath typedData ["message"; "owner"]%string
         = Some (JString (signerAddress res))
      /\ jpath typedData ["message"; "spender"]%string
         = Some (JString (p_spenderAddress params))
      /\ jpath typedData ["message"; "value"]%string
         = Some (JString (p_value params))
      /\ jpath typedData ["message"; "nonce"]%string
         = Some (JNumber (p_nonce params))
      /\ jpath typedData ["domain"; "chainId"]%string
         = Some (JNumber (p_chainId params))
      /\ jpath typedData ["domain"; "verifyingContract"]%string
         = Some (JString (p_tokenAddress params))
      /\ value (permitSignature res) = p_value params
      /\ v (permitSignature res) = sig_v (parseSignature signature)
      /\ r (permitSignature res) = sig_r (parseSignature signature)
      /\ s (permitSignature res) = sig_s (parseSignature signature).
Proof.
  intros T params st st' res H provider. subst provider.
  unfold signERC20Permit in H. unfold bind at 1 in H.
  destruct (request (p_provider params) eth_accounts (world st))
    as [oa w1] eqn:Ha.
  rewrite (provider_request_run _ _ _ _ _ Ha) in H.
  destruct oa as [e|accounts0]; [discriminate|].
  unfold bind at 1 in H. cbn [fst snd].
  assert (Hask : forall l st2,
    match accounts0 with
    | [] => provider_request (p_provider params) eth_requestAccounts
    | _ :: _ => ret accounts0
    end (mkSt w1 (trace st ++ [eth_accounts])) = (inr l, st2) ->
    (inr accounts0 : exn + list jsstring) = inr l
    \/ (inr accounts0 : exn + list jsstring) = inr []
       /\ fst (request (p_provider params) eth_requestAccounts w1) = inr l).
  { intros l st2. destruct accounts0 as [|a0 r0].
    - unfold provider_request. cbn [world].
      destruct (request (p_provider params) eth_requestAccounts w1)
        as [o2 w2]. intros [= -> _]. now right.
    - intros [= <- _]. now left. }
  destruct (match accounts0 with
            | [] => provider_request (p_provider params) eth_requestAccounts
            | _ :: _ => ret accounts0
            end (mkSt w1 (trace st ++ [eth_accounts])))
    as [[e|[|account0 rest]] st2]; try discriminate.
  specialize (Hask _ _ eq_refl).
  unfold bind at 1 in H.
  destruct (getEip712Domain VERSION_SELECTOR (p_provider params)
              (p_tokenAddress params) st2) as [[e|domainInfo] st3];
    [discriminate|].
  unfold bind, provider_request, ret in H.
  match type of H with
  | context [request ?p ?r ?w] =>
      destruct (request p r w) as [[e|sig] w4] eqn:Hs
  end; [discriminate|].
  injection H as <- <-. cbn [signerAddress permitSignature value v r s trace world].
  eexists account0, rest, _, sig, (trace st3), (world st3).
  split; [exact Hask|]. split; [reflexivity|]. split; [exact Hs|].
  repeat (split; [reflexivity|]). reflexivity.
Qed.

(** X12. [signPermit2] asks the wallet for nothing but the signature.
    Without a signer address (none, or an empty one) it rejects with
    "signerAddress is required" before any request is made. With one, it
    sends exactly one request, the signature request to that signer, over
    typed data whose domain is named "Permit2", has no version, and carries
    the [chainId] and [permit2Address] parameters; a rejection by the wallet
    is the rejection of the call, and the wallet's answer is returned as the
    signature, unparsed. *)
Theorem signPermit2_sends_one_request :
  forall T (params : Permit2.SignPermit2Params) (st : St World),
    let run := Permit2.signPermit2 JSON_stringify T params st in
    (Permit2.p_signerAddress params = None
     \/ Permit2.p_signerAddress params = Some [] ->
     run = (inl (Error (lit "signerAddress is required")), st))
    /\ (forall c a,
          Permit2.p_signerAddress params = Some (c :: a) ->
          exists typedData,
            jpath typedData ["primaryType"]%string
            = Some (JString (lit "PermitSingle"))
            /\ jpath typedData ["domain"; "name"]%string
               = Some (JString (lit "Permit2"))
            /\ jpath typedData ["domain"; "version"]%string = None
            /\ jpath typedData ["domain"; "chainId"]%string
               = Some (JNumber (Permit2.p_chainId params))
            /\ jpath typedData ["domain"; "verifyingContract"]%string
               = Some (JString (Permit2.p_permit2Address params))
            /\ jpath typedData ["message"; "details"; "token"]%string
               = Some (JString (Permit2.p_tokenAddress params))
            /\ jpath typedData ["message"; "details"; "amount"]%string
               = Some (JString (Permit2.p_allowanceAmount params))
            /\ jpath typedData ["message"; "details"; "nonce"]%string
               = Some (JNumber (Permit2.p_nonce params))
            /\ jpath typedData ["message"; "spender"]%string
               = Some (JString (Permit2.p_spenderAddress params))
            /\ forall o w',
                 request (Permit2.p_provider params)
                   (eth_signTypedData_v4 (c :: a) (JSON_stringify typedData))
                   (world st)
                 = (o, w') ->
                 snd run
                 = mkSt w'
                     (trace st
                      ++ [eth_signTypedData_v4 (c :: a)
                            (JSON_stringify typedData)])
                 /\ match o with
                    | inl e => fst run = inl e
                    | inr answer =>
                        exists res,
                          fst run = inr res
                          /\ Permit2.signature res = answer
                          /\ Permit2.signerAddress res = c :: a
                          /\ jpath typedData ["message"; "sigDeadline"]%string
                             = Some (JNumber (Permit2.sigDeadline
                                                (Permit2.permitSingle res)))
                          /\ jpath typedData
                               ["message"; "details"; "expiration"]%string
                             = Some (JNumber
                                       (Permit2.d_expiration
                                          (Permit2.details
                                             (Permit2.permitSingle res))))
                    end).
Proof.
  intros T params st run. subst run. split.
  - intros [H|H]; unfold Permit2.signPermit2; rewrite H; reflexivity.
  - intros c a H. unfold Permit2.signPermit2. rewrite H.
    exists (Permit2.permit2TypedData
              {| Permit2.details :=
                   {| Permit2.d_token := Permit2.p_tokenAddress params;
                      Permit2.d_amount := Permit2.p_allowanceAmount params;
                      Permit2.d_expiration :=
                        nadd (Fin (T / 1000))
                          (nmul (nmul (nmul
                             (match Permit2.p_expirationDays params with
                              | Some d => d
                              | None => Fin 30
                              end) (Fin 24)) (Fin 60)) (Fin 60));
                      Permit2.d_nonce := Permit2.p_nonce params |};
                 Permit2.spender := Permit2.p_spenderAddress params;
                 Permit2.sigDeadline :=
                   nadd (Fin (T / 1000))
                     (nmul (match Permit2.p_sigDeadlineMinutes params with
                            | Some m => m
                            | None => Fin 5
                            end) (Fin 60)) |}
              (Permit2.p_chainId params) (Permit2.p_permit2Address params)).
    do 9 (split; [reflexivity|]).
    intros o w' Hreq. unfold bind.
    rewrite (provider_request_run _ _ _ _ _ Hreq).
    destruct o as [e|answer]; cbn [fst snd]; split; try reflexivity.
    eexists. repeat (split; [reflexivity|]). reflexivity.
Qed.

(** X13. A permit is fresh when it has just been signed. A message that
    [signERC20Permit] produced at time [T] with [deadlineMinutes = m] passes
    [isPermitValid] at a later time [T'] with buffer [b] exactly when
    [floor(T'/1000) + b < floor(T/1000) + 60 m]; with the defaults (60
    minutes, 30 seconds) it passes at the time of signing, and with
    [deadlineMinutes = 0] it never does. The same holds for [signPermit2]'s
    [sigDeadline] and [isSignatureValid] (defaults: 5 minutes, 30
    seconds). *)
Theorem signed_deadlines_pass_their_checks :
  (forall T (params : SignERC20PermitParams) (st st' : St World) res minutes,
     p_deadlineMinutes params = option_map Fin minutes ->
     let m := or_default 60 minutes in
     Z.abs (m * 60) < 2 ^ 53 -> Z.abs (T / 1000 + m * 60) < 2 ^ 53 ->
     signERC20Permit VERSION_SELECTOR JSON_stringify T params st
     = (inr res, st') ->
     (forall T' buffer,
        Z.abs (T' / 1000 + or_default 30 buffer) < 2 ^ 53 ->
        isPermitValid T' (deadline (permitSignature res))
          (option_map Fin buffer)
        = (T' / 1000 + or_default 30 buffer <? T / 1000 + m * 60))
     /\ (minutes = None -> 0 <= T ->
         isPermitValid T (deadline (permitSignature res)) None = true)
     /\ (minutes = Some 0 ->
         forall T', T <= T' -> Z.abs (T' / 1000 + 30) < 2 ^ 53 ->
           isPermitValid T' (deadline (permitSignature res)) None = false))
  /\ (forall T (params : Permit2.SignPermit2Params) (st st' : St World) res
        minutes,
        Permit2.p_sigDeadlineMinutes params = option_map Fin minutes ->
        let m := or_default 5 minutes in
        Z.abs (m * 60) < 2 ^ 53 -> Z.abs (T / 1000 + m * 60) < 2 ^ 53 ->
        Permit2.signPermit2 JSON_stringify T params st = (inr res, st') ->
        (forall T' buffer,
           Z.abs (T' / 1000 + or_default 30 buffer) < 2 ^ 53 ->
           Permit2.isSignatureValid T'
             (Permit2.sigDeadline (Permit2.permitSingle res))
             (option_map Fin buffer)
           = (T' / 1000 + or_default 30 buffer <? T / 1000 + m * 60))
        /\ (minutes = None -> 0 <= T ->
            Permit2.isSignatureValid T
              (Permit2.sigDeadline (Permit2.permitSingle res)) None
            = true)).
Proof.
  split.
  - intros T params st st' res minutes Hm m Hm60 Hsum Hrun.
    apply signERC20Permit_success in Hrun.
    destruct Hrun as (account0 & d & stA & stB & sig & _ & _ & _ & ->).
    cbn [permitSignature deadline]. rewrite Hm, option_default. fold m.
    rewrite deadline_exact by assumption.
    assert (Hgen : forall T' buffer,
      Z.abs (T' / 1000 + or_default 30 buffer) < 2 ^ 53 ->
      isPermitValid T' (Fin (T / 1000 + m * 60)) (option_map Fin buffer)
      = (T' / 1000 + or_default 30 buffer <? T / 1000 + m * 60))
      by (intros; now apply isPermitValid_exact).
    split; [exact Hgen|]. split.
    + intros -> HT. subst m. cbn [or_default] in *.
      assert (0 <= T / 1000) by (apply Z.div_pos; lia).
      pose proof (Hgen T None) as H0. cbn [or_default option_map] in H0.
      rewrite H0 by lia. apply Z.ltb_lt. lia.
    + intros -> T' HT HT'. subst m. cbn [or_default] in *.
      pose proof (Hgen T' None) as H0. cbn [or_default option_map] in H0.
      rewrite H0 by exact HT'. apply Z.ltb_ge.
      assert (T / 1000 <= T' / 1000) by (apply Z.div_le_mono; lia). lia.
  - intros T params st st' res minutes Hm m Hm60 Hsum Hrun.
    apply signPermit2_success in Hrun.
    destruct Hrun as (signer & sig & _ & _ & ->).
    cbn [Permit2.permitSingle Permit2.sigDeadline].
    rewrite Hm, option_default. fold m.
    rewrite deadline_exact by assumption.
    assert (Hgen : forall T' buffer,
      Z.abs (T' / 1000 + or_default 30 buffer) < 2 ^ 53 ->
      Permit2.isSignatureValid T' (Fin (T / 1000 + m * 60))
        (option_map Fin buffer)
      = (T' / 1000 + or_default 30 buffer <? T / 1000 + m * 60))
      by (intros; now apply isSignatureValid_exact).
    split; [exact Hgen|].
    intros -> HT. subst m. cbn [or_default] in *.
      assert (0 <= T / 1000) by (apply Z.div_pos; lia).
    pose proof (Hgen T None) as H0. cbn [or_default option_map] in H0.
    rewrite H0 by lia. apply Z.ltb_lt. lia.
Qed.
End SignedData.

Lemma signERC20Permit_signs_as_witness :
  exists res st',
    signERC20Permit Mock.VERSION_SELECTOR Mock.stringify 1700000000123
      (Mock.permit_params Mock.eip5267_token (lit "USD Coin")) Mock.start
    = (inr res, st')
    /\ signerAddress res = Mock.owner
    /\ v (permitSignature res) = Fin 27.
Proof.
  destruct (signERC20Permit Mock.VERSION_SELECTOR Mock.stringify
              1700000000123
              (Mock.permit_params Mock.eip5267_token (lit "USD Coin"))
              Mock.start) as [[e|res] st'] eqn:Hrun;
    [vm_compute in Hrun; discriminate|].
  exists res, st'. split; [reflexivity|].
  destruct (signERC20Permit_signs_as Mock.VERSION_SELECTOR Mock.stringify
              1700000000123
              (Mock.permit_params Mock.eip5267_token (lit "USD Coin"))
              Mock.start st' res Hrun)
    as (account0 & rest & typedData & signature & before & w & Hacc & Hsigner
        & Hsign & _ & _ & _ & _ & _ & _ & _ & _ & _ & Hv & _).
  split.
  - rewrite Hsigner. destruct Hacc as [H|[H _]]; [|discriminate].
    now injection H as <- _.
  - rewrite Hv. cbn in Hsign. injection Hsign as <- _. reflexivity.
Defined.

Lemma signPermit2_sends_one_request_witness :
  Permit2.signPermit2 Mock.stringify 1700000000123
    {| Permit2.p_provider := Mock.provider Mock.eip5267_token;
       Permit2.p_chainId := Fin 43113;
       Permit2.p_permit2Address := Permit2.PERMIT2_ADDRESS;
       Permit2.p_tokenAddress := Mock.token;
       Permit2.p_spenderAddress := Mock.spender;
       Permit2.p_allowanceAmount := lit "1000000";
       Permit2.p_expirationDays := None;
       Permit2.p_sigDeadlineMinutes := None;
       Permit2.p_nonce := Fin 0;
       Permit2.p_signerAddress := None |} Mock.start
  = (inl (Error (lit "signerAddress is required")), Mock.start)
  /\ exists typedData,
       snd (Permit2.signPermit2 Mock.stringify 1700000000123
              (Mock.permit2_params Mock.eip5267_token) Mock.start)
       = mkSt 1%nat
           [eth_signTypedData_v4 Mock.owner (Mock.stringify typedData)].
Proof.
  split.
  - apply (proj1 (signPermit2_sends_one_request Mock.stringify 1700000000123
                    _ Mock.start)).
    now left.
  - destruct (proj2 (signPermit2_sends_one_request Mock.stringify
                       1700000000123
                       (Mock.permit2_params Mock.eip5267_token) Mock.start)
                48%N (List.tl Mock.owner) eq_refl)
      as (typedData & _ & _ & _ & _ & _ & _ & _ & _ & _ & Hrun).
    exists typedData.
    exact (proj1 (Hrun _ 1%nat eq_refl)).
Defined.

Lemma signed_deadlines_pass_their_checks_witness :
  exists res st',
    signERC20Permit Mock.VERSION_SELECTOR Mock.stringify 1700000000123
      (Mock.permit_params Mock.eip5267_token (lit "USD Coin")) Mock.start
    = (inr res, st')
    /\ isPermitValid 1700000000123 (deadline (permitSignature res)) None
       = true
    /\ isPermitValid 1700003569999 (deadline (permitSignature res)) None
       = true
    /\ isPermitValid 1700003570000 (deadline (permitSignature res)) None
       = false.
Proof.
  destruct (signERC20Permit Mock.VERSION_SELECTOR Mock.stringify
              1700000000123
              (Mock.permit_params Mock.eip5267_token (lit "USD Coin"))
              Mock.start) as [[e|res] st'] eqn:Hrun;
    [vm_compute in Hrun; discriminate|].
  exists res, st'. split; [reflexivity|].
  destruct (proj1 (signed_deadlines_pass_their_checks Mock.VERSION_SELECTOR
                     Mock.stringify)
              1700000000123
              (Mock.permit_params Mock.eip5267_token (lit "USD Coin"))
              Mock.start st' res None eq_refl eq_refl eq_refl Hrun)
    as (Hgen & Hnow & _).
  split; [apply Hnow; [reflexivity|discriminate]|].
  split.
  - exact (Hgen 1700003569999 None eq_refl).
  - exact (Hgen 1700003570000 None eq_refl).
Defined.

(** X14. The three freshness checks are strict and only ever expire.
    [isPermitValid] and [isSignatureValid] work in whole seconds: they answer
    [true] exactly when [floor(now/1000) + buffer < deadline], so a deadline
    equal to now plus the buffer fails, and two instants within the same
    second get the same answer. [isBlockhashValid] works in milliseconds:
    [now + buffer < expiresAt]. None of them turns [true] again once it was
    [false] at an earlier time. *)
Theorem freshness_checks_are_strict_and_final :
  forall T T' d buffer,
    T <= T' ->
    Z.abs (T / 1000 + or_default 30 buffer) < 2 ^ 53 ->
    Z.abs (T' / 1000 + or_default 30 buffer) < 2 ^ 53 ->
    Z.abs (T + or_default 10000 buffer) < 2 ^ 53 ->
    Z.abs (T' + or_default 10000 buffer) < 2 ^ 53 ->
    let b := option_map Fin buffer in
    (isPermitValid T (Fin d) b = true <-> T / 1000 + or_default 30 buffer < d)
    /\ Permit2.isSignatureValid T (Fin d) b = isPermitValid T (Fin d) b
    /\ (isBlockhashValid T (Fin d) b = true
        <-> T + or_default 10000 buffer < d)
    /\ isPermitValid T (Fin (T / 1000 + or_default 30 buffer)) b = false
    /\ isBlockhashValid T (Fin (T + or_default 10000 buffer)) b = false
    /\ (T / 1000 = T' / 1000 ->
        isPermitValid T' (Fin d) b = isPermitValid T (Fin d) b)
    /\ (isPermitValid T (Fin d) b = false ->
        isPermitValid T' (Fin d) b = false)
    /\ (isBlockhashValid T (Fin d) b = false ->
        isBlockhashValid T' (Fin d) b = false).
Proof.
  intros T T' d buffer HT H1 H2 H3 H4 b. subst b.
  assert (Hdiv : T / 1000 <= T' / 1000) by (apply Z.div_le_mono; lia).
  rewrite ?isSignatureValid_exact, ?isPermitValid_exact,
    ?isBlockhashValid_exact by assumption.
  rewrite !Z.ltb_lt, !Z.ltb_ge.
  repeat split; try lia.
Qed.

Lemma freshness_checks_are_strict_and_final_witness :
  isPermitValid 1700000000999 (Fin 1700000030) None = false
  /\ isPermitValid 1700000000999 (Fin 1700000031) None = true
  /\ isBlockhashValid 1700000000999 (Fin 1700000010999) None = false
  /\ isBlockhashValid 1700000000999 (Fin 1700000011000) None = true.
Proof.
  destruct (freshness_checks_are_strict_and_final
              1700000000999 1700000001000 1700000031 None
              ltac:(discriminate) eq_refl eq_refl eq_refl eq_refl)
    as (Hp & _ & Hb & Hedge & Hedge' & _).
  split; [exact Hedge|]. split; [apply Hp; reflexivity|].
  split; [exact Hedge'|].
  apply (proj1 (proj2 (proj2 (freshness_checks_are_strict_and_final
                  1700000000999 1700000001000 1700000011000 None
                  ltac:(discriminate) eq_refl eq_refl eq_refl eq_refl)))).
  reflexivity.
Defined.

(** X15. A deadline that is not a number. [isPermitValid],
    [isSignatureValid] and [isBlockhashValid] answer [false] for a [NaN]
    deadline, whatever the time and the buffer, and also for a [NaN] buffer;
    [isAllowanceSufficient] answers [true] for a [NaN] expiration, and for a
    [NaN] buffer, as soon as the amount is enough: its expiry test is
    written the other way round and a comparison with [NaN] is false. *)
Theorem freshness_checks_on_NaN :
  forall T d buffer amount nonce required,
    (isPermitValid T NaN buffer = false
     /\ Permit2.isSignatureValid T NaN buffer = false
     /\ isBlockhashValid T NaN buffer = false)
    /\ (isPermitValid T d (Some NaN) = false
        /\ Permit2.isSignatureValid T d (Some NaN) = false
        /\ isBlockhashValid T d (Some NaN) = false)
    /\ Permit2.isAllowanceSufficient T
         {| Permit2.amount := amount; Permit2.expiration := NaN;
            Permit2.nonce := nonce |} required buffer
       = (required <=? amount)
    /\ Permit2.isAllowanceSufficient T
         {| Permit2.amount := amount; Permit2.expiration := d;
            Permit2.nonce := nonce |} required (Some NaN)
       = (required <=? amount).
Proof.
  intros T d buffer amount nonce required.
  unfold isPermitValid, Permit2.isSignatureValid, isBlockhashValid,
    Permit2.isAllowanceSufficient.
  cbn [Permit2.amount Permit2.expiration]. rewrite !nlt_nan_r.
  repeat split; try reflexivity.
  - destruct (Z.ltb_spec amount required), (Z.leb_spec required amount);
      try lia; reflexivity.
  - replace (nlt d (nadd (Fin (T / 1000)) NaN)) with false
      by (now destruct d).
    destruct (Z.ltb_spec amount required), (Z.leb_spec required amount);
      try lia; reflexivity.
Qed.

(** ** The Permit2 allowance, and the parsers at their edges *)

Lemma is_hex_not_x c : is_hex c = true -> (120 =? c)%N = false.
Proof.
  intros H. apply is_hex_range in H. apply N.eqb_neq. lia.
Qed.

(** A string of hex digits holds no ["0x"]. *)
Lemma replace_0x_absent h :
  forallb is_hex h = true -> replace h (lit "0x") [] = h.
Proof.
  induction h as [|c h IH]; [reflexivity|].
  cbn [forallb]. intros H. apply andb_prop in H as [Hc Hh].
  cbn [replace]. rewrite IH by assumption.
  change (lit "0x") with [48%N; 120%N]. cbn [starts_with].
  destruct h as [|x h']; [now rewrite andb_false_r|].
  cbn [forallb] in Hh. apply andb_prop in Hh as [Hx _].
  rewrite (is_hex_not_x x Hx). cbn [andb]. now rewrite andb_false_r.
Qed.

Section Permit2Call.
Context {World : Type}.
Variable provider : EIP1193Provider World.
Variable toLowerCase : jsstring -> jsstring.

(** X16. [checkPermit2Allowance] makes one [eth_call], to the given Permit2
    address, with the call data of [encodeAllowanceCall]. From the three
    words [(uint160 amount, uint48 expiration, uint48 nonce)] that Permit2
    returns it resolves with exactly these values; when the node returns
    empty data (["0x"], as for an address with no contract) it rejects with
    a SyntaxError; a rejection of the request is the rejection of the
    call. *)
Theorem checkPermit2Allowance_reads_the_contract :
  forall permit2 owner token spender (st : St World) o w',
    let call :=
      eth_call permit2
        (Permit2.encodeAllowanceCall toLowerCase owner token spender) in
    request provider call (world st) = (o, w') ->
    let run :=
      Permit2.checkPermit2Allowance toLowerCase provider permit2 owner token
        spender st in
    snd run = mkSt w' (trace st ++ [call])
    /\ (forall e, o = inl e -> fst run = inl e)
    /\ (o = inr (lit "0x") -> fst run = inl SyntaxError)
    /\ (forall a e n,
          0 <= a < 2 ^ 160 -> 0 <= e < 2 ^ 48 -> 0 <= n < 2 ^ 48 ->
          o = inr (lit "0x" ++ word_hex a ++ word_hex e ++ word_hex n) ->
          fst run = inr {| Permit2.amount := a;
                           Permit2.expiration := Fin e;
                           Permit2.nonce := Fin n |}).
Proof.
  intros permit2 owner token spender st o w' call Hreq run. subst run.
  unfold Permit2.checkPermit2Allowance, bind, lift. fold call.
  rewrite (provider_request_run provider _ _ _ _ Hreq).
  split; [now destruct o|]. split; [now intros e ->|].
  split; [now intros ->|].
  intros a e n Ha He Hn ->. cbn [fst].
  assert (2 ^ 160 < 2 ^ 256) by (apply Z.pow_lt_mono_r; lia).
  assert (2 ^ 48 < 2 ^ 53) by (apply Z.pow_lt_mono_r; lia).
  assert (2 ^ 53 < 2 ^ 256) by (apply Z.pow_lt_mono_r; lia).
  rewrite decodeAllowanceResult_words by apply to_hex_string.
  rewrite !word_hex_value by lia.
  rewrite !round_double_exact by lia. reflexivity.
Qed.

(** X17. The two families treat an address without its ["0x"] differently.
    The ERC-20 helpers drop the first two characters whatever they are, so
    an address given as 40 bare digits loses its first byte and is padded
    with 26 zeros; [encodeAllowanceCall] removes a ["0x"] only where there
    is one and keeps all 40 digits. *)
Theorem bare_address_handling :
  forall a b digits,
    let o := a :: b :: digits in
    List.length (toLowerCase digits) = 38%nat ->
    List.length (toLowerCase o) = 40%nat ->
    forallb is_hex (toLowerCase o) = true ->
    nonces_call toLowerCase o
    = NONCES_SELECTOR ++ repeat 48%N 26 ++ toLowerCase digits
    /\ allowance_call toLowerCase o o
       = ALLOWANCE_SELECTOR ++ (repeat 48%N 26 ++ toLowerCase digits)
         ++ (repeat 48%N 26 ++ toLowerCase digits)
    /\ Permit2.encodeAllowanceCall toLowerCase o o o
       = Permit2.PERMIT2_ALLOWANCE_SELECTOR
         ++ (repeat 48%N 24 ++ toLowerCase o)
         ++ (repeat 48%N 24 ++ toLowerCase o)
         ++ (repeat 48%N 24 ++ toLowerCase o).
Proof.
  intros a b digits o Hd Ho Hhex.
  assert (Hs : slice_from o (Fin 2) = digits).
  { change (Fin 2) with (Fin (Z.of_nat 2)). now rewrite slice_from_nat. }
  unfold nonces_call, allowance_call, Permit2.encodeAllowanceCall.
  rewrite Hs, replace_0x_absent by assumption.
  unfold padStart. rewrite Hd, Ho. repeat split.
Qed.
End Permit2Call.

Lemma checkPermit2Allowance_reads_the_contract_witness :
  Permit2.checkPermit2Allowance Mock.lower
    (Mock.provider Mock.permit2_contract) Permit2.PERMIT2_ADDRESS Mock.owner
    Mock.token Mock.spender Mock.start
  = (inr {| Permit2.amount := 1000000;
            Permit2.expiration := Fin 1700000000;
            Permit2.nonce := Fin 3 |},
     mkSt 1%nat
       [eth_call Permit2.PERMIT2_ADDRESS
          (Permit2.encodeAllowanceCall Mock.lower Mock.owner Mock.token
             Mock.spender)])
  /\ fst (Permit2.checkPermit2Allowance Mock.lower
            (Mock.provider Mock.no_contract) Permit2.PERMIT2_ADDRESS
            Mock.owner Mock.token Mock.spender Mock.start)
     = inl SyntaxError.
Proof.
  split.
  - destruct (checkPermit2Allowance_reads_the_contract
                (Mock.provider Mock.permit2_contract) Mock.lower
                Permit2.PERMIT2_ADDRESS Mock.owner Mock.token Mock.spender
                Mock.start _ 1%nat eq_refl) as (Hst & _ & _ & Hwords).
    specialize (Hwords 1000000 1700000000 3
                  ltac:(split; [discriminate|reflexivity])
                  ltac:(split; [discriminate|reflexivity])
                  ltac:(split; [discriminate|reflexivity]) eq_refl).
    cbv zeta in Hst, Hwords.
    destruct (Permit2.checkPermit2Allowance _ _ _ _ _ _ _) as [o st'].
    cbn [fst snd] in Hst, Hwords. now rewrite Hst, Hwords.
  - apply (proj1 (proj2 (proj2 (checkPermit2Allowance_reads_the_contract
                    (Mock.provider Mock.no_contract) Mock.lower
                    Permit2.PERMIT2_ADDRESS Mock.owner Mock.token Mock.spender
                    Mock.start _ 1%nat eq_refl)))).
    reflexivity.
Defined.

Lemma bare_address_handling_witness :
  nonces_call Mock.lower (lit "aaaaaaaaaaaaaaaaaaaaaaaaaaaaaaaaaaaaaaaa")
  = lit "0x7ecebe0000000000000000000000000000aaaaaaaaaaaaaaaaaaaaaaaaaaaaaaaaaaaaaa"
  /\ Permit2.encodeAllowanceCall Mock.lower
       (lit "aaaaaaaaaaaaaaaaaaaaaaaaaaaaaaaaaaaaaaaa")
       (lit "aaaaaaaaaaaaaaaaaaaaaaaaaaaaaaaaaaaaaaaa")
       (lit "aaaaaaaaaaaaaaaaaaaaaaaaaaaaaaaaaaaaaaaa")
     = Permit2.encodeAllowanceCall Mock.lower Mock.owner Mock.owner Mock.owner.
Proof.
  destruct (bare_address_handling Mock.lower 97%N 97%N
              (lit "aaaaaaaaaaaaaaaaaaaaaaaaaaaaaaaaaaaaaa")
              eq_refl eq_refl eq_refl) as (Hn & _ & Hp).
  split.
  - refine (eq_trans Hn _). reflexivity.
  - refine (eq_trans Hp _). reflexivity.
Defined.

(** X18. [parseSignature] looks at characters 2 to 131 only: the two leading
    characters are dropped unread, and anything after the 65th byte is
    ignored. *)
Theorem parseSignature_reads_130_characters :
  forall prefix body tail,
    List.length prefix = 2%nat -> List.length body = 130%nat ->
    parseSignature (prefix ++ body ++ tail) = parseSignature (lit "0x" ++ body).
Proof.
  intros prefix body tail Hp Hb. unfold parseSignature. rewrite strip_0x.
  assert (Hs : slice_from (prefix ++ body ++ tail) (Fin 2) = body ++ tail).
  { change (Fin 2) with (Fin (Z.of_nat 2)). rewrite slice_from_nat.
    now apply skipn_app_exact. }
  rewrite Hs.
  assert (Hcut : forall a b : nat, (a <= b <= 130)%nat ->
    slice (body ++ tail) (Fin (Z.of_nat a)) (Fin (Z.of_nat b))
    = slice body (Fin (Z.of_nat a)) (Fin (Z.of_nat b))).
  { intros a b Hab. rewrite !slice_nat, skipn_app, firstn_app, length_skipn.
    replace (b - a - (List.length body - a))%nat with 0%nat by lia.
    now rewrite firstn_O, app_nil_r. }
  pose proof (Hcut 0%nat 64%nat ltac:(lia)) as H1.
  pose proof (Hcut 64%nat 128%nat ltac:(lia)) as H2.
  pose proof (Hcut 128%nat 130%nat ltac:(lia)) as H3.
  change (Z.of_nat 0) with 0 in H1. change (Z.of_nat 64) with 64 in H1, H2.
  change (Z.of_nat 128) with 128 in H2, H3.
  change (Z.of_nat 130) with 130 in H3.
  now rewrite H1, H2, H3.
Qed.

Lemma parseSignature_reads_130_characters_witness :
  parseSignature (Mock.signature_with 28 ++ lit "beef")
  = parseSignature (Mock.signature_with 28).
Proof.
  apply (parseSignature_reads_130_characters (lit "0x")
           (to_hex 64 17 ++ to_hex 64 34 ++ to_hex 2 28) (lit "beef"));
    reflexivity.
Defined.


(** X19. [hexToString] reads two characters a byte and checks nothing: the
    result has one code unit for every pair and one more for an odd last
    character; it goes through a concatenation at an even position; and on
    hex digits every unit it yields is a byte value below 256, read as a
    character of its own (no UTF-8 decoding). *)
Theorem hexToString_shape :
  (forall h, List.length (hexToString h) = ((List.length h + 1) / 2)%nat)
  /\ (forall h1 h2,
        Nat.even (List.length h1) = true ->
        hexToString (h1 ++ h2) = hexToString h1 ++ hexToString h2)
  /\ (forall h,
        forallb is_hex h = true ->
        Forall (fun c => (c < 256)%N) (hexToString h)).
Proof.
  split; [|split].
  - intros h. induction h as [|a|a b rest IH] using list_ind2; try reflexivity.
    cbn [hexToString List.length]. rewrite IH.
    match goal with
    | |- S ((?l + 1) / 2)%nat = _ => generalize l
    end.
    intros n.
    replace (S (S n) + 1)%nat with (n + 1 + 1 * 2)%nat by lia.
    rewrite Nat.div_add by lia. lia.
  - intros h1. induction h1 as [|a|a b rest IH] using list_ind2; intros h2 He.
    + reflexivity.
    + discriminate.
    + cbn [app hexToString]. rewrite IH; [reflexivity|exact He].
  - assert (Hunit : forall w n, hex_string (S n) w -> (n < 2)%nat ->
      (fromCharCode (parseInt w 16) < 256)%N).
    { intros w n Hw Hn. rewrite (parseInt_hex_string n) by assumption.
      pose proof (hex_value_bound (S n) w Hw) as Hb.
      assert (16 ^ Z.of_nat (S n) <= 256).
      { destruct n as [|[|n]]; [cbn; lia|cbn; lia|lia]. }
      rewrite round_double_exact
        by (change (2 ^ 53) with 9007199254740992; lia).
      cbn [fromCharCode]. rewrite Z.mod_small by lia. lia. }
    intros h. induction h as [|a|a b rest IH] using list_ind2; intros Hh.
    + constructor.
    + cbn [hexToString]. constructor; [|constructor].
      apply (Hunit [a] 0%nat); [split; [reflexivity|exact Hh]|lia].
    + cbn [forallb] in Hh. apply andb_prop in Hh as [Ha Hh].
      apply andb_prop in Hh as [Hb Hh].
      cbn [hexToString]. constructor; [|now apply IH].
      apply (Hunit [a; b] 1%nat); [split; [reflexivity|]|lia].
      cbn [forallb]. now rewrite Ha, Hb.
Qed.

Lemma hexToString_shape_witness :
  hexToString (lit "e282ac") = [226; 130; 172]%N
  /\ Forall (fun c => (c < 256)%N) (hexToString (lit "e282ac"))
  /\ List.length (hexToString (lit "e282a")) = 3%nat.
Proof.
  destruct hexToString_shape as (Hlen & Happ & Hbyte).
  split; [|split].
  - refine (eq_trans (Happ (lit "e282") (lit "ac") eq_refl) _). reflexivity.
  - apply Hbyte. reflexivity.
  - refine (eq_trans (Hlen (lit "e282a")) _). reflexivity.
Defined.

(** ** Wallet discovery *)

Section DiscoveryOrder.
Context {World : Type}.
Variable win : Window World.

Lemma connected_as_iff w p expected :
  connected_as win w p expected = true
  <-> isConnected win w p = inr true
      /\ publicKey win w p = inr (Some expected).
Proof.
  split; [apply connected_as_true|].
  intros [Hc Hk]. unfold connected_as. rewrite Hc, Hk.
  now apply str_eqb_eq.
Qed.

Lemma find_loop_first w providers expected :
  match find_loop win w providers expected with
  | Some p =>
      qualifies win w expected p
      /\ exists before after,
           providers = before ++ p :: after
           /\ Forall (fun q => ~ qualifies win w expected q) before
  | None => Forall (fun q => ~ qualifies win w expected q) providers
  end.
Proof.
  induction providers as [|q rest IH]; [constructor|]. cbn [find_loop].
  assert (Hskip : (installed win w q = false
                   \/ connected_as win w q expected = false) ->
                  ~ qualifies win w expected q).
  { intros [Hi|Hc] (Hi' & Hc' & Hk').
    - congruence.
    - assert (connected_as win w q expected = true)
        by (apply connected_as_iff; auto). congruence. }
  assert (Hrest : (installed win w q = false
                   \/ connected_as win w q expected = false) ->
    match find_loop win w rest expected with
    | Some p =>
        qualifies win w expected p
        /\ exists before after,
             q :: rest = before ++ p :: after
             /\ Forall (fun q => ~ qualifies win w expected q) before
    | None => Forall (fun q => ~ qualifies win w expected q) (q :: rest)
    end).
  { intros Hq. destruct (find_loop win w rest expected) as [p|].
    - destruct IH as (Hp & before & after & -> & Hb). split; [exact Hp|].
      exists (q :: before), after. split; [reflexivity|].
      constructor; auto.
    - constructor; auto. }
  destruct (installed win w q) eqn:Hi; cbn [negb]; [|now apply Hrest; left].
  destruct (connected_as win w q expected) eqn:Hc; [|now apply Hrest; right].
  apply connected_as_iff in Hc as [Hc Hk].
  split; [repeat split; assumption|]. exists [], rest. split; [reflexivity|].
  constructor.
Qed.

(** X20. [findConnectedProvider] returns the first wallet, in the order
    Phantom, Solflare, OKX, Coinbase, Backpack, whose global is there, which
    is connected and whose public key reads as the expected address; a read
    that throws counts as no match. It returns nothing exactly when no
    wallet is such. *)
Theorem findConnectedProvider_first_match :
  forall w expected,
    match findConnectedProvider win w expected with
    | Some p =>
        qualifies win w expected p
        /\ exists before after,
             wallet_order = before ++ p :: after
             /\ Forall (fun q => ~ qualifies win w expected q) before
    | None => forall p, ~ qualifies win w expected p
    end.
Proof.
  intros w expected. unfold findConnectedProvider.
  pose proof (find_loop_first w wallet_order expected) as H.
  unfold wallet_order in H at 1 2.
  destruct (find_loop win w _ expected) as [p|]; [exact H|].
  intros p. rewrite Forall_forall in H. apply H.
  destruct p; cbn; auto 6.
Qed.
End DiscoveryOrder.

Section ConnectEffects.
Context {World : Type}.

Lemma find_loop_ext (win1 win2 : Window World) w providers expected :
  (forall p, installed win1 w p = installed win2 w p) ->
  (forall p, isConnected win1 w p = isConnected win2 w p) ->
  (forall p, publicKey win1 w p = publicKey win2 w p) ->
  find_loop win1 w providers expected = find_loop win2 w providers expected.
Proof.
  intros Hi Hc Hk. induction providers as [|q rest IH]; [reflexivity|].
  cbn [find_loop]. unfold connected_as. now rewrite Hi, Hc, Hk, IH.
Qed.

(** X21. [connectSolanaWallet] starts a connection with Phantom and with
    Solflare only. Two windows that read alike and whose Phantom and
    Solflare answer [connect()] alike give the same result and end in the
    same state, whatever the [connect()] of OKX, Coinbase and Backpack would
    do; and with neither Phantom nor Solflare installed, and no wallet
    already connected as expected, the call rejects and has changed
    nothing. *)
Theorem connectSolanaWallet_connects_two_wallets_only :
  (forall (win1 win2 : Window World),
     (forall w p, installed win1 w p = installed win2 w p) ->
     (forall w p, isConnected win1 w p = isConnected win2 w p) ->
     (forall w p, publicKey win1 w p = publicKey win2 w p) ->
     (forall w, connect win1 phantom w = connect win2 phantom w) ->
     (forall w, connect win1 solflare w = connect win2 solflare w) ->
     forall expected w,
       connectSolanaWallet win1 expected w
       = connectSolanaWallet win2 expected w)
  /\ (forall (win : Window World) expected w,
        (forall p, ~ qualifies win w expected p) ->
        installed win w phantom = false ->
        installed win w solflare = false ->
        connectSolanaWallet win expected w = (inl (not_found expected), w)).
Proof.
  split.
  - intros win1 win2 Hi Hc Hk Hp Hs expected w.
    unfold connectSolanaWallet, findConnectedProvider.
    rewrite (find_loop_ext win1 win2) by auto.
    destruct (find_loop win2 w _ expected); [reflexivity|].
    rewrite Hi, Hp.
    destruct (if installed win2 w phantom
              then match connect win2 phantom w with
                   | (inr (Some key), w') => (str_eqb key expected, w')
                   | (inr None, w') => (false, w')
                   | (inl _, w') => (false, w')
                   end
              else (false, w)) as [[|] w1]; [reflexivity|].
    rewrite Hi, Hs.
    destruct (installed win2 w1 solflare); [|reflexivity].
    destruct (connect win2 solflare w1) as [[e|response] w']; [reflexivity|].
    now rewrite Hk.
  - intros win expected w Hnone Hp Hs.
    pose proof (find_loop_first win w wallet_order expected) as Hf.
    unfold connectSolanaWallet, findConnectedProvider.
    unfold wallet_order in Hf at 1.
    destruct (find_loop win w _ expected) as [p|].
    + destruct Hf as [Hq _]. now apply Hnone in Hq.
    + now rewrite Hp, Hs.
Qed.
End ConnectEffects.

Lemma connectSolanaWallet_connects_two_wallets_only_witness :
  connectSolanaWallet Mock.phantom_only_others Mock.wallet_address 0%nat
  = (inr phantom, 1%nat)
  /\ connectSolanaWallet Mock.backpack_only Mock.wallet_address 0%nat
     = (inl (not_found Mock.wallet_address), 0%nat).
Proof.
  split.
  - refine (eq_trans
              (eq_sym (proj1 connectSolanaWallet_connects_two_wallets_only
                         Mock.phantom_only Mock.phantom_only_others
                         (fun _ _ => eq_refl) (fun _ _ => eq_refl)
                         (fun _ _ => eq_refl) (fun _ => eq_refl)
                         (fun _ => eq_refl) Mock.wallet_address 0%nat)) _).
    reflexivity.
  - apply (proj2 connectSolanaWallet_connects_two_wallets_only
             Mock.backpack_only Mock.wallet_address 0%nat);
      [|reflexivity|reflexivity].
    intros p (_ & Hc & _). discriminate.
Defined.

(** ** Signing a Solana transaction *)

Lemma uint8ArrayToBase64_encode (bytes : list Byte.byte) :
  uint8ArrayToBase64 bytes = inr (b64_encode (List.map Byte.to_N bytes)).
Proof.
  unfold uint8ArrayToBase64.
  replace (List.map (fun b => fromCharCode (Fin (Z.of_N (Byte.to_N b)))) bytes)
    with (List.map Byte.to_N bytes)
    by (apply map_ext; intros b; symmetry; apply byte_unit).
  apply atob_btoa. apply Forall_forall. intros n Hn.
  apply in_map_iff in Hn as [b [<- _]].
  pose proof (Byte.to_N_bounded b). unfold is_byte. lia.
Qed.

Lemma bytes_are_bytes (bytes : list Byte.byte) :
  Forall is_byte (List.map Byte.to_N bytes).
Proof.
  apply Forall_forall. intros n Hn. apply in_map_iff in Hn as [b [<- _]].
  pose proof (Byte.to_N_bounded b). unfold is_byte. lia.
Qed.

Lemma to_uint8_bytes (bytes : list Byte.byte) :
  List.map to_uint8 (List.map Byte.to_N bytes) = bytes.
Proof.
  rewrite map_map. rewrite <- (map_id bytes) at 2.
  apply map_ext. intros b. apply to_uint8_byte.
Qed.

Lemma base64ToUint8Array_encode (bytes : list Byte.byte) :
  base64ToUint8Array (b64_encode (List.map Byte.to_N bytes)) = inr bytes.
Proof.
  unfold base64ToUint8Array.
  destruct (atob_btoa _ (bytes_are_bytes bytes)) as [_ ->].
  now rewrite to_uint8_bytes.
Qed.

Lemma atob_error data e : atob data = inl e -> e = InvalidCharacterError.
Proof.
  unfold atob.
  destruct (List.length _ mod 4 =? 1)%nat; [now intros [= <-]|].
  destruct (sextets _); [discriminate|now intros [= <-]].
Qed.

Section SigningTx.
Context {World Tx : Type}.
Variable toLowerCase : jsstring -> jsstring.
Variable serialize : Tx -> exn + list Byte.byte.

(** X22. [signDelegateTx] never resolves and never signs. It rejects with
    "Wallet not connected" when the provider is not connected or has no
    public key; otherwise with the address mismatch when a non-empty
    expected signer differs from the public key after lower-casing both;
    otherwise with [atob]'s InvalidCharacterError when the transaction is
    not base64; and otherwise, the transaction having been decoded, with the
    error that tells to use [signDelegateTxWithTransaction]. *)
Theorem signDelegateTx_always_rejects :
  forall (provider : SolanaProvider World Tx) unsignedTxBase64 expectedSigner w,
    exists e,
      signDelegateTx toLowerCase provider unsignedTxBase64 expectedSigner w
      = inl e
      /\ (e = not_connected
          <-> sp_isConnected provider w = false
              \/ sp_publicKey provider w = None)
      /\ (forall key,
            sp_isConnected provider w = true ->
            sp_publicKey provider w = Some key ->
            let differs :=
              exists c rest,
                expectedSigner = Some (c :: rest)
                /\ toLowerCase key <> toLowerCase (c :: rest) in
            (differs ->
             exists expected,
               expectedSigner = Some expected
               /\ e = address_mismatch expected key)
            /\ (~ differs ->
                match base64ToUint8Array unsignedTxBase64 with
                | inl _ => e = InvalidCharacterError
                | inr _ => e = needs_transaction_object
                end)).
Proof.
  intros provider tx expected w. unfold signDelegateTx.
  destruct (sp_isConnected provider w) eqn:Hc.
  2:{ exists not_connected. split; [reflexivity|]. split; [tauto|].
      intros key Hc'. discriminate. }
  destruct (sp_publicKey provider w) as [key|] eqn:Hk.
  2:{ exists not_connected. split; [reflexivity|]. split; [tauto|].
      intros key _ Hk'. discriminate. }
  assert (Hnc : forall e', e' <> not_connected ->
    (e' = not_connected <-> true = false \/ Some key = None)).
  { intros e' Hne. split; [contradiction|]. intros [|]; discriminate. }
  destruct expected as [[|c rest]|].
  - (* an empty expected signer is not checked *)
    assert (Hno : ~ exists c rest,
      Some (@nil code_unit) = Some (c :: rest)
      /\ toLowerCase key <> toLowerCase (c :: rest))
      by (intros (c & rest & H & _); discriminate).
    cbv zeta.
    destruct (base64ToUint8Array tx) as [e0|bytes] eqn:Hb.
    + exists e0. split; [reflexivity|].
      assert (e0 = InvalidCharacterError) as ->.
      { unfold base64ToUint8Array in Hb.
        destruct (atob tx) eqn:Ha; [|discriminate].
        injection Hb as <-. eapply atob_error, Ha. }
      split; [apply Hnc; discriminate|].
      intros key' _ [= <-]. split; [intros Hd; now destruct Hno|reflexivity].
    + exists needs_transaction_object. split; [reflexivity|].
      split; [apply Hnc; discriminate|].
      intros key' _ [= <-]. split; [intros Hd; now destruct Hno|reflexivity].
  - cbv zeta.
    destruct (str_eqb (toLowerCase key) (toLowerCase (c :: rest))) eqn:He;
      cbn [negb].
    + apply str_eqb_eq in He.
      assert (Hno : ~ exists c0 rest0,
        Some (c :: rest) = Some (c0 :: rest0)
        /\ toLowerCase key <> toLowerCase (c0 :: rest0)).
      { intros (c0 & rest0 & [= <- <-] & Hne). contradiction. }
      destruct (base64ToUint8Array tx) as [e0|bytes] eqn:Hb.
      * exists e0. split; [reflexivity|].
        assert (e0 = InvalidCharacterError) as ->.
        { unfold base64ToUint8Array in Hb.
          destruct (atob tx) eqn:Ha; [|discriminate].
          injection Hb as <-. eapply atob_error, Ha. }
        split; [apply Hnc; discriminate|].
        intros key' _ [= <-].
        split; [intros Hd; now destruct Hno|reflexivity].
      * exists needs_transaction_object. split; [reflexivity|].
        split; [apply Hnc; discriminate|].
        intros key' _ [= <-].
        split; [intros Hd; now destruct Hno|reflexivity].
    + exists (address_mismatch (c :: rest) key). split; [reflexivity|].
      split; [apply Hnc; discriminate|].
      intros key' _ [= <-]. split; [eauto|].
      intros Hno. exfalso. apply Hno. exists c, rest. split; [reflexivity|].
      intros Heq. apply str_eqb_eq in Heq. congruence.
  - assert (Hno : ~ exists c rest,
      @None jsstring = Some (c :: rest)
      /\ toLowerCase key <> toLowerCase (c :: rest))
      by (intros (c & rest & H & _); discriminate).
    cbv zeta.
    destruct (base64ToUint8Array tx) as [e0|bytes] eqn:Hb.
    + exists e0. split; [reflexivity|].
      assert (e0 = InvalidCharacterError) as ->.
      { unfold base64ToUint8Array in Hb.
        destruct (atob tx) eqn:Ha; [|discriminate].
        injection Hb as <-. eapply atob_error, Ha. }
      split; [apply Hnc; discriminate|].
      intros key' _ [= <-]. split; [intros Hd; now destruct Hno|reflexivity].
    + exists needs_transaction_object. split; [reflexivity|].
      split; [apply Hnc; discriminate|].
      intros key' _ [= <-]. split; [intros Hd; now destruct Hno|reflexivity].
Qed.

(** X23. [signDelegateTxWithTransaction]: without a connection or a public
    key it rejects with "Wallet not connected" and the wallet is not asked;
    a rejection by the wallet, or a throw of [serialize], is the rejection
    of the call; otherwise it resolves with the base64 of the signed
    transaction's bytes, from which [base64ToUint8Array] gives these bytes
    back, and with the public key as it read before the wallet signed. *)
Theorem signDelegateTxWithTransaction_returns_the_signed_bytes :
  forall (provider : SolanaProvider World Tx) transaction w,
    let run :=
      signDelegateTxWithTransaction serialize provider transaction w in
    (sp_isConnected provider w = false \/ sp_publicKey provider w = None ->
     run = (inl not_connected, w))
    /\ (forall key o w',
          sp_isConnected provider w = true ->
          sp_publicKey provider w = Some key ->
          signTransaction provider transaction w = (o, w') ->
          snd run = w'
          /\ match o with
             | inl e => fst run = inl e
             | inr signed =>
                 match serialize signed with
                 | inl e => fst run = inl e
                 | inr signedTxBytes =>
                     exists res,
                       fst run = inr res
                       /\ uint8ArrayToBase64 signedTxBytes
                          = inr (signedTx res)
                       /\ base64ToUint8Array (signedTx res)
                          = inr signedTxBytes
                       /\ txSignerAddress res = key
                 end
             end).
Proof.
  intros provider transaction w run. subst run.
  unfold signDelegateTxWithTransaction. split.
  - intros [H|H]; rewrite H; [reflexivity|].
    now destruct (sp_isConnected provider w).
  - intros key o w' Hc Hk Hs. rewrite Hc, Hk, Hs.
    destruct o as [e|signed]; [split; reflexivity|].
    destruct (serialize signed) as [e|bytes]; [split; reflexivity|].
    rewrite uint8ArrayToBase64_encode. cbn [fst snd]. split; [reflexivity|].
    eexists. split; [reflexivity|]. cbn [signedTx txSignerAddress].
    split; [reflexivity|]. split; [apply base64ToUint8Array_encode|reflexivity].
Qed.
End SigningTx.

Lemma signDelegateTx_always_rejects_witness :
  signDelegateTx Mock.lower Mock.solana_wallet (lit "aGVsbG8=")
    (Some Mock.wallet_address) 0%nat
  = inl needs_transaction_object.
Proof.
  destruct (signDelegateTx_always_rejects Mock.lower Mock.solana_wallet
              (lit "aGVsbG8=") (Some Mock.wallet_address) 0%nat)
    as (e & Hrun & _ & Hcases).
  rewrite Hrun. f_equal.
  apply (proj2 (Hcases Mock.wallet_address eq_refl eq_refl)).
  intros (c & rest & [= <- <-] & Hne). now apply Hne.
Defined.

Lemma signDelegateTxWithTransaction_returns_the_signed_bytes_witness :
  signDelegateTxWithTransaction Mock.serialize Mock.solana_wallet
    [Byte.x68; Byte.x69] 0%nat
  = (inr {| signedTx := lit "AWhp"; txSignerAddress := Mock.wallet_address |},
     1%nat)
  /\ base64ToUint8Array (lit "AWhp") = inr [Byte.x01; Byte.x68; Byte.x69].
Proof.
  destruct (proj2 (signDelegateTxWithTransaction_returns_the_signed_bytes
                     Mock.serialize Mock.solana_wallet [Byte.x68; Byte.x69]
                     0%nat)
              Mock.wallet_address _ 1%nat eq_refl eq_refl eq_refl)
    as (Hw & res & Hrun & Henc & Hdec & Hkey).
  destruct res as [tx key]. cbn [signedTx txSignerAddress] in *.
  vm_compute in Henc. injection Henc as <-. subst key.
  split.
  - rewrite (surjective_pairing (signDelegateTxWithTransaction _ _ _ _)).
    now rewrite Hw, Hrun.
  - exact Hdec.
Defined.

(** ** The shape of base64 *)

Lemma padding_of_length (s : list N) :
  List.length (padding_of s) = ((3 - List.length s mod 3) mod 3)%nat.
Proof.
  induction s as [| | |a b c rest IH] using list_ind3; try reflexivity.
  cbn [padding_of List.length]. rewrite IH.
  replace (S (S (S (List.length rest)))) with (List.length rest + 1 * 3)%nat
    by lia.
  now rewrite Nat.Div0.mod_add.
Qed.

Lemma b64_encode_length4 (s : list N) :
  List.length (b64_encode s) = (4 * ((List.length s + 2) / 3))%nat.
Proof.
  induction s as [| | |a b c rest IH] using list_ind3; try reflexivity.
  cbn [b64_encode List.length]. rewrite IH.
  replace (S (S (S (List.length rest))) + 2)%nat
    with (List.length rest + 2 + 1 * 3)%nat by lia.
  rewrite Nat.div_add by lia. lia.
Qed.

Lemma strip_padding_unpadded vs :
  strip_padding (List.map b64_char vs) = List.map b64_char vs.
Proof.
  unfold strip_padding.
  destruct (List.length (List.map b64_char vs) mod 4 =? 0)%nat; [|reflexivity].
  destruct (rev (List.map b64_char vs)) as [|c r] eqn:E; [reflexivity|].
  assert (In c (List.map b64_char vs)) as Hin
    by (apply in_rev; rewrite E; now left).
  apply in_map_iff in Hin as [v [<- _]]. now rewrite b64_char_not_pad.
Qed.

Lemma all_pad (l : list N) :
  forallb (fun c => (c =? 61)%N) l = true -> l = repeat 61%N (List.length l).
Proof.
  induction l as [|c r IH]; [reflexivity|]. cbn [forallb].
  intros H. apply andb_prop in H as [Hc Hr]. apply N.eqb_eq in Hc. subst c.
  cbn [List.length repeat]. now rewrite <- IH.
Qed.

(** X24. [uint8ArrayToBase64] always returns: a string of [4 * ceil(n / 3)]
    characters for [n] bytes, made of letters, digits, [+] and [/], and
    closed by [(3 - n mod 3) mod 3] signs [=]. *)
Theorem uint8ArrayToBase64_shape :
  forall bytes : list Byte.byte,
  exists body padding,
    uint8ArrayToBase64 bytes = inr (body ++ padding)
    /\ List.length (body ++ padding)
       = (4 * ((List.length bytes + 2) / 3))%nat
    /\ Forall (fun c => b64_value c <> None) body
    /\ padding = repeat 61%N ((3 - List.length bytes mod 3) mod 3).
Proof.
  intros bytes. set (binary := List.map Byte.to_N bytes).
  exists (List.map b64_char (sextets_of binary)), (padding_of binary).
  rewrite uint8ArrayToBase64_encode. fold binary.
  rewrite <- b64_encode_split. split; [reflexivity|].
  split.
  { rewrite b64_encode_length4. unfold binary. now rewrite length_map. }
  split.
  - apply Forall_forall. intros c Hc. apply in_map_iff in Hc as [v [<- Hv]].
    pose proof (sextets_of_bound binary (bytes_are_bytes bytes)) as Hb.
    rewrite Forall_forall in Hb. rewrite b64_value_char by auto. discriminate.
  - pose proof (padding_of_length binary) as Hl.
    unfold binary in Hl at 2. rewrite length_map in Hl. rewrite <- Hl.
    apply all_pad, padding_is_pad.
Qed.

(** X25. [base64ToUint8Array] is forgiving as [atob] is: tabs, line feeds,
    form feeds, carriage returns and spaces are skipped wherever they
    stand; the padding may be left out; and whatever it cannot decode is
    rejected with an InvalidCharacterError, never by returning other
    bytes. *)
Theorem base64ToUint8Array_is_forgiving :
  (forall a ws b,
     is_ascii_whitespace ws = true ->
     base64ToUint8Array (a ++ ws :: b) = base64ToUint8Array (a ++ b))
  /\ (forall bytes : list Byte.byte,
        base64ToUint8Array
          (List.map b64_char (sextets_of (List.map Byte.to_N bytes)))
        = inr bytes)
  /\ (forall base64 e,
        base64ToUint8Array base64 = inl e -> e = InvalidCharacterError).
Proof.
  split; [|split].
  - intros a ws b Hws. unfold base64ToUint8Array, atob.
    rewrite !filter_app. cbn [filter]. now rewrite Hws.
  - intros bytes. set (binary := List.map Byte.to_N bytes).
    unfold base64ToUint8Array, atob.
    assert (Hf : filter (fun c => negb (is_ascii_whitespace c))
                   (List.map b64_char (sextets_of binary))
                 = List.map b64_char (sextets_of binary)).
    { apply filter_all, forallb_forall. intros c Hc.
      apply in_map_iff in Hc as [v [<- _]]. now rewrite b64_char_not_space. }
    rewrite Hf, strip_padding_unpadded, length_map.
    pose proof (sextets_length binary) as Hl.
    apply Nat.eqb_neq in Hl. rewrite Hl.
    rewrite sextets_chars by apply sextets_of_bound, bytes_are_bytes.
    rewrite b64_decode_sextets by apply bytes_are_bytes.
    unfold binary. now rewrite to_uint8_bytes.
  - intros base64 e. unfold base64ToUint8Array.
    destruct (atob base64) eqn:Ha; [|discriminate].
    intros [= <-]. eapply atob_error, Ha.
Qed.

Lemma base64ToUint8Array_is_forgiving_witness :
  base64ToUint8Array (lit "aGVs" ++ 10%N :: lit "bG8=")
  = base64ToUint8Array (lit "aGVsbG8=")
  /\ base64ToUint8Array (lit "aGVsbG8")
     = inr [Byte.x68; Byte.x65; Byte.x6c; Byte.x6c; Byte.x6f]
  /\ base64ToUint8Array (lit "aGVsbG8*") = inl InvalidCharacterError.
Proof.
  destruct base64ToUint8Array_is_forgiving as (Hws & Hpad & Herr).
  split; [|split].
  - apply (Hws (lit "aGVs") 10%N (lit "bG8=")). reflexivity.
  - exact (Hpad [Byte.x68; Byte.x65; Byte.x6c; Byte.x6c; Byte.x6f]).
  - destruct (base64ToUint8Array (lit "aGVsbG8*")) as [e|bytes] eqn:E;
      [|vm_compute in E; discriminate].
    f_equal. now apply (Herr (lit "aGVsbG8*")).
Defined.
